(** * Financial-Data-Parser: the format parser and the column type detector

    A shallow embedding of [src/core/format_parser.py] (class [FormatParser])
    and [src/core/type_detector.py] (class [DataTypeDetector]), together
    with the part of the Python runtime these two classes rest on:

    - [Py]  : exceptions, [str], [float] (IEEE binary64) and [datetime];
    - [Re]  : the backtracking matcher behind [re.match], [re.search] and
              [re.sub], with capture groups and [re.IGNORECASE];
    - [FormatParser], [DataTypeDetector] : the two classes, method by
              method, under the names they have in the source.
    - [FormatInfo] : the three routines of [DataTypeDetector] that describe
              a sample once its type is known ([detect_date_format],
              [detect_number_format], [classify_string_type]).

    Modelling conventions.

    - A Python [str] is a list of Unicode code points.  The character
      classes used by the source ([\d], [\w], [str.upper], the digits read
      by [float] and [int]) are those of CPython on the Basic Latin block;
      the white-space table ([str.strip], [\s]) is CPython's complete one,
      and [float] and [int] trim their own part of it.
      Outside Basic Latin a code point is its own upper and lower case and
      is neither a digit nor a word character.
    - A Python [float] is a [spec_float] at precision 53 and maximal
      exponent 1024; literals are rounded to nearest, ties to even.
    - A call that can raise returns in the exception monad [Py.res];
      [try ... except] is [Py.try_except].
    - A [datetime] carries its calendar date; the time of day is not
      modelled.
    - [dateutil.parser.parse] is a third-party function: [parse_date] takes
      it as a parameter ([None] when it raises). *)

From Stdlib Require Import String Ascii.
From Stdlib Require Import ZArith NArith List Bool Lia.
From Stdlib Require Import Floats.SpecFloat.
Import ListNotations.
Open Scope list_scope.

(* ===================================================================== *)
(** * The Python runtime *)
(* ===================================================================== *)

Module Py.

(** ** Exceptions *)

Inductive exn : Type :=
| ValueError
| OverflowError.

Definition exn_eqb (a b : exn) : bool :=
  match a, b with
  | ValueError, ValueError => true
  | OverflowError, OverflowError => true
  | _, _ => false
  end.

Inductive res (A : Type) : Type :=
| Ret (a : A)
| Raise (e : exn).

Arguments Ret {A} a.
Arguments Raise {A} e.

Definition bind {A B : Type} (c : res A) (k : A -> res B) : res B :=
  match c with
  | Ret a => k a
  | Raise e => Raise e
  end.

(** [try: body  except <classes>: handler]; [handles e] tells whether the
    [except] clause catches [e]. *)
Definition try_except {A : Type} (body : res A) (handles : exn -> bool)
    (handler : exn -> res A) : res A :=
  match body with
  | Ret a => Ret a
  | Raise e => if handles e then handler e else Raise e
  end.

(** [except ValueError] *)
Definition is_ValueError (e : exn) : bool := exn_eqb e ValueError.
(** [except Exception] and the bare [except:] *)
Definition is_Exception (_ : exn) : bool := true.

Declare Scope py_scope.
Delimit Scope py_scope with py.
Notation "x <- c ;; k" := (bind c (fun x => k))
  (at level 61, c at next level, right associativity) : py_scope.
Local Open Scope py_scope.

(** ** Strings *)

Local Open Scope bool_scope.
Local Open Scope N_scope.

Definition char : Type := N.
Definition str : Type := list char.

Definition chr (a : ascii) : char := N_of_ascii a.
Arguments chr a%_char.

Fixpoint pystr (s : string) : str :=
  match s with
  | EmptyString => []
  | String a s' => chr a :: pystr s'
  end.
Arguments pystr s%_string.

Definition char_eqb (a b : char) : bool := N.eqb a b.

Fixpoint str_eqb (a b : str) : bool :=
  match a, b with
  | [], [] => true
  | x :: a', y :: b' => char_eqb x y && str_eqb a' b'
  | _, _ => false
  end.

Definition in_range (lo hi c : char) : bool := N.leb lo c && N.leb c hi.

(** The currency symbols of the source. *)
Definition DOLLAR : char := 36.     (* U+0024 *)
Definition EURO   : char := 8364.   (* U+20AC *)
Definition RUPEE  : char := 8377.   (* U+20B9 *)
Definition POUND  : char := 163.    (* U+00A3 *)
Definition YEN    : char := 165.    (* U+00A5 *)

(** [str.isspace] on one code point: CPython's [_PyUnicode_IsWhitespace]. *)
Definition isspace (c : char) : bool :=
  in_range 9 13 c || in_range 28 32 c || N.eqb c 133 || N.eqb c 160
  || N.eqb c 5760 || in_range 8192 8202 c || N.eqb c 8232 || N.eqb c 8233
  || N.eqb c 8239 || N.eqb c 8287 || N.eqb c 12288.

Definition isdigit (c : char) : bool := in_range 48 57 c.
Definition isupper (c : char) : bool := in_range 65 90 c.
Definition islower (c : char) : bool := in_range 97 122 c.
Definition isalnum (c : char) : bool := isdigit c || isupper c || islower c.

Definition upper_char (c : char) : char := if islower c then c - 32 else c.
Definition lower_char (c : char) : char := if isupper c then c + 32 else c.

(** [s.upper()], [s.lower()] *)
Definition upper (s : str) : str := map upper_char s.
Definition lower (s : str) : str := map lower_char s.

(** The white space [float] and [int] trim from a text: the separators
    U+001C to U+001F are not part of it. *)
Definition isspace_numeric (c : char) : bool :=
  isspace c && negb (in_range 28 31 c).

(** Trimming the characters [sp] off both ends. *)
Fixpoint ltrim (sp : char -> bool) (s : str) : str :=
  match s with
  | [] => []
  | c :: s' => if sp c then ltrim sp s' else s
  end.
Definition rtrim (sp : char -> bool) (s : str) : str :=
  rev (ltrim sp (rev s)).
Definition trim (sp : char -> bool) (s : str) : str :=
  rtrim sp (ltrim sp s).

(** [s.strip()] *)
Definition strip (s : str) : str := trim isspace s.

(** [s.startswith(p)] *)
Fixpoint startswith (s p : str) : bool :=
  match p, s with
  | [], _ => true
  | x :: p', y :: s' => char_eqb x y && startswith s' p'
  | _ :: _, [] => false
  end.

(** [s.endswith(p)] *)
Definition endswith (s p : str) : bool := startswith (rev s) (rev p).

(** [c in s] for a one-character [c] *)
Definition contains_char (c : char) (s : str) : bool := existsb (char_eqb c) s.

(** [s[:-1]] *)
Definition drop_last (s : str) : str := removelast s.
(** [s[1:-1]] *)
Definition strip_ends (s : str) : str := removelast (tl s).

(** [s.replace(old, new)] for a one-character [old] *)
Definition replace_char (old : char) (new : str) (s : str) : str :=
  flat_map (fun c => if char_eqb c old then new else [c]) s.

(** [s.split()]: the maximal runs of non-white-space characters. *)
Fixpoint split_ws_aux (s : str) (cur : str) : list str :=
  match s with
  | [] => match cur with [] => [] | _ => [rev cur] end
  | c :: s' =>
      if isspace c
      then match cur with
           | [] => split_ws_aux s' []
           | _ => rev cur :: split_ws_aux s' []
           end
      else split_ws_aux s' (c :: cur)
  end.
Definition split_ws (s : str) : list str := split_ws_aux s [].

(** The longest prefix of characters satisfying [p], and the rest. *)
Fixpoint span (p : char -> bool) (s : str) : str * str :=
  match s with
  | [] => ([], [])
  | c :: s' =>
      if p c then let (a, b) := span p s' in (c :: a, b) else ([], s)
  end.

(** Underscores in a numeric literal stand between two digits
    ([_Py_string_to_number_with_underscores]); the result is the literal
    without them. *)
Fixpoint drop_underscores (prev : char) (s : str) : option str :=
  match s with
  | [] => if char_eqb prev 95 then None else Some []
  | c :: s' =>
      if char_eqb c 95
      then if isdigit prev then drop_underscores c s' else None
      else if char_eqb prev 95 && negb (isdigit c) then None
      else option_map (cons c) (drop_underscores c s')
  end.

(** An optional sign. *)
Definition read_sign (s : str) : bool * str :=
  match s with
  | c :: s' =>
      if char_eqb c 45 then (true, s')
      else if char_eqb c 43 then (false, s')
      else (false, s)
  | [] => (false, [])
  end.

Definition is_dot (c : char) : bool := char_eqb c 46.
Definition is_e (c : char) : bool := char_eqb (lower_char c) 101.

Local Close Scope N_scope.
Local Open Scope Z_scope.

Definition digit_val (c : char) : Z := Z.of_N c - 48.

(** The number written by a string of decimal digits. *)
Definition digits_val (ds : str) : Z :=
  fold_left (fun acc c => 10 * acc + digit_val c) ds 0.

(** ** Floats: IEEE 754 binary64 *)

Definition float : Type := spec_float.
Definition prec : Z := 53.
Definition emax : Z := 1024.

Definition fmul : float -> float -> float := SFmul prec emax.
Definition fadd : float -> float -> float := SFadd prec emax.
Definition fsub : float -> float -> float := SFsub prec emax.
Definition fabs : float -> float := SFabs.
Definition fleb : float -> float -> bool := SFleb.
Definition fltb : float -> float -> bool := SFltb.

(** [float(z)] for a Python [int] *)
Definition float_of_int (z : Z) : float := binary_normalize prec emax z 0 false.

(** [n / d] on Python [int]s with [d > 0]: the correctly rounded quotient. *)
Definition float_of_ratio (n d : Z) : float :=
  match n with
  | Z0 => S754_zero false
  | _ =>
      let '(q, e, l) := SFdiv_core_binary prec emax (Z.abs n) 0 d 0 in
      binary_round_aux prec emax (Z.ltb n 0) q e l
  end.

(** The float nearest to [(-1)^s * m * 10^e]. *)
Definition float_of_decimal (s : bool) (m e : Z) : float :=
  match m with
  | Zpos p =>
      if Z.leb 0 e
      then binary_normalize prec emax (if s then - (m * 10 ^ e) else m * 10 ^ e) 0 s
      else
        let '(q, e', l) := SFdiv_core_binary prec emax m 0 (10 ^ (- e)) 0 in
        binary_round_aux prec emax s q e' l
  | _ => S754_zero s
  end.

(** The exponent part [e[+-]digits], up to the end of the literal. *)
Definition read_exponent (s : str) : option Z :=
  match s with
  | [] => Some 0
  | c :: s' =>
      if is_e c
      then
        let (neg, t) := read_sign s' in
        let (ds, rest) := span isdigit t in
        match ds, rest with
        | _ :: _, [] => Some (if neg then - digits_val ds else digits_val ds)
        | _, _ => None
        end
      else None
  end.

(** A whole literal: [inf], [infinity], [nan] or a decimal number. *)
Definition read_float (s : str) : option float :=
  let (neg, t) := read_sign s in
  let lt := lower t in
  if (str_eqb lt (pystr "inf") || str_eqb lt (pystr "infinity"))%bool
  then Some (S754_infinity neg)
  else if str_eqb lt (pystr "nan") then Some S754_nan
  else
    let (ip, r1) := span isdigit t in
    let (fp, r2) :=
      match r1 with
      | c :: r1' => if is_dot c then span isdigit r1' else ([], r1)
      | [] => ([], [])
      end in
    match ip ++ fp with
    | [] => None
    | _ :: _ =>
        match read_exponent r2 with
        | Some ex =>
            Some (float_of_decimal neg (digits_val (ip ++ fp))
                    (ex - Z.of_nat (length fp)))
        | None => None
        end
    end.

(** [float(s)] for a [str] *)
Definition float_of_str (s : str) : res float :=
  match drop_underscores 0%N (trim isspace_numeric s) with
  | None => Raise ValueError
  | Some t =>
      match read_float t with
      | Some f => Ret f
      | None => Raise ValueError
      end
  end.

(** [int(f)] for a [float]: truncation; infinities and NaN raise. *)
Definition int_of_float (f : float) : res Z :=
  match f with
  | S754_zero _ => Ret 0
  | S754_infinity _ => Raise OverflowError
  | S754_nan => Raise ValueError
  | S754_finite s m e =>
      let a := match e with
               | Zneg k => Z.shiftr (Zpos m) (Zpos k)
               | _ => Z.shiftl (Zpos m) e
               end in
      Ret (if s then - a else a)
  end.

(** [f == z] for a [float] and an [int]: Python compares the two exactly. *)
Definition float_eq_int (f : float) (z : Z) : bool :=
  match f with
  | S754_zero _ => Z.eqb z 0
  | S754_infinity _ => false
  | S754_nan => false
  | S754_finite s m e =>
      match e with
      | Zneg k =>
          (Z.eqb (Z.land (Zpos m) (Z.ones (Zpos k))) 0
           && Z.eqb z (if s then - Z.shiftr (Zpos m) (Zpos k)
                       else Z.shiftr (Zpos m) (Zpos k)))%bool
      | _ => Z.eqb z (if s then - Z.shiftl (Zpos m) e else Z.shiftl (Zpos m) e)
      end
  end.

(** [int(s)] for a string of ASCII digits, as the groups [\d+] deliver. *)
Definition int_of_str (s : str) : res Z :=
  let t := trim isspace_numeric s in
  let (neg, u) := read_sign t in
  match drop_underscores 0%N u with
  | Some (c :: ds) =>
      if forallb isdigit (c :: ds)
      then Ret (if neg then - digits_val (c :: ds) else digits_val (c :: ds))
      else Raise ValueError
  | _ => Raise ValueError
  end.

(** ** Calendar dates: [datetime] *)

Record datetime : Type := mk_datetime { year : Z; month : Z; day : Z }.

Definition MINYEAR : Z := 1.
Definition MAXYEAR : Z := 9999.
Definition MAXORDINAL : Z := 3652059.

Definition DAYS_IN_MONTH : list Z :=
  [-1; 31; 28; 31; 30; 31; 30; 31; 31; 30; 31; 30; 31].
Definition DAYS_BEFORE_MONTH : list Z :=
  [-1; 0; 31; 59; 90; 120; 151; 181; 212; 243; 273; 304; 334].

Definition index (l : list Z) (i : Z) : Z := nth (Z.to_nat i) l 0.

Definition is_leap (y : Z) : bool :=
  (Z.eqb (y mod 4) 0 && (negb (Z.eqb (y mod 100) 0) || Z.eqb (y mod 400) 0))%bool.

Definition days_before_year (y : Z) : Z :=
  let y1 := y - 1 in y1 * 365 + y1 / 4 - y1 / 100 + y1 / 400.

Definition days_in_month (y m : Z) : Z :=
  if (Z.eqb m 2 && is_leap y)%bool then 29 else index DAYS_IN_MONTH m.

Definition days_before_month (y m : Z) : Z :=
  index DAYS_BEFORE_MONTH m + (if (Z.ltb 2 m && is_leap y)%bool then 1 else 0).

Definition ymd2ord (y m d : Z) : Z :=
  days_before_year y + days_before_month y m + d.

Definition DI400Y : Z := days_before_year 401.
Definition DI100Y : Z := days_before_year 101.
Definition DI4Y : Z := days_before_year 5.

Definition ord2ymd (n0 : Z) : datetime :=
  let n := n0 - 1 in
  let n400 := n / DI400Y in
  let n := n mod DI400Y in
  let y := n400 * 400 + 1 in
  let n100 := n / DI100Y in
  let n := n mod DI100Y in
  let n4 := n / DI4Y in
  let n := n mod DI4Y in
  let n1 := n / 365 in
  let n := n mod 365 in
  let y := y + n100 * 100 + n4 * 4 + n1 in
  if (Z.eqb n1 4 || Z.eqb n100 4)%bool then mk_datetime (y - 1) 12 31
  else
    let leapyear := (Z.eqb n1 3 && (negb (Z.eqb n4 24) || Z.eqb n100 3))%bool in
    let m := Z.shiftr (n + 50) 5 in
    let preceding :=
      index DAYS_BEFORE_MONTH m + (if (Z.ltb 2 m && leapyear)%bool then 1 else 0) in
    if Z.ltb n preceding
    then
      let m := m - 1 in
      let preceding :=
        preceding
        - (index DAYS_IN_MONTH m + (if (Z.eqb m 2 && leapyear)%bool then 1 else 0)) in
      mk_datetime y m (n - preceding + 1)
    else mk_datetime y m (n - preceding + 1).

(** [datetime(y, m, d)]: the constructor checks its fields. *)
Definition new_datetime (y m d : Z) : res datetime :=
  if negb (Z.leb MINYEAR y && Z.leb y MAXYEAR)%bool then Raise ValueError
  else if negb (Z.leb 1 m && Z.leb m 12)%bool then Raise ValueError
  else if negb (Z.leb 1 d && Z.leb d (days_in_month y m))%bool then Raise ValueError
  else Ret (mk_datetime y m d).

Definition toordinal (dt : datetime) : Z := ymd2ord (year dt) (month dt) (day dt).

(** The whole days of a duration of [f] days.  The callers pass finite
    durations only; the other two cases are kept for totality. *)
Definition whole_days (f : float) : res Z :=
  match f with
  | S754_zero _ => Ret 0
  | S754_infinity _ => Raise OverflowError
  | S754_nan => Raise ValueError
  | S754_finite s m e =>
      let z := if s then Zneg m else Zpos m in
      Ret (match e with
           | Zneg k => Z.shiftr z (Zpos k)
           | _ => Z.shiftl z e
           end)
  end.

(** [dt + pd.Timedelta(days=f)], on the calendar date. *)
Definition add_days (dt : datetime) (f : float) : res datetime :=
  d <- whole_days f ;;
  let o := toordinal dt + d in
  if (Z.ltb 0 o && Z.leb o MAXORDINAL)%bool then Ret (ord2ymd o)
  else Raise OverflowError.

End Py.

(* ===================================================================== *)
(** * Regular expressions: the [re] module *)
(* ===================================================================== *)

Module Re.
Import Py.

(** A set of characters: one atom of a pattern, or a bracketed class. *)
Inductive cset : Type :=
| CChar (c : char)            (* a literal character *)
| CRange (lo hi : char)       (* [lo-hi] *)
| CDigit                      (* \d *)
| CWord                       (* \w *)
| CSpace                      (* \s *)
| CUnion (a b : cset).        (* the members of a class, side by side *)

Inductive regex : Type :=
| Empty
| Chr (c : cset)
| Seq (a b : regex)
| Rep (r : regex) (lo : nat) (hi : option nat)    (* greedy r{lo,hi} *)
| Group (n : nat) (r : regex)                     (* the n-th ( ... ) *)
| Bol                                             (* ^ *)
| Eol.                                            (* $ *)

Fixpoint cset_mem (cs : cset) (c : char) : bool :=
  match cs with
  | CChar x => char_eqb x c
  | CRange lo hi => in_range lo hi c
  | CDigit => isdigit c
  | CWord => (isalnum c || char_eqb c 95%N)%bool
  | CSpace => isspace c
  | CUnion a b => (cset_mem a c || cset_mem b c)%bool
  end.

(** Membership under [re.IGNORECASE] ([ic = true]): either case is in. *)
Definition cset_match (ic : bool) (cs : cset) (c : char) : bool :=
  (cset_mem cs c
   || (ic && (cset_mem cs (lower_char c) || cset_mem cs (upper_char c))))%bool.

(** The groups captured so far, latest first. *)
Definition captures : Type := list (nat * str).

Fixpoint lookup (n : nat) (caps : captures) : option str :=
  match caps with
  | [] => None
  | (k, v) :: caps' => if Nat.eqb k n then Some v else lookup n caps'
  end.

Record match_obj : Type := mk_match {
  m_text : str;          (* group 0 *)
  m_caps : captures;
  m_rest : str           (* the subject after the match *)
}.

(** [m.group(n)] for n >= 1 *)
Definition group (m : match_obj) (n : nat) : str :=
  match lookup n (m_caps m) with Some v => v | None => [] end.

Section Matcher.

Variable ic : bool.     (* re.IGNORECASE *)
Variable subject : str. (* the whole string searched *)
Variable A : Type.

(** The greedy repetition [body{lo,hi}] followed by [k]: one more round
    of [body] is tried first, and the repetition stops where that fails.
    A round that consumes nothing is refused; [fuel] bounds the rounds. *)
Fixpoint rep_loop
    (body : str -> captures -> (str -> captures -> option A) -> option A)
    (k : str -> captures -> option A)
    (fuel lo : nat) (hi : option nat) (s : str) (caps : captures)
    {struct fuel} : option A :=
  match fuel with
  | O => None
  | S fuel' =>
      let more :=
        match hi with
        | Some O => None
        | _ =>
            body s caps
              (fun s' caps' =>
                 if Nat.ltb (length s') (length s)
                 then rep_loop body k fuel' (pred lo) (option_map pred hi) s' caps'
                 else None)
        end in
      match more with
      | Some a => Some a
      | None => match lo with O => k s caps | S _ => None end
      end
  end.

(** The backtracking matcher, in continuation-passing style: [run r s
    caps k] matches [r] at the head of [s] and hands what is left to
    [k]; when [k] fails the next alternative of [r] is tried, longest
    repetition first. *)
Fixpoint run (r : regex) (s : str) (caps : captures)
    (k : str -> captures -> option A) {struct r} : option A :=
  match r with
  | Empty => k s caps
  | Chr cs =>
      match s with
      | c :: s' => if cset_match ic cs c then k s' caps else None
      | [] => None
      end
  | Seq a b => run a s caps (fun s' caps' => run b s' caps' k)
  | Group n r' =>
      run r' s caps
        (fun s' caps' =>
           k s' ((n, firstn (length s - length s') s) :: caps'))
  | Bol => if Nat.eqb (length s) (length subject) then k s caps else None
  | Eol =>
      match s with
      | [] => k s caps
      | [c] => if char_eqb c 10%N then k s caps else None
      | _ => None
      end
  | Rep r' lo hi => rep_loop (run r') k (S (length s)) lo hi s caps
  end.

End Matcher.

Arguments rep_loop {A} body k fuel lo hi s caps.
Arguments run ic subject {A} r s caps k.

(** A match of [r] at the head of [s], [s] being a suffix of [subject]. *)
Definition match_at (ic : bool) (r : regex) (subject s : str) : option match_obj :=
  run ic subject r s []
    (fun s' caps => Some (mk_match (firstn (length s - length s') s) caps s')).

(** [re.match(r, s)], with [re.IGNORECASE] when [ic] *)
Definition rmatch (ic : bool) (r : regex) (s : str) : option match_obj :=
  match_at ic r s s.

Fixpoint search_from (ic : bool) (r : regex) (subject s : str) : option match_obj :=
  match match_at ic r subject s with
  | Some m => Some m
  | None =>
      match s with
      | [] => None
      | _ :: s' => search_from ic r subject s'
      end
  end.

(** [re.search(r, s)] *)
Definition search (ic : bool) (r : regex) (s : str) : option match_obj :=
  search_from ic r s s.

(** A replacement template: literal text and group references [\n]. *)
Inductive titem : Type :=
| TLit (s : str)
| TGroup (n : nat).

Definition expand (tpl : list titem) (m : match_obj) : str :=
  flat_map (fun t => match t with TLit s => s | TGroup n => group m n end) tpl.

Fixpoint sub_loop (ic : bool) (r : regex) (tpl : list titem) (subject : str)
    (fuel : nat) (s : str) : str :=
  match fuel with
  | O => s
  | S fuel' =>
      let step :=
        match s with
        | [] => []
        | c :: s' => c :: sub_loop ic r tpl subject fuel' s'
        end in
      match match_at ic r subject s with
      | Some m =>
          match m_text m with
          | _ :: _ => expand tpl m ++ sub_loop ic r tpl subject fuel' (m_rest m)
          | [] => expand tpl m ++ step
          end
      | None => step
      end
  end.

(** [re.sub(r, tpl, s)] *)
Definition sub (ic : bool) (r : regex) (tpl : list titem) (s : str) : str :=
  sub_loop ic r tpl s (S (length s)) s.

(** Pattern syntax. *)
Definition lit (a : ascii) : regex := Chr (CChar (chr a)).
Arguments lit a%_char.
Definition digit : regex := Chr CDigit.       (* \d *)
Definition word : regex := Chr CWord.         (* \w *)
Definition space : regex := Chr CSpace.       (* \s *)
Definition plus (r : regex) : regex := Rep r 1 None.               (* r+ *)
Definition star (r : regex) : regex := Rep r 0 None.               (* r* *)
Definition opt (r : regex) : regex := Rep r 0 (Some 1).            (* r? *)
Definition times (n : nat) (r : regex) : regex := Rep r n (Some n). (* r{n} *)
Definition between (lo hi : nat) (r : regex) : regex := Rep r lo (Some hi).

Fixpoint class (cs : list cset) : cset :=
  match cs with
  | [] => CRange 1%N 0%N
  | [c] => c
  | c :: cs' => CUnion c (class cs')
  end.

(** What a pattern can consume: the texts [p] such that a match of [r] may
    cover exactly [p].  Anchors cover nothing; the upper bound of a
    repetition is left out. *)
Fixpoint covers (ic : bool) (r : regex) (p : str) : Prop :=
  match r with
  | Empty | Bol | Eol => p = []
  | Chr cs => exists c, p = [c] /\ cset_match ic cs c = true
  | Seq a b => exists p1 p2, p = p1 ++ p2 /\ covers ic a p1 /\ covers ic b p2
  | Group _ r' => covers ic r' p
  | Rep r' lo _ =>
      exists ps, p = concat ps /\ Forall (covers ic r') ps /\ lo <= length ps
  end.

(** A matcher [body] is sound for a set [P] of texts: whenever it succeeds
    it has consumed a member of [P] and its continuation has succeeded on
    the rest. *)
Definition sound_for {A : Type}
    (body : str -> captures -> (str -> captures -> option A) -> option A)
    (P : str -> Prop) : Prop :=
  forall s caps k a,
    body s caps k = Some a ->
    exists p s' caps', s = p ++ s' /\ P p /\ k s' caps' = Some a.

End Re.

Declare Scope re_scope.
Delimit Scope re_scope with re.
Infix "&" := Re.Seq (at level 61, right associativity) : re_scope.

(* ===================================================================== *)
(** * [src/core/format_parser.py] *)
(* ===================================================================== *)

Module FormatParser.
Import Py Re.
Local Open Scope py_scope.
Local Open Scope re_scope.
Local Open Scope string_scope.
Local Open Scope list_scope.

(** The texts of the ['error'] entries; a formatted text keeps what the
    f-string interpolates. *)
Inductive message : Type :=
| Empty_value
| Parse_error (e : exn)
| Unrecognized_special_format (value : str)
| Invalid_numeric_format (e : exn)
| Unrecognized_date_format (value : str)
| Invalid_Excel_serial_date (e : exn)
| Unsupported_pattern (pattern_name : string)
| Invalid_quarter_format (value : str)
| Invalid_month_year_format (value : str).

(** The dictionary [parse_amount] returns.  An entry that is absent and an
    entry that holds [None] both read [None]. *)
Record amount : Type := mk_amount {
  parsed_value : option float;
  currency : option string;
  is_negative : bool;
  error : option message;
  format : option string;
  abbreviation : option char;
  multiplier : option Z;
  base_value : option float;
  original_value : option str
}.

Definition amount_error (m : message) (original : option str) : amount :=
  {| parsed_value := None; currency := None; is_negative := false;
     error := Some m; format := None; abbreviation := None;
     multiplier := None; base_value := None; original_value := original |}.

Definition amount_abbreviated (final_value : float) (abbrev : char)
    (mult : Z) (base : float) : amount :=
  {| parsed_value := Some final_value; currency := None; is_negative := false;
     error := None; format := None; abbreviation := Some abbrev;
     multiplier := Some mult; base_value := Some base; original_value := None |}.

Definition amount_plain (v : float) (cur : option string) (neg : bool)
    (fmt : string) : amount :=
  {| parsed_value := Some v; currency := cur; is_negative := neg;
     error := None; format := Some fmt; abbreviation := None;
     multiplier := None; base_value := None; original_value := None |}.

(** The dictionary [parse_date] returns. *)
Record date : Type := mk_date {
  d_parsed_value : option datetime;
  d_format : option string;
  d_error : option message;
  d_original_value : option str;
  d_year : option Z;
  d_month : option Z;
  d_day : option Z;
  d_quarter : option Z;
  d_serial_date : option float;
  d_month_name : option str
}.

Definition date_error (fmt : option string) (m : message)
    (original : option str) : date :=
  {| d_parsed_value := None; d_format := fmt; d_error := Some m;
     d_original_value := original; d_year := None; d_month := None;
     d_day := None; d_quarter := None; d_serial_date := None;
     d_month_name := None |}.

Definition date_ok (dt : datetime) (fmt : string) (y m d : Z)
    (quarter : option Z) (serial : option float) (name : option str) : date :=
  {| d_parsed_value := Some dt; d_format := Some fmt; d_error := None;
     d_original_value := None; d_year := Some y; d_month := Some m;
     d_day := Some d; d_quarter := quarter; d_serial_date := serial;
     d_month_name := name |}.

(** ** [__init__]: the tables *)

Definition currency_symbols : list (char * string) :=
  [(DOLLAR, "USD"); (EURO, "EUR"); (RUPEE, "INR"); (POUND, "GBP"); (YEN, "JPY")].

Definition abbreviation_multipliers : list (char * Z) :=
  [(chr "K", 1000%Z); (chr "M", 1000000%Z); (chr "B", 1000000000%Z);
   (chr "T", 1000000000000%Z)].

(** [(\d{1,2})/(\d{1,2})/(\d{4})] *)
Definition re_slash_date : regex :=
  Group 1 (between 1 2 digit) & lit "/" & Group 2 (between 1 2 digit) & lit "/"
  & Group 3 (times 4 digit).
(** [(\d{4})-(\d{1,2})-(\d{1,2})] *)
Definition re_iso_date : regex :=
  Group 1 (times 4 digit) & lit "-" & Group 2 (between 1 2 digit) & lit "-"
  & Group 3 (between 1 2 digit).
(** [(\d{1,2})-(\w{3})-(\d{4})] *)
Definition re_dd_mon_yyyy : regex :=
  Group 1 (between 1 2 digit) & lit "-" & Group 2 (times 3 word) & lit "-"
  & Group 3 (times 4 digit).
(** [Q([1-4])\s+(\d{4})] *)
Definition re_quarter : regex :=
  lit "Q" & Group 1 (Chr (CRange (chr "1") (chr "4"))) & plus space
  & Group 2 (times 4 digit).
(** [(\w+)\s+(\d{4})] *)
Definition re_month_year : regex :=
  Group 1 (plus word) & plus space & Group 2 (times 4 digit).

Definition date_patterns : list (string * regex) :=
  [("MM/DD/YYYY", re_slash_date);
   ("DD/MM/YYYY", re_slash_date);
   ("YYYY-MM-DD", re_iso_date);
   ("DD-MON-YYYY", re_dd_mon_yyyy);
   ("Quarter", re_quarter);
   ("Month-Year", re_month_year)].

(** ** [normalize_currency] *)

(** [[\d,]+\.\d{3}] *)
Definition re_european : regex :=
  plus (Chr (class [CDigit; CChar (chr ",")])) & lit "." & times 3 digit.
(** [(\d+)\.(\d{3})] *)
Definition re_grouping_dot : regex :=
  Group 1 (plus digit) & lit "." & Group 2 (times 3 digit).
(** [(\d),(\d{3})] *)
Definition re_thousands : regex :=
  Group 1 digit & lit "," & Group 2 (times 3 digit).
(** the template [\1\2] *)
Definition tpl_1_2 : list titem := [TGroup 1; TGroup 2].

Definition normalize_currency (value : str) : str :=
  let normalized := value in
  let normalized :=
    match search false re_european normalized with
    | Some _ =>
        let normalized := sub false re_grouping_dot tpl_1_2 normalized in
        replace_char (chr ",") (pystr ".") normalized
    | None => normalized
    end in
  let normalized := sub false re_thousands tpl_1_2 normalized in
  normalized.

(** ** [handle_special_formats] *)

(** The loop over [abbreviation_multipliers.items()]: [Some] dictionary
    when an iteration returns, [None] when the loop runs out. *)
Fixpoint abbreviated_loop (items : list (char * Z)) (value : str)
    : res (option amount) :=
  match items with
  | [] => Ret None
  | (abbrev, mult) :: items' =>
      if endswith (upper value) [abbrev]
      then
        try_except
          (let numeric_part :=
             if Nat.ltb 1 (length value) then drop_last value else value in
           base <- float_of_str numeric_part ;;
           let final_value := fmul base (float_of_int mult) in
           Ret (Some (amount_abbreviated final_value abbrev mult base)))
          is_ValueError
          (fun _ => abbreviated_loop items' value)
      else abbreviated_loop items' value
  end.

Definition wrapped_in_parentheses (value : str) : bool :=
  (startswith value (pystr "(") && endswith value (pystr ")"))%bool.

(** One guarded attempt of [handle_special_formats]: [Some] dictionary when
    the attempt returns, [None] when control falls to the next statement. *)
Definition parentheses_attempt (value : str) : res (option amount) :=
  if wrapped_in_parentheses value
  then
    try_except
      (let inner_value := strip_ends value in
       v <- float_of_str (normalize_currency inner_value) ;;
       Ret (Some (amount_plain (fabs v) None true "parentheses_negative")))
      is_ValueError (fun _ => Ret None)
  else Ret None.

Definition trailing_attempt (value : str) : res (option amount) :=
  if endswith value (pystr "-")
  then
    try_except
      (let base_value := drop_last value in
       v <- float_of_str (normalize_currency base_value) ;;
       Ret (Some (amount_plain (fabs v) None true "trailing_negative")))
      is_ValueError (fun _ => Ret None)
  else Ret None.

(** [c] returned a dictionary, or control goes on with [k]. *)
Definition or_else {A : Type} (c : res (option A)) (k : res A) : res A :=
  bind c (fun r => match r with Some a => Ret a | None => k end).

Definition handle_special_formats (value : str) : res amount :=
  or_else (abbreviated_loop abbreviation_multipliers value)
  (or_else (parentheses_attempt value)
  (or_else (trailing_attempt value)
  (Ret (amount_error (Unrecognized_special_format value) None)))).

Definition _is_special_format (value : str) : bool :=
  if existsb (fun kv => endswith (upper value) [fst kv]) abbreviation_multipliers
  then true
  else if wrapped_in_parentheses value then true
  else if endswith value (pystr "-") then true
  else false.

Definition _handle_special_formats (value : str) : res amount :=
  handle_special_formats value.

(** ** [_parse_normalized_amount] *)

(** [[\$€₹£¥]] *)
Definition re_currency_symbol : regex :=
  Chr (class [CChar DOLLAR; CChar EURO; CChar RUPEE; CChar POUND; CChar YEN]).

(** The loop that stops at the first symbol found in the text. *)
Fixpoint find_currency (table : list (char * string)) (text : str)
    : option string :=
  match table with
  | [] => None
  | (symbol, code) :: table' =>
      if contains_char symbol text then Some code else find_currency table' text
  end.

Definition _parse_normalized_amount (normalized_value : str) : res amount :=
  try_except
    (let currency := find_currency currency_symbols normalized_value in
     let clean_value := sub false re_currency_symbol [] normalized_value in
     v <- float_of_str clean_value ;;
     Ret (amount_plain (fabs v) currency (fltb v (float_of_int 0)) "standard"))
    is_ValueError
    (fun e => Ret (amount_error (Invalid_numeric_format e) None)).

(** ** [parse_amount]

    The argument is [None] for a null cell ([pd.isna]) and the cell's text
    otherwise. *)
Definition parse_amount (value : option str) : res amount :=
  match value with
  | None => Ret (amount_error Empty_value None)
  | Some v =>
      if str_eqb v [] then Ret (amount_error Empty_value None)
      else
        let str_value := strip v in
        try_except
          (if _is_special_format str_value
           then _handle_special_formats str_value
           else
             let normalized_value := normalize_currency str_value in
             _parse_normalized_amount normalized_value)
          is_Exception
          (fun e => Ret (amount_error (Parse_error e) (Some str_value)))
  end.

(** ** [_is_excel_serial_date], [_parse_excel_serial_date] *)

Definition _is_excel_serial_date (value : str) : res bool :=
  try_except
    (float_val <- float_of_str value ;;
     Ret (fleb (float_of_int 1) float_val
          && fleb float_val (float_of_int 100000))%bool)
    is_ValueError
    (fun _ => Ret false).

Definition _parse_excel_serial_date (value : str) : res date :=
  try_except
    (serial_date <- float_of_str value ;;
     let serial_date :=
       if fltb (float_of_int 59) serial_date
       then fsub serial_date (float_of_int 1)
       else serial_date in
     base_date <- new_datetime 1900 1 1 ;;
     parsed_date <- add_days base_date (fsub serial_date (float_of_int 1)) ;;
     Ret (date_ok parsed_date "excel_serial" (year parsed_date)
            (month parsed_date) (day parsed_date) None (Some serial_date)
            None))
    is_Exception
    (fun e => Ret (date_error (Some "excel_serial") (Invalid_Excel_serial_date e) None)).

(** ** [_month_abbrev_to_num], [_month_name_to_num] *)

Fixpoint dict_get (table : list (string * Z)) (key : str) (default : Z) : Z :=
  match table with
  | [] => default
  | (k, v) :: table' => if str_eqb (pystr k) key then v else dict_get table' key default
  end.

Definition _month_abbrev_to_num (month_abbrev : str) : Z :=
  let month_map :=
    [("jan", 1); ("feb", 2); ("mar", 3); ("apr", 4); ("may", 5); ("jun", 6);
     ("jul", 7); ("aug", 8); ("sep", 9); ("oct", 10); ("nov", 11); ("dec", 12)]%Z in
  dict_get month_map (lower month_abbrev) 1.

Definition _month_name_to_num (month_name : str) : Z :=
  let month_map :=
    [("january", 1); ("february", 2); ("march", 3); ("april", 4); ("may", 5);
     ("june", 6); ("july", 7); ("august", 8); ("september", 9);
     ("october", 10); ("november", 11); ("december", 12)]%Z in
  dict_get month_map (lower month_name) 1.

(** ** [_parse_date_pattern] *)

Definition date_of_fields (fmt : string) (y m d : Z) : res date :=
  parsed_date <- new_datetime y m d ;;
  Ret (date_ok parsed_date fmt (year parsed_date) (month parsed_date)
         (day parsed_date) None None None).

Definition _parse_date_pattern (pattern_name : string) (m : match_obj)
    (original_value : str) : res date :=
  try_except
    (if String.eqb pattern_name "MM/DD/YYYY" then
       y <- int_of_str (group m 3) ;;
       mo <- int_of_str (group m 1) ;;
       d <- int_of_str (group m 2) ;;
       date_of_fields pattern_name y mo d
     else if String.eqb pattern_name "DD/MM/YYYY" then
       y <- int_of_str (group m 3) ;;
       mo <- int_of_str (group m 2) ;;
       d <- int_of_str (group m 1) ;;
       date_of_fields pattern_name y mo d
     else if String.eqb pattern_name "YYYY-MM-DD" then
       y <- int_of_str (group m 1) ;;
       mo <- int_of_str (group m 2) ;;
       d <- int_of_str (group m 3) ;;
       date_of_fields pattern_name y mo d
     else if String.eqb pattern_name "DD-MON-YYYY" then
       let month_num := _month_abbrev_to_num (group m 2) in
       y <- int_of_str (group m 3) ;;
       d <- int_of_str (group m 1) ;;
       date_of_fields pattern_name y month_num d
     else
       Ret (date_error (Some pattern_name) (Unsupported_pattern pattern_name) None))
    is_Exception
    (fun e => Ret (date_error (Some pattern_name) (Parse_error e) (Some original_value))).

(** ** [_parse_quarter_format] *)

(** [Q([1-4])-(\d{2})] *)
Definition re_quarter_short : regex :=
  lit "Q" & Group 1 (Chr (CRange (chr "1") (chr "4"))) & lit "-"
  & Group 2 (times 2 digit).

Definition _parse_quarter_format (value : str) : res date :=
  try_except
    (match rmatch true re_quarter value with
     | Some quarter_match =>
         quarter <- int_of_str (group quarter_match 1) ;;
         y <- int_of_str (group quarter_match 2) ;;
         let mo := ((quarter - 1) * 3 + 1)%Z in
         parsed_date <- new_datetime y mo 1 ;;
         Ret (date_ok parsed_date "quarter" y mo 1 (Some quarter) None None)
     | None =>
         match rmatch true re_quarter_short value with
         | Some quarter_match =>
             quarter <- int_of_str (group quarter_match 1) ;;
             year_short <- int_of_str (group quarter_match 2) ;;
             let y := (2000 + year_short)%Z in
             let mo := ((quarter - 1) * 3 + 1)%Z in
             parsed_date <- new_datetime y mo 1 ;;
             Ret (date_ok parsed_date "quarter_short" y mo 1 (Some quarter)
                    None None)
         | None =>
             Ret (date_error (Some "quarter") (Invalid_quarter_format value) None)
         end
     end)
    is_Exception
    (fun e => Ret (date_error (Some "quarter") (Parse_error e) (Some value))).

(** ** [_parse_month_year_format] *)

Definition _parse_month_year_format (value : str) : res date :=
  try_except
    (match split_ws value with
     | month_str :: year_str :: _ =>
         let month_num := _month_name_to_num month_str in
         y <- int_of_str year_str ;;
         parsed_date <- new_datetime y month_num 1 ;;
         Ret (date_ok parsed_date "month_year" y month_num 1 None None
                (Some month_str))
     | _ =>
         Ret (date_error (Some "month_year") (Invalid_month_year_format value) None)
     end)
    is_Exception
    (fun e => Ret (date_error (Some "month_year") (Parse_error e) (Some value))).

(** ** [parse_date] *)

(** The loop over [date_patterns.items()]: the first pattern that matches. *)
Fixpoint first_pattern (patterns : list (string * regex)) (text : str)
    : option (string * match_obj) :=
  match patterns with
  | [] => None
  | (pattern_name, pattern) :: patterns' =>
      match rmatch true pattern text with
      | Some m => Some (pattern_name, m)
      | None => first_pattern patterns' text
      end
  end.

(** [\w+\s+\d{4}] *)
Definition re_word_year : regex := plus word & plus space & times 4 digit.

Section ParseDate.

(** [dateutil.parser.parse]: [None] when it raises. *)
Variable dateutil_parse : str -> option datetime.

Definition parse_date (value : option str) : res date :=
  match value with
  | None => Ret (date_error None Empty_value None)
  | Some v =>
      if str_eqb v [] then Ret (date_error None Empty_value None)
      else
        let str_value := strip v in
        try_except
          (excel <- _is_excel_serial_date str_value ;;
           if excel then _parse_excel_serial_date str_value
           else
             match dateutil_parse str_value with
             | Some parsed_date =>
                 Ret (date_ok parsed_date "dateutil_parsed" (year parsed_date)
                        (month parsed_date) (day parsed_date) None None None)
             | None =>
                 match first_pattern date_patterns str_value with
                 | Some (pattern_name, m) =>
                     _parse_date_pattern pattern_name m str_value
                 | None =>
                     if contains_char (chr "Q") (upper str_value)
                     then _parse_quarter_format str_value
                     else
                       match rmatch true re_word_year str_value with
                       | Some _ => _parse_month_year_format str_value
                       | None =>
                           Ret (date_error None
                                  (Unrecognized_date_format str_value)
                                  (Some str_value))
                       end
                 end
             end)
          is_Exception
          (fun e => Ret (date_error None (Parse_error e) (Some str_value)))
  end.

End ParseDate.

End FormatParser.

(* ===================================================================== *)
(** * [src/core/type_detector.py] *)
(* ===================================================================== *)

Module DataTypeDetector.
Import Py Re.
Local Open Scope py_scope.
Local Open Scope re_scope.
Local Open Scope string_scope.
Local Open Scope list_scope.

(** ** [__init__]: the patterns *)

Definition one_to_four : regex := Chr (CRange (chr "1") (chr "4")).

Definition date_patterns : list regex :=
  [ (* \d{1,2}/\d{1,2}/\d{2,4} *)
    between 1 2 digit & lit "/" & between 1 2 digit & lit "/" & between 2 4 digit;
    (* \d{4}-\d{1,2}-\d{1,2} *)
    times 4 digit & lit "-" & between 1 2 digit & lit "-" & between 1 2 digit;
    (* \d{1,2}-\w{3}-\d{2,4} *)
    between 1 2 digit & lit "-" & times 3 word & lit "-" & between 2 4 digit;
    (* Q[1-4]\s+\d{4} *)
    lit "Q" & one_to_four & plus space & times 4 digit;
    (* Q[1-4]-\d{2} *)
    lit "Q" & one_to_four & lit "-" & times 2 digit;
    (* \w{3}\s+\d{4} *)
    times 3 word & plus space & times 4 digit;
    (* \w+\s+\d{4} *)
    plus word & plus space & times 4 digit ].

(** [[\$€₹£¥,()]] *)
Definition re_symbols_and_separators : regex :=
  Chr (class [CChar DOLLAR; CChar EURO; CChar RUPEE; CChar POUND; CChar YEN;
              CChar (chr ","); CChar (chr "("); CChar (chr ")")]).

(** [^[\d.]+[KMB]$] *)
Definition re_abbreviated : regex :=
  Bol & plus (Chr (class [CDigit; CChar (chr ".")]))
  & Chr (class [CChar (chr "K"); CChar (chr "M"); CChar (chr "B")]) & Eol.

(** The inner loop over [date_patterns]: does one of them match? *)
Definition matches_date_pattern (value_str : str) : bool :=
  existsb (fun pattern =>
             match rmatch true pattern value_str with
             | Some _ => true
             | None => false
             end) date_patterns.

(** ** [_detect_date_format] *)

(** The serial-date test of one value: [true] when the loop body reaches
    [date_count += 1; continue]. *)
Definition is_serial_date (value_str : str) : res bool :=
  try_except
    (float_val <- float_of_str value_str ;;
     as_int <- int_of_float float_val ;;
     if float_eq_int float_val as_int
     then Ret (fleb (float_of_int 1000) float_val
               && fleb float_val (float_of_int 73050))%bool
     else Ret false)
    is_ValueError
    (fun _ => Ret false).

(** The [for] loop, threading [date_count]. *)
Fixpoint date_loop (values : list str) (date_count : Z) : res Z :=
  match values with
  | [] => Ret date_count
  | value :: values' =>
      let value_str := strip value in
      serial <- is_serial_date value_str ;;
      if serial then date_loop values' (date_count + 1)
      else if matches_date_pattern value_str
           then date_loop values' (date_count + 1)
           else date_loop values' date_count
  end.

Definition score (count total : Z) : float :=
  if Z.ltb 0 total then float_of_ratio count total else float_of_int 0.

Definition _detect_date_format (str_data : list str) : res float :=
  let total_count := Z.of_nat (length str_data) in
  date_count <- date_loop str_data 0 ;;
  Ret (score date_count total_count).

(** ** [_detect_number_format] *)

(** The [try] block of one value: [true] when it reaches
    [number_count += 1; continue]. *)
Definition parses_as_number (value_str : str) : res bool :=
  try_except
    (let clean_value := sub false re_symbols_and_separators [] value_str in
     let clean_value := replace_char (chr "-") [] clean_value in
     parsed <- float_of_str clean_value ;;
     Ret true)
    is_ValueError
    (fun _ => Ret false).

Fixpoint number_loop (values : list str) (number_count : Z) : res Z :=
  match values with
  | [] => Ret number_count
  | value :: values' =>
      let value_str := strip value in
      let is_date := matches_date_pattern value_str in
      if is_date then number_loop values' number_count
      else
        parsed <- parses_as_number value_str ;;
        if parsed then number_loop values' (number_count + 1)
        else
          match rmatch true re_abbreviated value_str with
          | Some _ => number_loop values' (number_count + 1)
          | None => number_loop values' number_count
          end
  end.

Definition _detect_number_format (str_data : list str) : res float :=
  let total_count := Z.of_nat (length str_data) in
  number_count <- number_loop str_data 0 ;;
  Ret (score number_count total_count).

(** ** [_get_format_info]

    Which of the three describing routines runs.  They describe the sample
    and leave the label and the scores alone; none of them raises (the one
    [float] call is under [except ValueError]), and what they put in their
    dictionaries is not modelled. *)
Inductive format_info : Type :=
| detect_date_format (sample_values : list str)
| detect_number_format (sample_values : list str)
| classify_string_type (sample_values : list str).

Definition _get_format_info (str_data : list str) (detected_type : string)
    : format_info :=
  if String.eqb detected_type "date" then detect_date_format str_data
  else if String.eqb detected_type "number" then detect_number_format str_data
  else classify_string_type str_data.

(** ** [analyze_column] *)

(** The [scores] dictionary, in insertion order. *)
Definition scores_dict : Type := list (string * float).

Fixpoint get (d : scores_dict) (key : string) : float :=
  match d with
  | [] => S754_nan
  | (k, v) :: d' => if String.eqb k key then v else get d' key
  end.

(** [max(d, key=d.get)]: the first key whose value no later one exceeds. *)
Fixpoint max_key (d : scores_dict) (best : string * float) : string :=
  match d with
  | [] => fst best
  | (k, v) :: d' => if fltb (snd best) v then max_key d' (k, v) else max_key d' best
  end.

Record classification : Type := mk_classification {
  type : string;
  confidence : float;
  scores : scores_dict;
  format_info_of : option format_info
}.

Definition f0 : float := float_of_int 0.
Definition f1 : float := float_of_int 1.
Definition f05 : float := float_of_decimal false 5 (-1).

(** [data.dropna()], the cells being [None] or text *)
Fixpoint dropna (data : list (option str)) : list str :=
  match data with
  | [] => []
  | Some v :: data' => v :: dropna data'
  | None :: data' => dropna data'
  end.

Definition analyze_column (data : list (option str)) : res classification :=
  let clean_data := dropna data in
  if Nat.eqb (length clean_data) 0
  then Ret {| type := "unknown"; confidence := f0;
              scores := [("string", f0); ("number", f0); ("date", f0)];
              format_info_of := None |}
  else
    let str_data := clean_data in
    date_score <- _detect_date_format str_data ;;
    number_score <- _detect_number_format str_data ;;
    let string_score :=
      let rest := fsub (fsub f1 date_score) number_score in
      if fltb f0 rest then rest else f0 in
    let '(date_score, number_score, string_score) :=
      if fltb f05 date_score then (f1, f0, f0)
      else if fltb f05 number_score then (f0, f1, f0)
      else (f0, f0, f1) in
    let scores :=
      [("string", string_score); ("number", number_score); ("date", date_score)] in
    let best_type :=
      match scores with
      | [] => ""
      | kv :: rest => max_key rest kv
      end in
    let confidence := get scores best_type in
    Ret {| type := best_type; confidence := confidence; scores := scores;
           format_info_of := Some (_get_format_info str_data best_type) |}.

End DataTypeDetector.

(* ===================================================================== *)
(** * [src/core/type_detector.py]: the describing routines *)
(* ===================================================================== *)

Module FormatInfo.
Import Py Re.
Local Open Scope py_scope.
Local Open Scope re_scope.
Local Open Scope string_scope.
Local Open Scope list_scope.

Definition str_eq_dec : forall a b : str, {a = b} + {a <> b} :=
  list_eq_dec N.eq_dec.

(** [list(set(xs))]: the distinct members of [xs].  Python leaves their
    order unspecified; here they come in the order of first occurrence. *)
Definition as_set (xs : list str) : list str := nodup str_eq_dec xs.

(** ** [detect_date_format] *)

Record date_info : Type := mk_date_info {
  detected_patterns : list nat;   (* the patterns, by their rank in [date_patterns] *)
  excel_serial_dates : bool;
  excel_date_count : Z;
  sample_excel_dates : list float
}.

(** The [try] block of one value: the list [excel_dates] grows by what is
    returned. *)
Definition excel_date_of (value : str) : res (list float) :=
  try_except
    (float_val <- float_of_str value ;;
     if (fleb (float_of_int 1) float_val
         && fleb float_val (float_of_int 100000))%bool
     then Ret [float_val]
     else Ret [])
    is_ValueError
    (fun _ => Ret []).

(** The inner loop: the rank of the first pattern that matches. *)
Fixpoint first_match (patterns : list regex) (rank : nat) (value : str)
    : option nat :=
  match patterns with
  | [] => None
  | pattern :: patterns' =>
      match rmatch true pattern value with
      | Some _ => Some rank
      | None => first_match patterns' (S rank) value
      end
  end.

Fixpoint date_format_loop (values : list str) (date_formats : list nat)
    (excel_dates : list float) : res (list nat * list float) :=
  match values with
  | [] => Ret (date_formats, excel_dates)
  | value :: values' =>
      found <- excel_date_of value ;;
      let excel_dates := excel_dates ++ found in
      let date_formats :=
        match first_match DataTypeDetector.date_patterns 0 value with
        | Some rank => date_formats ++ [rank]
        | None => date_formats
        end in
      date_format_loop values' date_formats excel_dates
  end.

Definition detect_date_format (sample_values : list str) : res date_info :=
  lists <- date_format_loop sample_values [] [] ;;
  let '(date_formats, excel_dates) := lists in
  Ret {| detected_patterns := nodup Nat.eq_dec date_formats;
         excel_serial_dates := Nat.ltb 0 (length excel_dates);
         excel_date_count := Z.of_nat (length excel_dates);
         sample_excel_dates := firstn 5 excel_dates |}.

(** ** [detect_number_format] *)

(** [[.,]] *)
Definition re_point_or_comma : regex :=
  Chr (class [CChar (chr "."); CChar (chr ",")]).
(** [[\d,]+] *)
Definition re_digits_and_commas : regex :=
  plus (Chr (class [CDigit; CChar (chr ",")])).
(** [.]: any character but the newline *)
Definition any_char : cset := CUnion (CRange 0%N 9%N) (CRange 11%N 1114111%N).
(** [\(.*\)] *)
Definition re_parenthesised : regex :=
  lit "(" & star (Chr any_char) & lit ")".
(** [[KMB]$] *)
Definition re_abbreviation_at_end : regex :=
  Chr (class [CChar (chr "K"); CChar (chr "M"); CChar (chr "B")]) & Eol.

Record number_info : Type := mk_number_info {
  n_currency_symbols : list str;
  n_decimal_separators : list str;
  n_thousand_separators : list str;
  n_negative_formats : list str;
  n_abbreviated_formats : bool
}.

(** [re.search(r, value).group()] when the search finds a match. *)
Definition found (r : regex) (value : str) : list str :=
  match search false r value with
  | Some m => [m_text m]
  | None => []
  end.

Definition detect_number_format (sample_values : list str) : number_info :=
  let currency_symbols :=
    flat_map (found FormatParser.re_currency_symbol) sample_values in
  let decimal_separators := flat_map (found re_point_or_comma) sample_values in
  let thousand_separators :=
    flat_map (fun value =>
                match search false re_digits_and_commas value with
                | Some m =>
                    if contains_char (chr ",") (m_text m) then [pystr ","] else []
                | None => []
                end) sample_values in
  let negative_formats :=
    filter (fun value =>
              match search false re_parenthesised value with
              | Some _ => true
              | None => endswith value (pystr "-")
              end) sample_values in
  {| n_currency_symbols := as_set currency_symbols;
     n_decimal_separators := as_set decimal_separators;
     n_thousand_separators := as_set thousand_separators;
     n_negative_formats := as_set negative_formats;
     n_abbreviated_formats :=
       existsb (fun v => match search false re_abbreviation_at_end v with
                         | Some _ => true
                         | None => false
                         end) sample_values |}.

(** ** [classify_string_type] *)

(** [word in value] *)
Fixpoint contains (word value : str) : bool :=
  (startswith value word
   || match value with
      | [] => false
      | _ :: value' => contains word value'
      end)%bool.

(** [any(word in value_str for word in words)] *)
Definition any_word (words : list string) (value_str : str) : bool :=
  existsb (fun word => contains (pystr word) value_str) words.

Definition account_patterns (sample_values : list str) : list str :=
  filter (fun value => any_word ["account"; "acc"; "ledger"; "gl"] (lower value))
    sample_values.
Definition transaction_patterns (sample_values : list str) : list str :=
  filter (fun value =>
            any_word ["transaction"; "ref"; "invoice"; "payment"] (lower value))
    sample_values.
Definition company_patterns (sample_values : list str) : list str :=
  filter (fun value =>
            any_word ["inc"; "corp"; "ltd"; "company"; "co"] (lower value))
    sample_values.

Record string_info : Type := mk_string_info {
  account_related : Z;
  transaction_related : Z;
  company_related : Z;
  sample_accounts : list str;
  sample_transactions : list str;
  sample_companies : list str
}.

Definition classify_string_type (sample_values : list str) : string_info :=
  {| account_related := Z.of_nat (length (account_patterns sample_values));
     transaction_related := Z.of_nat (length (transaction_patterns sample_values));
     company_related := Z.of_nat (length (company_patterns sample_values));
     sample_accounts := firstn 3 (account_patterns sample_values);
     sample_transactions := firstn 3 (transaction_patterns sample_values);
     sample_companies := firstn 3 (company_patterns sample_values) |}.

(** ** The dictionary [_get_format_info] returns *)

Inductive info : Type :=
| DateInfo (i : date_info)
| NumberInfo (i : number_info)
| StringInfo (i : string_info).

Definition format_info_dict (routine : DataTypeDetector.format_info) : res info :=
  match routine with
  | DataTypeDetector.detect_date_format sample_values =>
      i <- detect_date_format sample_values ;; Ret (DateInfo i)
  | DataTypeDetector.detect_number_format sample_values =>
      Ret (NumberInfo (detect_number_format sample_values))
  | DataTypeDetector.classify_string_type sample_values =>
      Ret (StringInfo (classify_string_type sample_values))
  end.

End FormatInfo.

(* ===================================================================== *)
(** * Vocabulary of the statements *)
(* ===================================================================== *)

Module Vocabulary.
Import Py.

(** A null cell, or a text that is empty once trimmed. *)
Definition is_blank (value : option str) : bool :=
  match value with
  | None => true
  | Some v => match strip v with [] => true | _ :: _ => false end
  end.

(** A null cell or the empty text. *)
Definition is_null_or_empty (value : option str) : bool :=
  match value with
  | None => true
  | Some v => str_eqb v []
  end.

(** One of K, M, B, T in either case. *)
Definition is_abbreviation_letter (c : char) : bool :=
  existsb (char_eqb (upper_char c)) (map fst FormatParser.abbreviation_multipliers).

(** The text [ip.fp] of a plain decimal. *)
Definition decimal_text (ip fp : str) : str := ip ++ chr "." :: fp.

(** A run of decimal digits. *)
Definition all_digits (s : str) : bool := forallb isdigit s.

(** A decimal digit or the point. *)
Definition is_plain (c : char) : bool := (isdigit c || is_dot c)%bool.

(** The float a plain decimal [ip.fp] denotes. *)
Definition decimal_value (ip fp : str) : float :=
  float_of_decimal false (digits_val (ip ++ fp)) (- Z.of_nat (length fp)).

(** The sign bit of a float is clear: the float is not negative. *)
Definition sign_clear (f : float) : Prop :=
  match f with
  | S754_zero s | S754_infinity s | S754_finite s _ _ => s = false
  | S754_nan => True
  end.

(** [dateutil.parser.parse] rejecting every text. *)
Definition dateutil_rejects : str -> option datetime := fun _ => None.

(** A value that [float] reads as an infinity, once trimmed. *)
Definition reads_as_infinity (value : str) : bool :=
  match float_of_str (strip value) with
  | Ret (S754_infinity _) => true
  | _ => false
  end.

(** The values of a sample that match none of the date grammars. *)
Definition not_date_like (values : list str) : list str :=
  filter (fun v => negb (DataTypeDetector.matches_date_pattern (strip v))) values.

(** A dictionary of [parse_amount] is a success record (a value, no error)
    or an error record (an error, no value). *)
Definition amount_outcome (a : FormatParser.amount) : Prop :=
  (FormatParser.error a = None /\ FormatParser.parsed_value a <> None)
  \/ (FormatParser.error a <> None /\ FormatParser.parsed_value a = None).

(** The same for a dictionary of [parse_date]. *)
Definition date_outcome (d : FormatParser.date) : Prop :=
  (FormatParser.d_error d = None /\ FormatParser.d_parsed_value d <> None)
  \/ (FormatParser.d_error d <> None /\ FormatParser.d_parsed_value d = None).

(** A text of the Basic Latin block (code points below 128), on which the
    character classes of this model are those of CPython. *)
Definition basic_latin (s : str) : bool := forallb (fun c => N.ltb c 128) s.

End Vocabulary.

(* ===================================================================== *)
(** * The language of a pattern *)
(* ===================================================================== *)

Module ReLang.
Import Py Re.

(** Can the pattern match the empty text? *)
Fixpoint nullable (r : regex) : bool :=
  match r with
  | Empty | Bol | Eol => true
  | Chr _ => false
  | Seq a b => (nullable a && nullable b)%bool
  | Group _ r' => nullable r'
  | Rep r' lo _ => (Nat.eqb lo 0 || nullable r')%bool
  end.

(** The patterns without anchors in which every repeated body consumes at
    least one character: all the date patterns of the source are such. *)
Fixpoint simple (r : regex) : bool :=
  match r with
  | Empty | Chr _ => true
  | Bol | Eol => false
  | Seq a b => (simple a && simple b)%bool
  | Group _ r' => simple r'
  | Rep r' _ _ => (simple r' && negb (nullable r'))%bool
  end.

Definition within (hi : option nat) (n : nat) : Prop :=
  match hi with Some h => n <= h | None => True end.

(** The texts a pattern matches, bounds of the repetitions included (an
    anchor matches the empty text). *)
Fixpoint lang (ic : bool) (r : regex) (p : str) : Prop :=
  match r with
  | Empty | Bol | Eol => p = []
  | Chr cs => exists c, p = [c] /\ cset_match ic cs c = true
  | Seq a b => exists p1 p2, p = p1 ++ p2 /\ lang ic a p1 /\ lang ic b p2
  | Group _ r' => lang ic r' p
  | Rep r' lo hi =>
      exists ps, p = concat ps /\ Forall (lang ic r') ps
                 /\ lo <= length ps /\ within hi (length ps)
  end.

(** A matcher [body] finds every member of [P] at the head of a text, as
    long as its continuation accepts the rest. *)
Definition complete_for {A : Type}
    (body : str -> captures -> (str -> captures -> option A) -> option A)
    (P : str -> Prop) : Prop :=
  forall s p s' caps k,
    s = p ++ s' -> P p -> (forall caps', k s' caps' <> None) ->
    body s caps k <> None.

(** The pattern without its capturing parentheses. *)
Fixpoint erase_groups (r : regex) : regex :=
  match r with
  | Seq a b => Seq (erase_groups a) (erase_groups b)
  | Group _ r' => erase_groups r'
  | Rep r' lo hi => Rep (erase_groups r') lo hi
  | _ => r
  end.

(** [re.match(r, s)] finds a match. *)
Definition matches (ic : bool) (r : regex) (s : str) : bool :=
  match rmatch ic r s with Some _ => true | None => false end.

End ReLang.

(* ===================================================================== *)
(** * Further vocabulary *)
(* ===================================================================== *)

Module Notions.
Import Py Re.

(** A pattern without capturing parentheses. *)
Fixpoint group_free (r : regex) : bool :=
  match r with
  | Seq a b => (group_free a && group_free b)%bool
  | Group _ _ => false
  | Rep r' _ _ => group_free r'
  | _ => true
  end.

(** A matcher that hands the captures it received to its continuation. *)
Definition keeps_captures {A : Type}
    (body : str -> captures -> (str -> captures -> option A) -> option A)
    (P : str -> Prop) : Prop :=
  forall s caps k a,
    body s caps k = Some a ->
    exists p s', s = p ++ s' /\ P p /\ k s' caps = Some a.

(** The comma and the point. *)
Definition is_separator (c : char) : bool :=
  (char_eqb c (chr ",") || char_eqb c (chr "."))%bool.

(** A text without its commas and points. *)
Definition without_separators (s : str) : str :=
  filter (fun c => negb (is_separator c)) s.

(** The characters a text can hold when [float] reads it: white space,
    digits, the underscore, signs, the point, and the letters of an exponent,
    of [inf], [infinity] and [nan]. *)
Definition numeric_char (c : char) : bool :=
  (isspace_numeric c || isdigit c
   || existsb (char_eqb c) (pystr "_+-.")
   || existsb (char_eqb (lower_char c)) (pystr "einfatyn"))%bool.

(** One of the five currency symbols of the source. *)
Definition is_currency_symbol (c : char) : bool :=
  existsb (fun kv => char_eqb (fst kv) c) FormatParser.currency_symbols.

End Notions.

Module Counting.
Import Py Re FormatParser DataTypeDetector Vocabulary ReLang.
Local Open Scope string_scope.
Local Open Scope list_scope.

(** A class of separators only: the slash, the hyphen, white space. *)
Fixpoint separator_set (cs : cset) : bool :=
  match cs with
  | CChar c => (char_eqb c (chr "/") || char_eqb c (chr "-"))%bool
  | CSpace => true
  | CUnion a b => (separator_set a && separator_set b)%bool
  | _ => false
  end.

(** Every match of the pattern holds a separator. *)
Fixpoint needs_separator (r : regex) : bool :=
  match r with
  | Chr cs => separator_set cs
  | Seq a b => (needs_separator a || needs_separator b)%bool
  | Group _ r' => needs_separator r'
  | Rep r' lo _ => (negb (Nat.eqb lo 0) && needs_separator r')%bool
  | _ => false
  end.

Definition date_separator (c : char) : bool :=
  (char_eqb c (chr "/") || char_eqb c (chr "-") || isspace c)%bool.

(** The value is one [_detect_date_format] counts. *)
Definition counts_as_date (value : str) : bool :=
  match is_serial_date (strip value) with
  | Ret true => true
  | Ret false => matches_date_pattern (strip value)
  | Raise _ => false
  end.

(** The value is one [_detect_number_format] counts. *)
Definition counts_as_number (value : str) : bool :=
  (negb (matches_date_pattern (strip value))
   && match parses_as_number (strip value) with
      | Ret true => true
      | _ => matches true re_abbreviated (strip value)
      end)%bool.

Definition count_if (f : str -> bool) (values : list str) : Z :=
  Z.of_nat (length (filter f values)).

(** The dictionary [analyze_column] returns when it settles on [label]. *)
Definition verdict (str_data : list str) (label : string) : classification :=
  let hot k := if String.eqb k label then f1 else f0 in
  {| type := label; confidence := f1;
     scores := [("string", hot "string"); ("number", hot "number");
                ("date", hot "date")];
     format_info_of := Some (_get_format_info str_data label) |}.

(** The label the two counts lead to. *)
Definition label_of (dates numbers total : Z) : string :=
  if fltb f05 (score dates total) then "date"
  else if fltb f05 (score numbers total) then "number"
  else "string".

End Counting.

Module Amounts.
Import Py Re FormatParser Vocabulary Notions.
Local Open Scope string_scope.
Local Open Scope list_scope.

(** The optional currency symbol at the head of an amount. *)
Definition symbol_text (symbol : option char) : str :=
  match symbol with Some c => [c] | None => [] end.

(** The code [_parse_normalized_amount] finds for it. *)
Definition symbol_code (symbol : option char) : option string :=
  match symbol with
  | Some c => find_currency currency_symbols [c]
  | None => None
  end.

Definition is_symbol (symbol : option char) : Prop :=
  match symbol with Some c => is_currency_symbol c = true | None => True end.

(** The optional fraction at the end of an amount: the point and its
    digits. *)
Definition fraction_text (fp : option str) : str :=
  match fp with Some d => chr "." :: d | None => [] end.

Definition fraction_digits (fp : option str) : str :=
  match fp with Some d => d | None => [] end.

(** An amount with one thousands separator: [$a,bbb.ff]. *)
Definition grouped_text (symbol : option char) (a b : str) (fp : option str)
    : str :=
  symbol_text symbol ++ a ++ chr "," :: b ++ fraction_text fp.

(** An amount with two thousands separators: [$a,bbb,ccc.ff]. *)
Definition twice_grouped_text (symbol : option char) (a b c : str)
    (fp : option str) : str :=
  symbol_text symbol ++ a ++ chr "," :: b ++ chr "," :: c ++ fraction_text fp.

(** A character of such amounts: a digit, the point, the comma or a
    currency symbol. *)
Definition amount_char (c : char) : bool :=
  (is_plain c || char_eqb c (chr ",") || is_currency_symbol c)%bool.

End Amounts.

Module Abbreviations.
Import Py Re FormatParser Vocabulary Notions Amounts.
Local Open Scope string_scope.
Local Open Scope list_scope.

(** The entry of the multiplier table for a letter, in either case. *)
Definition multiplier_of (c : char) : option (char * Z) :=
  find (fun kv => char_eqb (fst kv) (upper_char c)) abbreviation_multipliers.

(** An unsigned decimal followed by the letter T, in either case: an amount
    in trillions. *)
Definition is_trillions (value : str) : Prop :=
  exists ip fp c,
    all_digits ip = true /\ ip <> [] /\ all_digits (fraction_digits fp) = true
    /\ upper_char c = chr "T"
    /\ value = (ip ++ fraction_text fp) ++ [c].

End Abbreviations.

Module Dates.
Import Py Re FormatParser Vocabulary Notions.
Local Open Scope string_scope.
Local Open Scope list_scope.

(** A letter, a digit or the hyphen. *)
Definition date_char (c : char) : bool := (isalnum c || char_eqb c (chr "-"))%bool.

(** What [_parse_date_pattern] returns for the fields [y], [m], [d] of a
    text matched by the pattern [name]. *)
Definition pattern_result (name : string) (text : str) (y m d : Z) : date :=
  match new_datetime y m d with
  | Ret dt => date_ok dt name y m d None None None
  | Raise e => date_error (Some name) (Parse_error e) (Some text)
  end.

(** The text [YYYY-MM-DD]. *)
Definition iso_text (y m d : str) : str := y ++ chr "-" :: m ++ chr "-" :: d.

(** The keys of the table of [_month_abbrev_to_num]. *)
Definition month_abbreviations : list string :=
  ["jan"; "feb"; "mar"; "apr"; "may"; "jun"; "jul"; "aug"; "sep"; "oct";
   "nov"; "dec"].

Definition is_month_abbreviation (mon : str) : bool :=
  existsb (fun k => str_eqb (pystr k) (lower mon)) month_abbreviations.

(** What a date dictionary says about its origin: it came from the rule
    [fmt] and holds no quarter. *)
Definition plain_origin (fmt : string) (d : date) : Prop :=
  d_format d = Some fmt /\ d_quarter d = None.

(** The tags [month_year] and [DD/MM/YYYY] are absent, and a quarter is
    held by the dictionaries tagged [quarter_short] only. *)
Definition live_tags (d : date) : Prop :=
  d_format d <> Some "month_year"
  /\ d_format d <> Some "DD/MM/YYYY"
  /\ (d_quarter d <> None -> d_format d = Some "quarter_short").

End Dates.

Module Describing.
Import Py Re Notions.

(** The first point or comma of the text is a comma. *)
Definition comma_first (value : str) : bool :=
  match snd (span (fun x => negb (is_separator x)) value) with
  | c :: _ => char_eqb c (chr ",")
  | [] => false
  end.

(** The value is one the date score counts for being an integer between
    1000 and 73050, and it has no white space around it. *)
Definition bare_serial (value : str) : bool :=
  (str_eqb (strip value) value
   && match DataTypeDetector.is_serial_date value with
      | Ret true => true
      | _ => false
      end)%bool.

End Describing.

(* ===================================================================== *)
(** * Properties *)
(* ===================================================================== *)

Import Py Re FormatParser DataTypeDetector Vocabulary.
Local Open Scope string_scope.
Local Open Scope list_scope.

(** ** Scenarios: the model on the texts the project tries itself *)

Example amount_us_currency :
  parse_amount (Some (pystr "$1,234.56"))
  = Ret (amount_plain (float_of_decimal false 123456 (-2)) (Some "USD") false
           "standard").
Proof. vm_compute. reflexivity. Qed.

Example amount_in_parentheses :
  parse_amount (Some (pystr "(2,500.00)"))
  = Ret (amount_plain (float_of_int 2500) None true "parentheses_negative").
Proof. vm_compute. reflexivity. Qed.

Example amount_trailing_minus :
  parse_amount (Some (pystr "1234.56-"))
  = Ret (amount_plain (float_of_decimal false 123456 (-2)) None true
           "trailing_negative").
Proof. vm_compute. reflexivity. Qed.

Example amount_abbreviated_millions :
  parse_amount (Some (pystr "1.5M"))
  = Ret (amount_abbreviated (float_of_int 1500000) (chr "M") 1000000
           (float_of_decimal false 15 (-1))).
Proof. vm_compute. reflexivity. Qed.

Example amount_european :
  parse_amount (Some (EURO :: pystr "1.234,56"))
  = Ret (amount_plain (float_of_decimal false 123456 (-2)) (Some "EUR") false
           "standard").
Proof. vm_compute. reflexivity. Qed.

Example amount_three_fraction_digits :
  parse_amount (Some (pystr "1.234"))
  = Ret (amount_plain (float_of_int 1234) None false "standard").
Proof. vm_compute. reflexivity. Qed.

Example date_iso :
  parse_date dateutil_rejects (Some (pystr "2023-12-31"))
  = Ret (date_ok (mk_datetime 2023 12 31) "YYYY-MM-DD" 2023 12 31 None None None).
Proof. vm_compute. reflexivity. Qed.

Example date_quarter_short :
  parse_date dateutil_rejects (Some (pystr "Q1-24"))
  = Ret (date_ok (mk_datetime 2024 1 1) "quarter_short" 2024 1 1 (Some 1%Z)
           None None).
Proof. vm_compute. reflexivity. Qed.

Example date_serial_60 :
  parse_date dateutil_rejects (Some (pystr "60"))
  = Ret (date_ok (mk_datetime 1900 2 28) "excel_serial" 1900 2 28 None
           (Some (float_of_int 59)) None).
Proof. vm_compute. reflexivity. Qed.

Example column_of_dates :
  exists info,
    analyze_column [Some (pystr "2023-01-01"); Some (pystr "2023-01-02");
                    Some (pystr "2023-01-03")]
    = Ret {| type := "date"; confidence := float_of_int 1;
             scores := [("string", float_of_int 0); ("number", float_of_int 0);
                        ("date", float_of_int 1)];
             format_info_of := info |}.
Proof. eexists. vm_compute. reflexivity. Qed.

Example column_of_mixed_values :
  exists info,
    analyze_column [Some (pystr "text"); Some (pystr "123");
                    Some (pystr "more text"); Some (pystr "456")]
    = Ret {| type := "string"; confidence := float_of_int 1;
             scores := [("string", float_of_int 1); ("number", float_of_int 0);
                        ("date", float_of_int 0)];
             format_info_of := info |}.
Proof. eexists. vm_compute. reflexivity. Qed.

Example column_of_numbers :
  exists info,
    analyze_column [Some (pystr "1"); Some (pystr "2"); None;
                    Some (pystr "10.5"); Some (pystr "$20.7")]
    = Ret {| type := "number"; confidence := float_of_int 1;
             scores := [("string", float_of_int 0); ("number", float_of_int 1);
                        ("date", float_of_int 0)];
             format_info_of := info |}.
Proof. eexists. vm_compute. reflexivity. Qed.

(** [str.strip] trims the separator U+001F, [float] does not. *)
Example float_keeps_unit_separator :
  strip [31%N; chr "1"] = [chr "1"]
  /\ float_of_str [31%N; chr "1"] = Raise ValueError
  /\ float_of_str [160%N; chr "1"; chr " "] = Ret (float_of_int 1).
Proof. repeat split; vm_compute; reflexivity. Qed.


(** [float(s)] raises nothing but [ValueError]. *)
Lemma float_of_str_cases (s : str) :
  (exists f, float_of_str s = Ret f) \/ float_of_str s = Raise ValueError.
Proof.
  unfold float_of_str.
  destruct (drop_underscores 0%N (trim isspace_numeric s)) as [t |]; [| now right].
  destruct (read_float t) as [f |]; [left; now exists f | now right].
Qed.

(** ** C1: the sign of an abbreviated amount *)

(** C1.  On the text [-1.5M] the abbreviated-suffix rule succeeds with the
    parsed value -1500000.0, a negative number, and [is_negative] false:
    the sign stays in the numeric value. *)
Theorem abbreviated_amount_keeps_negative_value :
  let result :=
    amount_abbreviated (float_of_int (-1500000)) (chr "M") 1000000
      (float_of_decimal true 15 (-1)) in
  parse_amount (Some (pystr "-1.5M")) = Ret result
  /\ parsed_value result = Some (float_of_int (-1500000))
  /\ fltb (float_of_int (-1500000)) (float_of_int 0) = true
  /\ is_negative result = false.
Proof. repeat split; vm_compute; reflexivity. Qed.

(** ** C2: the Excel serial 44927 *)

(** C2, as stated, fails: the date [parse_date] gives for [44927] is not
    2022-12-31. *)
Lemma serial_44927_is_not_2022_12_31 :
  ~ (forall du, exists d,
        parse_date du (Some (pystr "44927")) = Ret d
        /\ d_format d = Some "excel_serial"
        /\ d_parsed_value d = Some (mk_datetime 2022 12 31)).
Proof.
  intros H. destruct (H dateutil_rejects) as [d [E [_ V]]].
  vm_compute in E. inversion E; subst d. discriminate V.
Qed.

(** C2, amended.  [parse_date("44927")] succeeds with format tag
    [excel_serial]; the serial, being greater than 59, is decremented to
    44926, and 44925 days after 1900-01-01 is the calendar date
    2023-01-01. *)
Theorem serial_44927_is_2023_01_01 (du : str -> option datetime) :
  parse_date du (Some (pystr "44927"))
  = Ret (date_ok (mk_datetime 2023 1 1) "excel_serial" 2023 1 1 None
           (Some (float_of_int 44926)) None).
Proof. vm_compute. reflexivity. Qed.

(** ** C3: the quarter form *)

(** C3.  On [Q4 2023] the result of [parse_date] is the free-form parser's
    when that one accepts the text, and otherwise the error
    [Unsupported pattern: Quarter] of [_parse_date_pattern]: the entry
    [Quarter] of [date_patterns] matches before [_parse_quarter_format] is
    reached, so no result carries the tag [quarter] or a quarter number. *)
Theorem quarter_text_never_reaches_quarter_parser (du : str -> option datetime) :
  parse_date du (Some (pystr "Q4 2023"))
  = match du (pystr "Q4 2023") with
    | Some dt =>
        Ret (date_ok dt "dateutil_parsed" (year dt) (month dt) (day dt)
               None None None)
    | None =>
        Ret (date_error (Some "Quarter") (Unsupported_pattern "Quarter") None)
    end
  /\ _parse_quarter_format (pystr "Q4 2023")
     = Ret (date_ok (mk_datetime 2023 10 1) "quarter" 2023 10 1 (Some 4%Z)
              None None).
Proof.
  split; [| vm_compute; reflexivity].
  unfold parse_date.
  change (str_eqb (pystr "Q4 2023") []) with false. cbv iota.
  change (strip (pystr "Q4 2023")) with (pystr "Q4 2023").
  change (_is_excel_serial_date (pystr "Q4 2023")) with (Ret (A:=bool) false).
  cbn [bind try_except].
  destruct (du (pystr "Q4 2023")) as [dt |]; [reflexivity |].
  vm_compute. reflexivity.
Qed.

(** ** C4: what the number score leaves out *)

Lemma parses_as_number_returns (value_str : str) :
  exists b, parses_as_number value_str = Ret b.
Proof.
  unfold parses_as_number.
  destruct (float_of_str_cases
              (replace_char (chr "-") []
                 (sub false re_symbols_and_separators [] value_str)))
    as [[f E] | E]; rewrite E; simpl; eauto.
Qed.

Lemma number_loop_bounds (values : list str) :
  forall acc,
    exists n, number_loop values acc = Ret n
              /\ (acc <= n <= acc + Z.of_nat (length (not_date_like values)))%Z.
Proof.
  induction values as [| v vs IH]; intros acc; simpl.
  - exists acc. split; [reflexivity | lia].
  - destruct (matches_date_pattern (strip v)); simpl.
    + apply IH.
    + destruct (parses_as_number_returns (strip v)) as [b E]. rewrite E. simpl.
      destruct b.
      * destruct (IH (acc + 1)%Z) as [n [R B]]. exists n. split; [exact R | lia].
      * destruct (rmatch true re_abbreviated (strip v)).
        -- destruct (IH (acc + 1)%Z) as [n [R B]]. exists n. split; [exact R | lia].
        -- destruct (IH acc) as [n [R B]]. exists n. split; [exact R | lia].
Qed.

(** C4, as stated, fails: on the one-value sample [44927] the date score
    and the number score are both 1.0, and their sum is not at most 1. *)
Lemma serial_date_is_counted_twice :
  ~ (forall values date_score number_score,
       _detect_date_format values = Ret date_score ->
       _detect_number_format values = Ret number_score ->
       fleb (fadd date_score number_score) (float_of_int 1) = true).
Proof.
  intros H.
  specialize (H [pystr "44927"] (float_of_int 1) (float_of_int 1)).
  assert (D : _detect_date_format [pystr "44927"] = Ret (float_of_int 1))
    by (vm_compute; reflexivity).
  assert (N : _detect_number_format [pystr "44927"] = Ret (float_of_int 1))
    by (vm_compute; reflexivity).
  specialize (H D N). vm_compute in H. discriminate H.
Qed.

(** C4, amended.  For every sample, a value that matches one of the date
    grammars is excluded from the number score: [_detect_number_format]
    returns the ratio of a count that is at most the number of values
    matching no date grammar.  (A value counted as a date only for being an
    integer in the serial range is not excluded.) *)
Theorem date_grammar_values_excluded_from_number_score (values : list str) :
  exists number_count,
    _detect_number_format values
    = Ret (score number_count (Z.of_nat (length values)))
    /\ (0 <= number_count <= Z.of_nat (length (not_date_like values)))%Z.
Proof.
  unfold _detect_number_format.
  destruct (number_loop_bounds values 0) as [n [R B]].
  exists n. rewrite R. split; [reflexivity | lia].
Qed.

(** ** C5: blank input *)

(** C5, as stated, fails: the text of three spaces is blank, and
    [parse_amount] answers it with [Invalid numeric format], not with
    [Empty value]. *)
Lemma blank_text_is_not_empty_value :
  ~ (forall v, is_blank v = true ->
       parse_amount v = Ret (amount_error Empty_value None)).
Proof.
  intros H. specialize (H (Some (pystr "   ")) eq_refl).
  vm_compute in H. discriminate H.
Qed.

(** C5, amended.  For every input that is null or empty after trimming,
    the outcome of [parse_amount] and of [parse_date] is the error
    [Empty value] when the input is null or the empty text.  For a text of
    white space only, [parse_amount] returns the error
    [Invalid numeric format], and [parse_date] hands the trimmed (empty)
    text to the free-form parser and returns the error
    [Unrecognized date format] when that one rejects it. *)
Theorem blank_input_outcomes (du : str -> option datetime) (value : option str) :
  is_blank value = true ->
  parse_amount value
  = Ret (amount_error
           (if is_null_or_empty value then Empty_value
            else Invalid_numeric_format ValueError) None)
  /\ parse_date du value
     = if is_null_or_empty value then Ret (date_error None Empty_value None)
       else
         match du [] with
         | Some dt =>
             Ret (date_ok dt "dateutil_parsed" (year dt) (month dt) (day dt)
                    None None None)
         | None =>
             Ret (date_error None (Unrecognized_date_format []) (Some []))
         end.
Proof.
  destruct value as [v |]; [| intros _; split; reflexivity].
  unfold is_blank, is_null_or_empty, parse_amount, parse_date.
  destruct (strip v) as [| c t]; [intros _ | discriminate].
  destruct (str_eqb v []); [split; reflexivity |].
  split; [reflexivity |].
  change (_is_excel_serial_date []) with (Ret (A:=bool) false).
  cbn [bind try_except].
  destruct (du []) as [dt |]; reflexivity.
Qed.

(** C5 at the text of three spaces. *)
Lemma blank_input_outcomes_witness :
  is_blank (Some (pystr "   ")) = true
  /\ parse_amount (Some (pystr "   "))
     = Ret (amount_error (Invalid_numeric_format ValueError) None)
  /\ parse_date dateutil_rejects (Some (pystr "   "))
     = Ret (date_error None (Unrecognized_date_format []) (Some [])).
Proof.
  split; [reflexivity |].
  exact (blank_input_outcomes dateutil_rejects (Some (pystr "   ")) eq_refl).
Defined.

(** ** C6: the decisive collapse *)

(** What [analyze_column] does once both scores are known. *)
Lemma analyze_column_collapse (data : list (option str)) (c : classification) :
  dropna data <> [] ->
  analyze_column data = Ret c ->
  exists date_score number_score,
    _detect_date_format (dropna data) = Ret date_score
    /\ _detect_number_format (dropna data) = Ret number_score
    /\ ((fltb f05 date_score = true
         /\ type c = "date"
         /\ scores c = [("string", f0); ("number", f0); ("date", f1)])
        \/ (fltb f05 date_score = false /\ fltb f05 number_score = true
            /\ type c = "number"
            /\ scores c = [("string", f0); ("number", f1); ("date", f0)])
        \/ (fltb f05 date_score = false /\ fltb f05 number_score = false
            /\ type c = "string"
            /\ scores c = [("string", f1); ("number", f0); ("date", f0)]))
    /\ confidence c = f1.
Proof.
  intros NE. unfold analyze_column.
  destruct (dropna data) as [| v vs] eqn:E; [congruence |]. cbn [length Nat.eqb].
  destruct (_detect_date_format (v :: vs)) as [ds | e]; [| discriminate].
  destruct (_detect_number_format (v :: vs)) as [ns | e]; [| discriminate].
  cbn [bind]. intros H. exists ds, ns. split; [reflexivity |]. split; [reflexivity |].
  destruct (fltb f05 ds) eqn:D; [| destruct (fltb f05 ns) eqn:N];
    inversion H; subst c; cbn; (split; [| reflexivity]).
  - left. auto.
  - right. left. auto.
  - right. right. auto.
Qed.

(** [int(f)] raises [OverflowError] on the infinities only. *)
Lemma int_of_float_cases (f : float) :
  match f with
  | S754_infinity _ => int_of_float f = Raise OverflowError
  | _ => (exists z, int_of_float f = Ret z) \/ int_of_float f = Raise ValueError
  end.
Proof. destruct f; cbn [int_of_float]; eauto. Qed.

(** The serial-date test raises on the infinities only. *)
Lemma is_serial_date_returns (value : str) :
  reads_as_infinity value = false ->
  exists b, is_serial_date (strip value) = Ret b.
Proof.
  unfold reads_as_infinity, is_serial_date.
  destruct (float_of_str_cases (strip value)) as [[f E] | E]; rewrite E;
    cbn [bind try_except is_ValueError exn_eqb]; [| eauto].
  pose proof (int_of_float_cases f) as C.
  destruct f as [s | s | | s m e]; try discriminate; intros _;
    (destruct C as [[z C] | C]; rewrite C;
     cbn [bind try_except is_ValueError exn_eqb]; [| eauto];
     match goal with
     | |- exists b, try_except (if ?c then _ else _) _ _ = _ =>
         destruct c; cbn [try_except]; eauto
     end).
Qed.

Lemma date_loop_returns (values : list str) :
  forallb (fun v => negb (reads_as_infinity v)) values = true ->
  forall acc, exists n, date_loop values acc = Ret n.
Proof.
  induction values as [| v vs IH]; simpl; intros H acc; [eauto |].
  apply andb_prop in H. destruct H as [Hv H].
  apply negb_true_iff in Hv.
  destruct (is_serial_date_returns v Hv) as [b E]. rewrite E. simpl.
  destruct b; [apply IH, H |].
  destruct (matches_date_pattern (strip v)); apply IH, H.
Qed.

(** [analyze_column] returns on every sample no value of which reads as an
    infinity. *)
Lemma analyze_column_returns (data : list (option str)) :
  forallb (fun v => negb (reads_as_infinity v)) (dropna data) = true ->
  exists c, analyze_column data = Ret c.
Proof.
  intros H. unfold analyze_column.
  destruct (Nat.eqb (length (dropna data)) 0); [eauto |].
  unfold _detect_date_format, _detect_number_format.
  destruct (date_loop_returns (dropna data) H 0%Z) as [n E]. rewrite E.
  destruct (number_loop_bounds (dropna data) 0%Z) as [k [K _]]. rewrite K.
  cbn [bind].
  destruct (fltb f05 _); [eauto |]. destruct (fltb f05 _); eauto.
Qed.

(** C6.  On the one-value sample [inf], which is not empty,
    [analyze_column] returns no result: [int(float_val)] in
    [_detect_date_format] raises [OverflowError], which the
    [except ValueError] around it lets through. *)
Theorem analyze_column_raises_on_infinity :
  dropna [Some (pystr "inf")] <> []
  /\ is_serial_date (pystr "inf") = Raise OverflowError
  /\ analyze_column [Some (pystr "inf")] = Raise OverflowError.
Proof. split; [discriminate |]. split; vm_compute; reflexivity. Qed.

(** ** C7: totality of the two parsers *)

(** What a block under [except Exception] returns. *)
Lemma try_except_Exception_inv (A : Type) (body : res A) (handler : exn -> A)
    (P : A -> Prop) :
  (forall a, body = Ret a -> P a) ->
  (forall e, P (handler e)) ->
  exists a, try_except body is_Exception (fun e => Ret (handler e)) = Ret a
            /\ P a.
Proof.
  intros B H. destruct body as [a | e]; cbn [try_except is_Exception].
  - exists a. split; [reflexivity | now apply B].
  - exists (handler e). split; [reflexivity | apply H].
Qed.

Lemma bind_Ret_inv (A B : Type) (c : res A) (k : A -> res B) (b : B) :
  bind c k = Ret b -> exists a, c = Ret a /\ k a = Ret b.
Proof. destruct c as [a | e]; simpl; [eauto | discriminate]. Qed.

(** Decompose a hypothesis that a sequence of binds returned. *)
Ltac bind_inv H :=
  repeat (let a := fresh "a" in let E := fresh "E" in
          apply bind_Ret_inv in H; destruct H as (a & E & H)).

Lemma amount_error_outcome (m : message) (original : option str) :
  amount_outcome (amount_error m original).
Proof. right. split; [discriminate | reflexivity]. Qed.

Lemma amount_plain_outcome (v : float) (cur : option string) (neg : bool)
    (fmt : string) :
  amount_outcome (amount_plain v cur neg fmt).
Proof. left. split; [reflexivity | discriminate]. Qed.

Lemma date_error_outcome (fmt : option string) (m : message)
    (original : option str) :
  date_outcome (date_error fmt m original).
Proof. right. split; [discriminate | reflexivity]. Qed.

Lemma date_ok_outcome (dt : datetime) (fmt : string) (y m d : Z)
    (quarter : option Z) (serial : option float) (name : option str) :
  date_outcome (date_ok dt fmt y m d quarter serial name).
Proof. left. split; [reflexivity | discriminate]. Qed.

Lemma abbreviated_loop_outcome (items : list (char * Z)) (value : str)
    (a : amount) :
  abbreviated_loop items value = Ret (Some a) -> amount_outcome a.
Proof.
  induction items as [| [ab mu] items IH]; simpl; [discriminate |].
  destruct (endswith (upper value) [ab]); [| exact IH].
  destruct (float_of_str _) as [f | e]; simpl.
  - intros H; inversion H. left. split; [reflexivity | discriminate].
  - destruct (is_ValueError e); [exact IH | discriminate].
Qed.

Lemma guarded_attempt_outcome (c : res float) (fmt : string) (a : amount) :
  try_except
    (bind c (fun v => Ret (Some (amount_plain (fabs v) None true fmt))))
    is_ValueError (fun _ => Ret None) = Ret (Some a) ->
  amount_outcome a.
Proof.
  destruct c as [f | e]; simpl.
  - intros H; inversion H. apply amount_plain_outcome.
  - destruct (is_ValueError e); discriminate.
Qed.

Lemma handle_special_formats_outcome (value : str) (a : amount) :
  handle_special_formats value = Ret a -> amount_outcome a.
Proof.
  unfold handle_special_formats, or_else.
  destruct (abbreviated_loop abbreviation_multipliers value)
    as [[b |] | e] eqn:AL; simpl; [| | discriminate].
  { intros H; inversion H; subst b. now apply abbreviated_loop_outcome in AL. }
  destruct (parentheses_attempt value) as [[b |] | e] eqn:PA; simpl;
    [| | discriminate].
  { intros H; inversion H; subst b. unfold parentheses_attempt in PA.
    destruct (wrapped_in_parentheses value); [| discriminate].
    exact (guarded_attempt_outcome _ _ _ PA). }
  destruct (trailing_attempt value) as [[b |] | e] eqn:TA; simpl;
    [| | discriminate].
  { intros H; inversion H; subst b. unfold trailing_attempt in TA.
    destruct (endswith value (pystr "-")); [| discriminate].
    exact (guarded_attempt_outcome _ _ _ TA). }
  intros H; inversion H. apply amount_error_outcome.
Qed.

Lemma parse_normalized_amount_outcome (text : str) (a : amount) :
  _parse_normalized_amount text = Ret a -> amount_outcome a.
Proof.
  unfold _parse_normalized_amount.
  destruct (float_of_str _) as [f | e]; simpl.
  - intros H; inversion H. apply amount_plain_outcome.
  - destruct (is_ValueError e); [| discriminate].
    intros H; inversion H. apply amount_error_outcome.
Qed.

Lemma parse_excel_serial_date_outcome (value : str) :
  exists d, _parse_excel_serial_date value = Ret d /\ date_outcome d.
Proof.
  unfold _parse_excel_serial_date. apply try_except_Exception_inv.
  - intros d H. bind_inv H. injection H as <-. apply date_ok_outcome.
  - intros e. apply date_error_outcome.
Qed.

Lemma parse_date_pattern_outcome (name : string) (m : match_obj) (v : str) :
  exists d, _parse_date_pattern name m v = Ret d /\ date_outcome d.
Proof.
  unfold _parse_date_pattern. apply try_except_Exception_inv.
  - intros d H.
    repeat match type of H with
           | (if ?c then _ else _) = _ => destruct c
           end;
      bind_inv H; injection H as <-;
      first [apply date_ok_outcome | apply date_error_outcome].
  - intros e. apply date_error_outcome.
Qed.

Lemma parse_quarter_format_outcome (value : str) :
  exists d, _parse_quarter_format value = Ret d /\ date_outcome d.
Proof.
  unfold _parse_quarter_format. apply try_except_Exception_inv.
  - intros d H. destruct (rmatch true re_quarter value).
    + bind_inv H. injection H as <-. apply date_ok_outcome.
    + destruct (rmatch true re_quarter_short value).
      * bind_inv H. injection H as <-. apply date_ok_outcome.
      * injection H as <-. apply date_error_outcome.
  - intros e. apply date_error_outcome.
Qed.

Lemma parse_month_year_format_outcome (value : str) :
  exists d, _parse_month_year_format value = Ret d /\ date_outcome d.
Proof.
  unfold _parse_month_year_format. apply try_except_Exception_inv.
  - intros d H. destruct (split_ws value) as [| month_str [| year_str rest]].
    + injection H as <-. apply date_error_outcome.
    + injection H as <-. apply date_error_outcome.
    + bind_inv H. injection H as <-. apply date_ok_outcome.
  - intros e. apply date_error_outcome.
Qed.

(** C7.  For every input, null or text, and whatever the free-form parser
    does, [parse_amount] and [parse_date] return a dictionary, no exception
    leaves them, and the dictionary is a success record (a parsed value
    and no error) or an error record (an error and no parsed value). *)
Theorem parsers_always_return (du : str -> option datetime) (value : option str) :
  (exists a, parse_amount value = Ret a
             /\ ((error a = None /\ parsed_value a <> None)
                 \/ (error a <> None /\ parsed_value a = None)))
  /\ (exists d, parse_date du value = Ret d
                /\ ((d_error d = None /\ d_parsed_value d <> None)
                    \/ (d_error d <> None /\ d_parsed_value d = None))).
Proof.
  split.
  - change (exists a, parse_amount value = Ret a /\ amount_outcome a).
    unfold parse_amount. destruct value as [v |].
    2:{ eexists. split; [reflexivity | apply amount_error_outcome]. }
    destruct (str_eqb v []).
    { eexists. split; [reflexivity | apply amount_error_outcome]. }
    apply try_except_Exception_inv; [| intros e; apply amount_error_outcome].
    intros a H. destruct (_is_special_format (strip v)).
    + now apply handle_special_formats_outcome in H.
    + now apply parse_normalized_amount_outcome in H.
  - change (exists d, parse_date du value = Ret d /\ date_outcome d).
    unfold parse_date. destruct value as [v |].
    2:{ eexists. split; [reflexivity | apply date_error_outcome]. }
    destruct (str_eqb v []).
    { eexists. split; [reflexivity | apply date_error_outcome]. }
    apply try_except_Exception_inv; [| intros e; apply date_error_outcome].
    intros d H. apply bind_Ret_inv in H. destruct H as (excel & _ & H).
    destruct excel.
    { destruct (parse_excel_serial_date_outcome (strip v)) as (d' & E & O).
      rewrite E in H. now injection H as <-. }
    destruct (du (strip v)).
    { injection H as <-. apply date_ok_outcome. }
    destruct (first_pattern FormatParser.date_patterns (strip v)) as [[name m] |].
    { destruct (parse_date_pattern_outcome name m (strip v)) as (d' & E & O).
      rewrite E in H. now injection H as <-. }
    destruct (contains_char (chr "Q") (upper (strip v))).
    { destruct (parse_quarter_format_outcome (strip v)) as (d' & E & O).
      rewrite E in H. now injection H as <-. }
    destruct (rmatch true re_word_year (strip v)).
    { destruct (parse_month_year_format_outcome (strip v)) as (d' & E & O).
      rewrite E in H. now injection H as <-. }
    injection H as <-. apply date_error_outcome.
Qed.

(** ** C9: the empty sample *)

(** C9.  A sample with no value left once the nulls are dropped is
    classified [unknown], with confidence 0.0 and the three scores 0.0;
    [analyze_column] returns, it does not raise. *)
Theorem empty_sample_is_unknown (data : list (option str)) :
  dropna data = [] ->
  analyze_column data
  = Ret {| type := "unknown"; confidence := float_of_int 0;
           scores := [("string", float_of_int 0); ("number", float_of_int 0);
                      ("date", float_of_int 0)];
           format_info_of := None |}.
Proof. intros E. unfold analyze_column. rewrite E. reflexivity. Qed.

(** C9 at a sample of two null cells. *)
Lemma empty_sample_is_unknown_witness :
  dropna [None; None] = []
  /\ analyze_column [None; None]
     = Ret {| type := "unknown"; confidence := float_of_int 0;
              scores := [("string", float_of_int 0); ("number", float_of_int 0);
                         ("date", float_of_int 0)];
              format_info_of := None |}.
Proof.
  split; [reflexivity |].
  exact (empty_sample_is_unknown [None; None] eq_refl).
Defined.

(** ** Strings: suffixes *)

Lemma endswith_app_last (x : str) (c d : char) :
  endswith (x ++ [c]) [d] = char_eqb d c.
Proof.
  unfold endswith. rewrite rev_app_distr. simpl.
  destruct (rev x); apply andb_true_r.
Qed.

Lemma upper_app_last (x : str) (c : char) :
  upper (x ++ [c]) = upper x ++ [upper_char c].
Proof. unfold upper. now rewrite map_app. Qed.

(** The eight letters that end an abbreviated amount. *)
Lemma abbreviation_letter_cases (c : char) :
  is_abbreviation_letter c = true ->
  In c [75; 77; 66; 84; 107; 109; 98; 116]%N.
Proof.
  unfold is_abbreviation_letter, upper_char, islower, in_range, char_eqb. simpl.
  rewrite orb_false_r.
  destruct ((97 <=? c)%N && (c <=? 122)%N)%bool eqn:L.
  - apply andb_prop in L. destruct L as [L1 L2].
    apply N.leb_le in L1.
    rewrite !orb_true_iff, !N.eqb_eq. lia.
  - rewrite !orb_true_iff, !N.eqb_eq. lia.
Qed.

(** Case analysis on an abbreviation letter [c]. *)
Ltac each_letter C :=
  simpl in C;
  repeat (destruct C as [C | C]; [subst; try reflexivity |]);
  try contradiction.

(** ** C10: an abbreviation letter after unparsable text *)

(** No iteration over the multiplier table returns when the numeric part
    is not a float. *)
Lemma abbreviated_loop_falls_through (items : list (char * Z)) (value : str) :
  float_of_str (if Nat.ltb 1 (length value) then drop_last value else value)
  = Raise ValueError ->
  abbreviated_loop items value = Ret None.
Proof.
  intros H. induction items as [| [abbrev mult] items IH]; simpl; [reflexivity |].
  destruct (endswith (upper value) [abbrev]); [| exact IH].
  rewrite H. simpl. exact IH.
Qed.

Lemma numeric_part_unparsable (x : str) (c : char) :
  is_abbreviation_letter c = true ->
  float_of_str x = Raise ValueError ->
  float_of_str (if Nat.ltb 1 (length (x ++ [c])) then drop_last (x ++ [c])
                else x ++ [c])
  = Raise ValueError.
Proof.
  intros L H. destruct x as [| y x].
  - apply abbreviation_letter_cases in L. each_letter L.
  - replace (Nat.ltb 1 (length ((y :: x) ++ [c]))) with true.
    + unfold drop_last. now rewrite removelast_last.
    + symmetry. apply Nat.ltb_lt. rewrite length_app. simpl. lia.
Qed.

(** C10.  Let the text of a cell, once trimmed, be [x] followed by one of
    K, M, B, T (either case), and let [x] be a text of the Basic Latin
    block that does not parse as a float.  Such a
    text is never wrapped in parentheses and never ends in [-].
    [parse_amount] sends it to the special formats ([_is_special_format]
    holds, so the standard path is not taken), and the outcome is the
    error [Unrecognized special format]. *)
Theorem abbreviation_after_unparsable_text_is_an_error (value x : str) (c : char) :
  strip value = x ++ [c] ->
  is_abbreviation_letter c = true ->
  basic_latin x = true ->
  float_of_str x = Raise ValueError ->
  wrapped_in_parentheses (strip value) = false
  /\ endswith (strip value) (pystr "-") = false
  /\ _is_special_format (strip value) = true
  /\ parse_amount (Some value)
     = Ret (amount_error (Unrecognized_special_format (strip value)) None).
Proof.
  intros E L _ H.
  assert (C := abbreviation_letter_cases c L).
  assert (W : wrapped_in_parentheses (x ++ [c]) = false).
  { unfold wrapped_in_parentheses. change (pystr ")") with [chr ")"].
    rewrite endswith_app_last.
    simpl in C. repeat (destruct C as [C | C]; [subst c; apply andb_false_r |]).
    contradiction. }
  assert (T : endswith (x ++ [c]) (pystr "-") = false).
  { change (pystr "-") with [chr "-"]. rewrite endswith_app_last. each_letter C. }
  assert (S : _is_special_format (x ++ [c]) = true).
  { unfold _is_special_format.
    replace (existsb (fun kv => endswith (upper (x ++ [c])) [fst kv])
               abbreviation_multipliers) with true; [reflexivity |].
    symmetry. simpl. rewrite upper_app_last, !endswith_app_last.
    rewrite orb_false_r. unfold is_abbreviation_letter in L. simpl in L.
    rewrite orb_false_r in L.
    unfold char_eqb in *. rewrite !(N.eqb_sym _ (upper_char c)). exact L. }
  rewrite E. repeat split; [exact W | exact T | exact S |].
  unfold parse_amount.
  replace (str_eqb value []) with false
    by (destruct value; [destruct x; discriminate E | reflexivity]).
  rewrite E, S.
  unfold _handle_special_formats, handle_special_formats.
  rewrite (abbreviated_loop_falls_through abbreviation_multipliers _
             (numeric_part_unparsable x c L H)).
  unfold or_else, parentheses_attempt, trailing_attempt.
  rewrite W, T. reflexivity.
Qed.

(** C10 at the text [$2K]. *)
Lemma abbreviation_after_unparsable_text_is_an_error_witness :
  strip (pystr "$2K") = pystr "$2" ++ [chr "K"]
  /\ is_abbreviation_letter (chr "K") = true
  /\ basic_latin (pystr "$2") = true
  /\ float_of_str (pystr "$2") = Raise ValueError
  /\ _is_special_format (strip (pystr "$2K")) = true
  /\ parse_amount (Some (pystr "$2K"))
     = Ret (amount_error (Unrecognized_special_format (strip (pystr "$2K"))) None).
Proof.
  split; [reflexivity |]. split; [reflexivity |]. split; [reflexivity |].
  split; [reflexivity |].
  exact (proj2 (proj2 (abbreviation_after_unparsable_text_is_an_error
                         (pystr "$2K") (pystr "$2") (chr "K")
                         eq_refl eq_refl eq_refl eq_refl))).
Defined.

(** ** The matcher consumes what the pattern covers *)

Section MatcherSound.

Variable ic : bool.
Variable subject : str.
Variable A : Type.

Lemma rep_loop_sound
    (body : str -> captures -> (str -> captures -> option A) -> option A)
    (P : str -> Prop) (k : str -> captures -> option A) :
  sound_for body P ->
  forall fuel lo hi s caps a,
    rep_loop body k fuel lo hi s caps = Some a ->
    exists ps s' caps',
      s = concat ps ++ s' /\ Forall P ps /\ lo <= length ps
      /\ k s' caps' = Some a.
Proof.
  intros SB. induction fuel as [| fuel IH]; intros lo hi s caps a; simpl;
    [discriminate |].
  set (round := body s caps _).
  assert (R : forall x, round = Some x ->
              exists ps s' caps',
                s = concat ps ++ s' /\ Forall P ps /\ lo <= length ps
                /\ k s' caps' = Some x).
  { intros x E. apply SB in E. destruct E as (p & s1 & caps1 & -> & Pp & E).
    destruct (Nat.ltb (length s1) (length (p ++ s1))); [| discriminate].
    apply IH in E. destruct E as (ps & s' & caps' & -> & F & L & K).
    exists (p :: ps), s', caps'. simpl. rewrite <- app_assoc.
    repeat split; [now constructor | lia | exact K]. }
  assert (Z : forall x, match lo with O => k s caps | S _ => None end = Some x ->
              exists ps s' caps',
                s = concat ps ++ s' /\ Forall P ps /\ lo <= length ps
                /\ k s' caps' = Some x).
  { intros x E. destruct lo; [| discriminate].
    exists [], s, caps. simpl. repeat split; [constructor | lia | exact E]. }
  destruct hi as [[| h] |].
  - apply Z.
  - destruct round as [x |] eqn:E; [| apply Z].
    intros H. inversion H; subst x. now apply R.
  - destruct round as [x |] eqn:E; [| apply Z].
    intros H. inversion H; subst x. now apply R.
Qed.

Lemma run_sound (r : regex) :
  sound_for (A:=A) (run ic subject r) (covers ic r).
Proof.
  induction r as [| cs | r1 IH1 r2 IH2 | r IH lo hi | n r IH | |];
    intros s caps k a; cbn [run].
  - intros H. exists [], s, caps. simpl. auto.
  - destruct s as [| c s']; [discriminate |].
    destruct (cset_match ic cs c) eqn:E; [| discriminate].
    intros H. exists [c], s', caps. simpl. eauto.
  - intros H. apply IH1 in H. destruct H as (p1 & s1 & caps1 & -> & C1 & H).
    apply IH2 in H. destruct H as (p2 & s2 & caps2 & -> & C2 & H).
    exists (p1 ++ p2), s2, caps2. rewrite <- app_assoc. simpl. eauto 8.
  - intros H.
    apply (rep_loop_sound (run ic subject r) (covers ic r) k IH) in H.
    destruct H as (ps & s' & caps' & -> & F & L & K).
    exists (concat ps), s', caps'. simpl. eauto 8.
  - intros H. apply IH in H. destruct H as (p & s' & caps' & -> & C & H).
    simpl. eauto 8.
  - destruct (Nat.eqb (length s) (length subject)); [| discriminate].
    intros H. exists [], s, caps. simpl. auto.
  - destruct s as [| c [| c' s']].
    + intros H. exists [], [], caps. simpl. auto.
    + destruct (char_eqb c 10%N); [| discriminate].
      intros H. exists [], [c], caps. simpl. auto.
    + discriminate.
Qed.

End MatcherSound.

Lemma match_at_covers ic r subject s m :
  match_at ic r subject s = Some m ->
  exists p s', s = p ++ s' /\ covers ic r p.
Proof.
  unfold match_at. intros H. apply run_sound in H.
  destruct H as (p & s' & caps' & E & C & _). eauto.
Qed.

Lemma search_from_covers ic r subject s m :
  search_from ic r subject s = Some m ->
  exists u p s', s = u ++ p ++ s' /\ covers ic r p.
Proof.
  induction s as [| c s IH]; simpl.
  - destruct (match_at ic r subject []) eqn:E; [| discriminate].
    intros _. apply match_at_covers in E. destruct E as (p & s' & E & C).
    exists [], p, s'. auto.
  - destruct (match_at ic r subject (c :: s)) eqn:E.
    + intros _. apply match_at_covers in E. destruct E as (p & s' & E & C).
      exists [], p, s'. auto.
    + intros H. apply IH in H. destruct H as (u & p & s' & -> & C).
      exists (c :: u), p, s'. auto.
Qed.

(** A text no part of which the pattern covers is searched in vain. *)
Lemma search_none ic r s :
  (forall u p s', s = u ++ p ++ s' -> ~ covers ic r p) ->
  search ic r s = None.
Proof.
  intros H. unfold search. destruct (search_from ic r s s) eqn:E; [| reflexivity].
  apply search_from_covers in E. destruct E as (u & p & s' & E & C).
  exfalso. exact (H u p s' E C).
Qed.

(** ... and [re.sub] leaves it as it is. *)
Lemma sub_unchanged ic r tpl s :
  (forall u p s', s = u ++ p ++ s' -> ~ covers ic r p) ->
  sub ic r tpl s = s.
Proof.
  intros H. unfold sub.
  assert (G : forall fuel t u, s = u ++ t -> sub_loop ic r tpl s fuel t = t).
  { induction fuel as [| fuel IH]; intros t u E; simpl; [reflexivity |].
    destruct (match_at ic r s t) eqn:M.
    - apply match_at_covers in M. destruct M as (p & s' & -> & C).
      exfalso. exact (H u p s' E C).
    - destruct t as [| c t]; [reflexivity |]. f_equal.
      apply (IH t (u ++ [c])). rewrite <- app_assoc. exact E. }
  apply (G _ s []). reflexivity.
Qed.

(** ** Plain decimals: texts of digits and one point *)

Lemma plain_cases (c : char) :
  is_plain c = true -> (48 <= c <= 57)%N \/ c = 46%N.
Proof.
  unfold is_plain, isdigit, is_dot, in_range, char_eqb.
  rewrite orb_true_iff, andb_true_iff, !N.leb_le, N.eqb_eq. tauto.
Qed.

Lemma digit_is_plain (c : char) : isdigit c = true -> is_plain c = true.
Proof. unfold is_plain. now intros ->. Qed.

Lemma all_digits_Forall (s : str) :
  all_digits s = true -> Forall (fun c => isdigit c = true) s.
Proof. unfold all_digits. rewrite forallb_forall, Forall_forall. auto. Qed.

Lemma decimal_text_plain (ip fp : str) :
  all_digits ip = true -> all_digits fp = true ->
  Forall (fun c => is_plain c = true) (decimal_text ip fp).
Proof.
  intros I F. apply all_digits_Forall in I. apply all_digits_Forall in F.
  unfold decimal_text. apply Forall_app. split.
  - eapply Forall_impl; [| exact I]. apply digit_is_plain.
  - constructor; [reflexivity |].
    eapply Forall_impl; [| exact F]. apply digit_is_plain.
Qed.

Lemma plain_not_space (c : char) : is_plain c = true -> isspace c = false.
Proof.
  intros H. apply plain_cases in H.
  unfold isspace, in_range.
  rewrite !orb_false_iff, !andb_false_iff, !N.leb_gt, !N.eqb_neq. lia.
Qed.

Lemma plain_upper (c : char) : is_plain c = true -> upper_char c = c.
Proof.
  intros H. apply plain_cases in H. unfold upper_char, islower, in_range.
  replace ((97 <=? c)%N && (c <=? 122)%N)%bool with false; [reflexivity |].
  symmetry. rewrite andb_false_iff, !N.leb_gt. lia.
Qed.

Lemma plain_lower (c : char) : is_plain c = true -> lower_char c = c.
Proof.
  intros H. apply plain_cases in H. unfold lower_char, isupper, in_range.
  replace ((65 <=? c)%N && (c <=? 90)%N)%bool with false; [reflexivity |].
  symmetry. rewrite andb_false_iff, !N.leb_gt. lia.
Qed.

Lemma plain_not_space_numeric (c : char) :
  is_plain c = true -> isspace_numeric c = false.
Proof.
  intros H. unfold isspace_numeric. now rewrite (plain_not_space c H).
Qed.

Lemma ltrim_head (sp : char -> bool) (s : str) :
  match s with [] => True | c :: _ => sp c = false end -> ltrim sp s = s.
Proof. destruct s as [| c s]; simpl; [reflexivity | now intros ->]. Qed.

Lemma trim_plain (sp : char -> bool) (s : str) :
  (forall c, is_plain c = true -> sp c = false) ->
  Forall (fun c => is_plain c = true) s -> trim sp s = s.
Proof.
  intros SP H. unfold trim, rtrim.
  rewrite (ltrim_head sp s).
  - rewrite (ltrim_head sp (rev s)); [apply rev_involutive |].
    apply Forall_rev in H. destruct (rev s) as [| c t]; [exact I |].
    apply SP. now inversion H.
  - destruct s as [| c t]; [exact I |]. apply SP. now inversion H.
Qed.

Lemma strip_plain (s : str) :
  Forall (fun c => is_plain c = true) s -> strip s = s.
Proof. apply trim_plain, plain_not_space. Qed.

Lemma upper_plain (s : str) :
  Forall (fun c => is_plain c = true) s -> upper s = s.
Proof.
  intros H. unfold upper. induction H as [| c s Hc _ IH]; simpl; [reflexivity |].
  now rewrite (plain_upper c Hc), IH.
Qed.

Lemma char_eqb_plain (d c : char) :
  is_plain d = false -> is_plain c = true -> char_eqb d c = false.
Proof.
  intros D C. unfold char_eqb. apply N.eqb_neq. intros ->. congruence.
Qed.

Lemma endswith_plain (s : str) (d : char) :
  Forall (fun c => is_plain c = true) s -> is_plain d = false ->
  endswith s [d] = false.
Proof.
  intros H D. unfold endswith. apply Forall_rev in H. simpl.
  destruct (rev s) as [| c t]; [reflexivity |]. simpl.
  rewrite (char_eqb_plain d c D); [reflexivity | now inversion H].
Qed.

Lemma contains_char_plain (s : str) (d : char) :
  Forall (fun c => is_plain c = true) s -> is_plain d = false ->
  contains_char d s = false.
Proof.
  intros H D. unfold contains_char.
  induction H as [| c s Hc _ IH]; simpl; [reflexivity |].
  now rewrite (char_eqb_plain d c D Hc), IH.
Qed.

Lemma drop_underscores_plain (s : str) :
  Forall (fun c => is_plain c = true) s ->
  forall prev, char_eqb prev 95%N = false -> drop_underscores prev s = Some s.
Proof.
  induction 1 as [| c s Hc _ IH]; intros prev P; simpl.
  - now rewrite P.
  - assert (E : char_eqb c 95%N = false).
    { apply plain_cases in Hc. unfold char_eqb. apply N.eqb_neq. lia. }
    rewrite E, P. simpl. now rewrite (IH c E).
Qed.

Lemma is_special_format_plain (s : str) :
  Forall (fun c => is_plain c = true) s -> _is_special_format s = false.
Proof.
  intros H. unfold _is_special_format, wrapped_in_parentheses. simpl.
  rewrite (upper_plain s H).
  change (pystr ")") with [chr ")"]. change (pystr "-") with [chr "-"].
  rewrite !(endswith_plain s _ H) by reflexivity.
  rewrite andb_false_r. reflexivity.
Qed.

(** ** Plain decimals and the three patterns of the standard path *)

Lemma cset_match_exact (cs : cset) (c : char) :
  cset_match false cs c = cset_mem cs c.
Proof. unfold cset_match. simpl. apply orb_false_r. Qed.

Lemma covers_singletons (ic : bool) (cs : cset) (ps : list str) :
  Forall (covers ic (Chr cs)) ps -> length (concat ps) = length ps.
Proof.
  induction 1 as [| p ps (c & -> & _) _ IH]; simpl; [reflexivity | now rewrite IH].
Qed.

(** The one point of a text splits it in one way only. *)
Lemma split_at_unique (a : char) (l1 l2 l3 l4 : str) :
  ~ In a l1 -> ~ In a l2 ->
  l1 ++ a :: l2 = l3 ++ a :: l4 -> l2 = l4.
Proof.
  revert l3. induction l1 as [| x l1 IH]; intros l3 N1 N2 E.
  - destruct l3 as [| y l3]; simpl in E.
    + now inversion E.
    + inversion E; subst y. exfalso. apply N2. subst l2.
      apply in_or_app. right. now left.
  - destruct l3 as [| y l3]; simpl in E.
    + inversion E; subst x. exfalso. apply N1. now left.
    + inversion E; subst y. apply (IH l3); auto.
      intros F. apply N1. now right.
Qed.

Lemma digits_no_point (s : str) : all_digits s = true -> ~ In (chr ".") s.
Proof.
  intros H F. apply all_digits_Forall in H. rewrite Forall_forall in H.
  specialize (H _ F). discriminate H.
Qed.

(** The text [[\d,]+\.\d{3}] covers holds a point followed by three
    characters or more. *)
Lemma european_covers (p : str) :
  covers false re_european p ->
  exists q d, p = q ++ chr "." :: d /\ 3 <= length d.
Proof.
  intros (p1 & p2 & -> & (ps & -> & F1 & _) & (p3 & p4 & -> & (c & -> & M)
          & (ps' & -> & F2 & L))).
  exists (concat ps), (concat ps'). simpl.
  rewrite cset_match_exact in M. cbn [cset_mem] in M.
  unfold char_eqb in M. apply N.eqb_eq in M. subst c.
  split; [reflexivity |].
  now rewrite (covers_singletons false CDigit ps' F2).
Qed.

Lemma no_european_in_short_fraction (ip fp : str) :
  all_digits ip = true -> all_digits fp = true -> length fp < 3 ->
  forall u p s', decimal_text ip fp = u ++ p ++ s' -> ~ covers false re_european p.
Proof.
  intros I F L u p s' E C.
  apply european_covers in C. destruct C as (q & d & -> & Ld).
  unfold decimal_text in E.
  rewrite <- app_assoc in E. simpl in E. rewrite app_assoc in E.
  apply split_at_unique in E;
    [| apply digits_no_point, I | apply digits_no_point, F].
  subst fp. rewrite length_app in L. lia.
Qed.

Lemma part_of_plain (s u p s' : str) (c : char) :
  Forall (fun c => is_plain c = true) s -> s = u ++ p ++ s' -> In c p ->
  is_plain c = true.
Proof.
  intros H -> Hin. rewrite Forall_forall in H. apply H.
  apply in_or_app. right. apply in_or_app. now left.
Qed.

Lemma thousands_covers (p : str) :
  covers false re_thousands p -> In (chr ",") p.
Proof.
  intros (p1 & p2 & -> & _ & (p3 & p4 & -> & (c & -> & M) & _)).
  rewrite cset_match_exact in M. cbn [cset_mem] in M.
  unfold char_eqb in M. apply N.eqb_eq in M. subst c.
  apply in_or_app. right. now left.
Qed.

Lemma currency_symbol_covers (p : str) :
  covers false re_currency_symbol p -> exists c, In c p /\ is_plain c = false.
Proof.
  intros (c & -> & M). exists c. split; [now left |].
  rewrite cset_match_exact in M. cbn [cset_mem class re_currency_symbol] in M.
  unfold char_eqb in M. rewrite !orb_true_iff, !N.eqb_eq in M.
  destruct M as [<- | [<- | [<- | [<- | <-]]]]; reflexivity.
Qed.

Lemma normalize_currency_short_fraction (ip fp : str) :
  all_digits ip = true -> all_digits fp = true -> length fp < 3 ->
  normalize_currency (decimal_text ip fp) = decimal_text ip fp.
Proof.
  intros I F L. unfold normalize_currency.
  rewrite (search_none false re_european (decimal_text ip fp)
             (no_european_in_short_fraction ip fp I F L)).
  apply sub_unchanged. intros u p s' E C.
  apply thousands_covers in C.
  pose proof (part_of_plain _ u p s' _ (decimal_text_plain ip fp I F) E C) as P.
  discriminate P.
Qed.

Lemma no_currency_in_plain (s : str) :
  Forall (fun c => is_plain c = true) s ->
  find_currency currency_symbols s = None
  /\ sub false re_currency_symbol [] s = s.
Proof.
  intros H. split.
  - simpl. rewrite !(contains_char_plain s _ H) by reflexivity. reflexivity.
  - apply sub_unchanged. intros u p s' E C.
    apply currency_symbol_covers in C. destruct C as (c & Hin & N).
    pose proof (part_of_plain s u p s' c H E Hin). congruence.
Qed.

(** ** The float of a plain decimal *)

Lemma span_all (p : char -> bool) (s : str) :
  forallb p s = true -> span p s = (s, []).
Proof.
  induction s as [| c s IH]; simpl; [reflexivity |].
  intros H. apply andb_prop in H. destruct H as [-> H]. now rewrite IH.
Qed.

Lemma span_until (p : char -> bool) (a : str) (x : char) (b : str) :
  forallb p a = true -> p x = false -> span p (a ++ x :: b) = (a, x :: b).
Proof.
  intros A X. induction a as [| c a IH]; simpl.
  - now rewrite X.
  - simpl in A. apply andb_prop in A. destruct A as [-> A]. now rewrite IH.
Qed.

Lemma read_float_decimal (ip fp : str) :
  all_digits ip = true -> all_digits fp = true -> ip ++ fp <> [] ->
  read_float (decimal_text ip fp) = Some (decimal_value ip fp).
Proof.
  intros I F NE. unfold read_float.
  pose proof (decimal_text_plain ip fp I F) as P.
  assert (S : read_sign (decimal_text ip fp) = (false, decimal_text ip fp)).
  { destruct (decimal_text ip fp) as [| c t] eqn:E; [reflexivity |].
    inversion P as [| ? ? Pc _]. apply plain_cases in Pc. simpl.
    unfold char_eqb.
    replace (c =? 45)%N with false by (symmetry; apply N.eqb_neq; lia).
    replace (c =? 43)%N with false by (symmetry; apply N.eqb_neq; lia).
    reflexivity. }
  rewrite S.
  assert (W : forall w, match w with [] => False | x :: _ => is_plain x = false end ->
              str_eqb (lower (decimal_text ip fp)) w = false).
  { intros w Hw. destruct (decimal_text ip fp) as [| c t] eqn:E.
    - destruct ip; discriminate E.
    - destruct w as [| x w]; [contradiction |]. simpl.
      inversion P as [| ? ? Pc _]. rewrite (plain_lower c Pc).
      unfold char_eqb. replace (c =? x)%N with false; [reflexivity |].
      symmetry. apply N.eqb_neq. intros ->. congruence. }
  rewrite !W by reflexivity. cbn [orb].
  unfold decimal_text at 1.
  rewrite (span_until isdigit ip (chr ".") fp I eq_refl).
  change (is_dot (chr ".")) with true. cbn iota.
  rewrite (span_all isdigit fp F).
  destruct (ip ++ fp) as [| c t] eqn:E; [congruence |].
  cbn [read_exponent]. unfold decimal_value. rewrite E. reflexivity.
Qed.

Lemma float_of_str_decimal (ip fp : str) :
  all_digits ip = true -> all_digits fp = true -> ip ++ fp <> [] ->
  float_of_str (decimal_text ip fp) = Ret (decimal_value ip fp).
Proof.
  intros I F NE. unfold float_of_str.
  pose proof (decimal_text_plain ip fp I F) as P.
  rewrite (trim_plain isspace_numeric _ plain_not_space_numeric P).
  rewrite (drop_underscores_plain _ P 0%N eq_refl).
  now rewrite (read_float_decimal ip fp I F NE).
Qed.

(** ** The sign of a rounded float *)

Lemma sign_clear_abs (f : float) : sign_clear f -> fabs f = f.
Proof. destruct f; simpl; intros H; subst; reflexivity. Qed.

Lemma sign_clear_not_negative (f : float) :
  sign_clear f -> fltb f (float_of_int 0) = false.
Proof. destruct f; simpl; intros H; subst; reflexivity. Qed.

Lemma fabs_sign_clear (f : float) : sign_clear (fabs f).
Proof. destruct f; simpl; auto. Qed.

Lemma binary_round_aux_sign (m e : Z) (l : location) :
  sign_clear (binary_round_aux prec emax false m e l).
Proof.
  unfold binary_round_aux.
  destruct (shr_fexp prec emax m e l) as [mrs' e'].
  destruct (shr_fexp prec emax _ e' loc_Exact) as [mrs'' e''].
  destruct (shr_m mrs''); simpl; auto.
  destruct (Z.leb e'' 971); simpl; auto.
Qed.

Lemma float_of_decimal_sign (m e : Z) :
  (0 <= m)%Z -> sign_clear (float_of_decimal false m e).
Proof.
  intros M. unfold float_of_decimal.
  destruct m as [| p | p]; [reflexivity | | lia].
  destruct (Z.leb 0 e) eqn:E.
  - apply Z.leb_le in E.
    assert (0 < Z.pos p * 10 ^ e)%Z
      by (apply Z.mul_pos_pos; [lia | apply Z.pow_pos_nonneg; lia]).
    destruct (Z.pos p * 10 ^ e)%Z as [| p0 | p0] eqn:V; try lia.
    unfold binary_normalize, binary_round.
    destruct (shl_align p0 0 _) as [mz ez]. apply binary_round_aux_sign.
  - destruct (SFdiv_core_binary prec emax (Z.pos p) 0 (10 ^ (- e)) 0) as [[q e'] l].
    apply binary_round_aux_sign.
Qed.

Lemma digits_val_nonneg (ds : str) :
  all_digits ds = true -> (0 <= digits_val ds)%Z.
Proof.
  unfold digits_val.
  assert (G : forall acc, (0 <= acc)%Z -> all_digits ds = true ->
              (0 <= fold_left (fun acc c => 10 * acc + digit_val c) ds acc)%Z).
  { induction ds as [| c ds IH]; intros acc A D; cbn [fold_left]; [exact A |].
    simpl in D. apply andb_prop in D. destruct D as [Dc D].
    apply IH; [| exact D].
    unfold isdigit, in_range in Dc. apply andb_prop in Dc.
    destruct Dc as [D1 D2]. apply N.leb_le in D1. unfold digit_val. lia. }
  apply G. lia.
Qed.

Lemma all_digits_app (a b : str) :
  all_digits a = true -> all_digits b = true -> all_digits (a ++ b) = true.
Proof. unfold all_digits. intros A B. rewrite forallb_app, A, B. reflexivity. Qed.

Lemma decimal_value_sign (ip fp : str) :
  all_digits ip = true -> all_digits fp = true -> sign_clear (decimal_value ip fp).
Proof.
  intros I F. apply float_of_decimal_sign, digits_val_nonneg, all_digits_app; assumption.
Qed.

(** ** C8: the point of a plain decimal *)

(** C8.  On the plain decimal [1.2345], whose point is followed by four
    digits, the search for [[\d,]+\.\d{3}] succeeds on [1.234] (nothing
    anchors the pattern after the third digit), [normalize_currency]
    removes the point, and [parse_amount] returns 12345.0 on the standard
    path, not the literal decimal.  The text [0.0000000000001] is read as
    1.0 in the same way. *)
Theorem point_before_four_digits_is_dropped :
  search false re_european (pystr "1.2345") <> None
  /\ normalize_currency (pystr "1.2345") = pystr "12345"
  /\ parse_amount (Some (pystr "1.2345"))
     = Ret (amount_plain (float_of_int 12345) None false "standard")
  /\ float_of_int 12345 <> decimal_value (pystr "1") (pystr "2345")
  /\ parse_amount (Some (pystr "0.0000000000001"))
     = Ret (amount_plain (float_of_int 1) None false "standard").
Proof.
  split; [vm_compute; discriminate |].
  split; [vm_compute; reflexivity |].
  split; [vm_compute; reflexivity |].
  split; [vm_compute; discriminate |].
  vm_compute; reflexivity.
Qed.

(** A support of C8: the claim, read over all plain decimals, is refuted
    by the same text. *)
Lemma four_fraction_digits_lose_the_point :
  ~ (forall ip fp,
       all_digits ip = true -> all_digits fp = true ->
       0 < length ip -> length fp <> 3 ->
       parse_amount (Some (decimal_text ip fp))
       = Ret (amount_plain (decimal_value ip fp) None false "standard")).
Proof.
  intros H.
  specialize (H (pystr "1") (pystr "2345") eq_refl eq_refl).
  assert (P : parse_amount (Some (decimal_text (pystr "1") (pystr "2345")))
              = Ret (amount_plain (float_of_int 12345) None false "standard"))
    by (vm_compute; reflexivity).
  rewrite P in H.
  assert (L1 : 0 < length (pystr "1")) by (simpl; lia).
  assert (L2 : length (pystr "2345") <> 3) by (simpl; lia).
  specialize (H L1 L2). vm_compute in H. discriminate H.
Qed.

(** X21, a support of C8.  Where the point is followed by fewer than three
    digits (for example [12.45]) the code does what the claim says:
    [parse_amount] takes the standard path, [normalize_currency] keeps the
    text as it is, point included, and the value returned is the float of
    that literal. *)
Theorem short_fraction_keeps_the_point (ip fp : str) :
  all_digits ip = true -> all_digits fp = true ->
  0 < length (ip ++ fp) -> length fp < 3 ->
  _is_special_format (decimal_text ip fp) = false
  /\ normalize_currency (decimal_text ip fp) = decimal_text ip fp
  /\ float_of_str (decimal_text ip fp) = Ret (decimal_value ip fp)
  /\ parse_amount (Some (decimal_text ip fp))
     = Ret (amount_plain (decimal_value ip fp) None false "standard").
Proof.
  intros I F NE L.
  assert (NE' : ip ++ fp <> []) by (destruct (ip ++ fp); [simpl in NE; lia | discriminate]).
  pose proof (decimal_text_plain ip fp I F) as P.
  pose proof (is_special_format_plain _ P) as S.
  pose proof (normalize_currency_short_fraction ip fp I F L) as N.
  pose proof (float_of_str_decimal ip fp I F NE') as V.
  repeat split; try assumption.
  unfold parse_amount.
  replace (str_eqb (decimal_text ip fp) []) with false
    by (unfold decimal_text; now destruct ip).
  rewrite (strip_plain _ P), S, N.
  unfold _parse_normalized_amount.
  destruct (no_currency_in_plain _ P) as [C1 C2]. rewrite C1, C2, V.
  cbn [bind try_except].
  pose proof (decimal_value_sign ip fp I F) as G.
  now rewrite (sign_clear_abs _ G), (sign_clear_not_negative _ G).
Qed.

(** X21 at the text [12.45]. *)
Lemma short_fraction_keeps_the_point_witness :
  normalize_currency (pystr "12.45") = pystr "12.45"
  /\ parse_amount (Some (pystr "12.45"))
     = Ret (amount_plain (float_of_decimal false 1245 (-2)) None false "standard").
Proof.
  assert (L1 : 0 < length (pystr "12" ++ pystr "45")) by (simpl; lia).
  assert (L2 : length (pystr "45") < 3) by (simpl; lia).
  pose proof (short_fraction_keeps_the_point (pystr "12") (pystr "45")
                eq_refl eq_refl L1 L2) as (_ & N & _ & R).
  split; [exact N | exact R].
Defined.

(** ** A support of C1: the other successful paths clear the sign *)

Lemma parse_normalized_amount_sign (text : str) (a : amount) (v : float) :
  _parse_normalized_amount text = Ret a -> parsed_value a = Some v ->
  sign_clear v.
Proof.
  unfold _parse_normalized_amount.
  destruct (float_of_str _) as [f | e]; simpl.
  - intros H; inversion H; subst a. simpl. intros V; inversion V.
    apply fabs_sign_clear.
  - destruct (is_ValueError e); [| discriminate].
    intros H; inversion H; subst a. discriminate.
Qed.

Lemma guarded_attempt_sign (c : res float) (fmt : string) (a : amount) (v : float) :
  try_except
    (bind c (fun v => Ret (Some (amount_plain (fabs v) None true fmt))))
    is_ValueError (fun _ => Ret None) = Ret (Some a) ->
  parsed_value a = Some v -> is_negative a = true /\ sign_clear v.
Proof.
  destruct c as [f | e]; simpl.
  - intros H; inversion H; subst a. simpl. intros V; inversion V.
    split; [reflexivity | apply fabs_sign_clear].
  - destruct (is_ValueError e); discriminate.
Qed.

Lemma abbreviated_loop_abbreviation (items : list (char * Z)) (value : str)
    (a : amount) :
  abbreviated_loop items value = Ret (Some a) -> abbreviation a <> None.
Proof.
  induction items as [| [ab mu] items IH]; simpl; [discriminate |].
  destruct (endswith (upper value) [ab]); [| exact IH].
  destruct (float_of_str _) as [f | e]; simpl.
  - intros H; inversion H. discriminate.
  - destruct (is_ValueError e); [exact IH | discriminate].
Qed.

Lemma handle_special_formats_sign (value : str) (a : amount) (v : float) :
  handle_special_formats value = Ret a -> abbreviation a = None ->
  parsed_value a = Some v -> sign_clear v.
Proof.
  unfold handle_special_formats, or_else.
  destruct (abbreviated_loop abbreviation_multipliers value)
    as [[b |] | e] eqn:AL; simpl; [| | discriminate].
  { intros H; inversion H; subst b. intros AB.
    now apply abbreviated_loop_abbreviation in AL. }
  destruct (parentheses_attempt value) as [[b |] | e] eqn:PA; simpl;
    [| | discriminate].
  { intros H; inversion H; subst b. intros _ V.
    unfold parentheses_attempt in PA.
    destruct (wrapped_in_parentheses value); [| discriminate].
    exact (proj2 (guarded_attempt_sign _ _ _ _ PA V)). }
  destruct (trailing_attempt value) as [[b |] | e] eqn:TA; simpl;
    [| | discriminate].
  { intros H; inversion H; subst b. intros _ V.
    unfold trailing_attempt in TA.
    destruct (endswith value (pystr "-")); [| discriminate].
    exact (proj2 (guarded_attempt_sign _ _ _ _ TA V)). }
  intros H; inversion H. discriminate.
Qed.

(** Whenever [parse_amount] succeeds by another rule than the abbreviated
    suffix, the value it returns has its sign bit clear. *)
Lemma unabbreviated_amount_sign (value : option str) (a : amount) (v : float) :
  parse_amount value = Ret a -> abbreviation a = None ->
  parsed_value a = Some v -> sign_clear v.
Proof.
  unfold parse_amount. destruct value as [t |].
  2:{ intros H; inversion H. discriminate. }
  destruct (str_eqb t []).
  1:{ intros H; inversion H. discriminate. }
  destruct (_is_special_format (strip t)).
  - unfold _handle_special_formats.
    destruct (handle_special_formats (strip t)) as [b | e] eqn:HS; simpl.
    + intros H; inversion H; subst b.
      exact (handle_special_formats_sign _ _ _ HS).
    + intros H; inversion H. discriminate.
  - destruct (_parse_normalized_amount (normalize_currency (strip t)))
      as [b | e] eqn:PN; simpl.
    + intros H; inversion H; subst b. intros _ V.
      exact (parse_normalized_amount_sign _ _ _ PN V).
    + intros H; inversion H. discriminate.
Qed.

(* ===================================================================== *)
(** * Further properties *)
(* ===================================================================== *)

Import ReLang Notions Counting Amounts Abbreviations Dates Describing.

(** ** The matcher and the language of a pattern *)

Section MatcherComplete.

Variable ic : bool.
Variable subject : str.
Variable A : Type.

Lemma rep_loop_exact
    (body : str -> captures -> (str -> captures -> option A) -> option A)
    (P : str -> Prop) (k : str -> captures -> option A) :
  sound_for body P ->
  forall fuel lo hi s caps a,
    rep_loop body k fuel lo hi s caps = Some a ->
    exists ps s' caps',
      s = concat ps ++ s' /\ Forall P ps /\ lo <= length ps
      /\ within hi (length ps) /\ k s' caps' = Some a.
Proof.
  intros SB. induction fuel as [| fuel IH]; intros lo hi s caps a; simpl;
    [discriminate |].
  set (round := body s caps _).
  assert (Z : forall x, match lo with O => k s caps | S _ => None end = Some x ->
              exists ps s' caps',
                s = concat ps ++ s' /\ Forall P ps /\ lo <= length ps
                /\ within hi (length ps) /\ k s' caps' = Some x).
  { intros x E. destruct lo; [| discriminate].
    exists [], s, caps. simpl. repeat split; [constructor | lia | | exact E].
    destruct hi; simpl; [lia | exact I]. }
  assert (R : hi <> Some 0 -> forall x, round = Some x ->
              exists ps s' caps',
                s = concat ps ++ s' /\ Forall P ps /\ lo <= length ps
                /\ within hi (length ps) /\ k s' caps' = Some x).
  { intros NZ x E. apply SB in E. destruct E as (p & s1 & caps1 & -> & Pp & E).
    destruct (Nat.ltb (length s1) (length (p ++ s1))); [| discriminate].
    apply IH in E. destruct E as (ps & s' & caps' & -> & F & L & W & K).
    exists (p :: ps), s', caps'. simpl. rewrite <- app_assoc.
    repeat split; [now constructor | lia | | exact K].
    destruct hi as [[| h] |]; simpl in *; [congruence | lia | exact I]. }
  destruct hi as [[| h] |].
  - apply Z.
  - destruct round as [x |] eqn:E; [| apply Z].
    intros H. inversion H; subst x. apply R; [discriminate | reflexivity].
  - destruct round as [x |] eqn:E; [| apply Z].
    intros H. inversion H; subst x. apply R; [discriminate | reflexivity].
Qed.

Lemma run_exact (r : regex) :
  sound_for (A:=A) (run ic subject r) (lang ic r).
Proof.
  induction r as [| cs | r1 IH1 r2 IH2 | r IH lo hi | n r IH | |];
    intros s caps k a; cbn [run].
  - intros H. exists [], s, caps. simpl. auto.
  - destruct s as [| c s']; [discriminate |].
    destruct (cset_match ic cs c) eqn:E; [| discriminate].
    intros H. exists [c], s', caps. simpl. eauto.
  - intros H. apply IH1 in H. destruct H as (p1 & s1 & caps1 & -> & C1 & H).
    apply IH2 in H. destruct H as (p2 & s2 & caps2 & -> & C2 & H).
    exists (p1 ++ p2), s2, caps2. rewrite <- app_assoc. simpl. eauto 8.
  - intros H.
    apply (rep_loop_exact (run ic subject r) (lang ic r) k IH) in H.
    destruct H as (ps & s' & caps' & -> & F & L & W & K).
    exists (concat ps), s', caps'. simpl. eauto 10.
  - intros H. apply IH in H. destruct H as (p & s' & caps' & -> & C & H).
    simpl. eauto 8.
  - destruct (Nat.eqb (length s) (length subject)); [| discriminate].
    intros H. exists [], s, caps. simpl. auto.
  - destruct s as [| c [| c' s']].
    + intros H. exists [], [], caps. simpl. auto.
    + destruct (char_eqb c 10%N); [| discriminate].
      intros H. exists [], [c], caps. simpl. auto.
    + discriminate.
Qed.

Lemma rep_loop_complete
    (body : str -> captures -> (str -> captures -> option A) -> option A)
    (P : str -> Prop) (k : str -> captures -> option A) (s' : str) :
  complete_for body P ->
  (forall caps', k s' caps' <> None) ->
  forall ps, Forall (fun p => P p /\ p <> []) ps ->
  forall fuel lo hi s caps,
    s = concat ps ++ s' -> length s < fuel ->
    lo <= length ps -> within hi (length ps) ->
    rep_loop body k fuel lo hi s caps <> None.
Proof.
  intros CB K. induction 1 as [| p ps [Pp NE] _ IH];
    intros fuel lo hi s caps E F L W.
  - destruct fuel as [| fuel]; [lia |]. simpl in *. subst s.
    assert (lo = 0) by lia. subst lo.
    destruct (match hi with Some 0 => None | _ => _ end); [discriminate | apply K].
  - destruct fuel as [| fuel]; [lia |]. cbn [rep_loop].
    simpl in E. rewrite <- app_assoc in E.
    assert (M : body s caps
                  (fun s1 caps1 =>
                     if Nat.ltb (length s1) (length s)
                     then rep_loop body k fuel (pred lo) (option_map pred hi) s1 caps1
                     else None) <> None).
    { apply (CB s p (concat ps ++ s')); [exact E | exact Pp |].
      intros caps'.
      assert (LT : length (concat ps ++ s') < length s).
      { rewrite E, (length_app p). destruct p; [congruence | simpl; lia]. }
      apply Nat.ltb_lt in LT as LT'. rewrite LT'.
      apply IH; [reflexivity | lia | simpl in L; lia |].
      destruct hi as [[| h] |]; simpl in *; [lia | lia | exact I]. }
    destruct hi as [[| h] |]; [simpl in W; lia | |];
      match goal with
      | |- match ?m with Some a => Some a | None => _ end <> None =>
          destruct m; [discriminate | congruence]
      end.
Qed.

Lemma lang_nil (r : regex) : lang ic r [] -> nullable r = true.
Proof.
  induction r as [| cs | r1 IH1 r2 IH2 | r IH lo hi | n r IH | |]; simpl; auto.
  - intros (c & E & _). discriminate.
  - intros (p1 & p2 & E & L1 & L2). symmetry in E. apply app_eq_nil in E.
    destruct E; subst. now rewrite IH1, IH2.
  - intros (ps & E & F & L & _). destruct ps as [| p ps].
    + simpl in L. assert (lo = 0) by lia. subst. reflexivity.
    + simpl in E. symmetry in E. apply app_eq_nil in E. destruct E; subst.
      inversion F; subst. rewrite IH by assumption. apply orb_true_r.
Qed.

Lemma run_complete (r : regex) :
  simple r = true -> complete_for (A:=A) (run ic subject r) (lang ic r).
Proof.
  induction r as [| cs | r1 IH1 r2 IH2 | r IH lo hi | n r IH | |];
    intros S s p s' caps k E Lp K; cbn [run]; simpl in S, Lp; try discriminate.
  - subst. apply K.
  - destruct Lp as (c & -> & M). subst s. simpl. rewrite M. apply K.
  - apply andb_prop in S. destruct S as [S1 S2].
    destruct Lp as (p1 & p2 & -> & L1 & L2). rewrite <- app_assoc in E.
    apply (IH1 S1 s p1 (p2 ++ s')); [exact E | exact L1 |].
    intros caps'. apply (IH2 S2 (p2 ++ s') p2 s'); auto.
  - apply andb_prop in S. destruct S as [S1 S2]. apply negb_true_iff in S2.
    destruct Lp as (ps & -> & F & L & W).
    apply (rep_loop_complete (run ic subject r) (lang ic r) k s' (IH S1) K ps);
      auto.
    eapply Forall_impl; [| exact F]. intros q Lq. split; [exact Lq |].
    intros ->. apply lang_nil in Lq. congruence.
  - apply (IH S s p s'); auto.
Qed.

End MatcherComplete.

(** [re.match] on a simple pattern finds a match exactly when the text
    begins with a member of the pattern's language. *)
Lemma matches_iff (ic : bool) (r : regex) (s : str) :
  simple r = true ->
  matches ic r s = true <-> exists p s', s = p ++ s' /\ lang ic r p.
Proof.
  intros S. unfold matches, rmatch, match_at. split.
  - destruct (run ic s r s [] _) as [m |] eqn:E; [| discriminate]. intros _.
    apply run_exact in E. destruct E as (p & s' & caps' & E & L & _). eauto.
  - intros (p & s' & E & L).
    pose proof (run_complete ic s match_obj r S s p s' []
                  (fun s'0 caps =>
                     Some (mk_match (firstn (length s - length s'0) s) caps s'0))
                  E L) as C.
    destruct (run ic s r s [] _); [reflexivity |].
    exfalso. apply C; [discriminate | reflexivity].
Qed.

Lemma lang_erase_groups (ic : bool) (r : regex) (p : str) :
  lang ic (erase_groups r) p <-> lang ic r p.
Proof.
  revert p. induction r as [| cs | r1 IH1 r2 IH2 | r IH lo hi | n r IH | |];
    intros p; simpl; try tauto.
  - split; intros (p1 & p2 & E & L1 & L2); exists p1, p2;
      (split; [exact E |]); split; try (apply IH1; assumption);
      apply IH2; assumption.
  - split; intros (ps & E & F & L); exists ps; (split; [exact E |]);
      (split; [| exact L]); (eapply Forall_impl; [| exact F]);
      intros q; apply IH.
  - apply IH.
Qed.

Lemma simple_erase_groups (r : regex) :
  simple (erase_groups r) = simple r /\ nullable (erase_groups r) = nullable r.
Proof.
  induction r as [| cs | r1 [S1 N1] r2 [S2 N2] | r [S N] lo hi | n r [S N] | |];
    simpl; auto.
  - now rewrite S1, S2, N1, N2.
  - now rewrite S, N.
Qed.

(** Capturing parentheses do not change what [re.match] accepts. *)
Lemma matches_erase_groups (ic : bool) (r : regex) (s : str) :
  simple r = true -> matches ic (erase_groups r) s = matches ic r s.
Proof.
  intros S.
  assert (S' : simple (erase_groups r) = true)
    by (now rewrite (proj1 (simple_erase_groups r))).
  destruct (matches ic r s) eqn:M.
  - apply (matches_iff ic r s S) in M. destruct M as (p & s' & E & L).
    apply (matches_iff ic _ s S'). exists p, s'. split; [exact E |].
    exact (proj2 (lang_erase_groups ic r p) L).
  - destruct (matches ic (erase_groups r) s) eqn:M'; [| reflexivity].
    apply (matches_iff ic _ s S') in M'. destruct M' as (p & s' & E & L).
    apply (proj1 (lang_erase_groups ic r p)) in L.
    assert (matches ic r s = true)
      by (apply (matches_iff ic r s S); exists p, s'; auto).
    congruence.
Qed.

(** A text that begins with a match still does when it is extended. *)
Lemma matches_extend (ic : bool) (r : regex) (s t : str) :
  simple r = true -> matches ic r s = true -> matches ic r (s ++ t) = true.
Proof.
  intros S M. apply (matches_iff ic r s S) in M. destruct M as (p & s' & -> & L).
  apply (matches_iff ic r _ S). exists p, (s' ++ t). now rewrite app_assoc.
Qed.

(** ** What [float] reads *)

Lemma ltrim_split (sp : char -> bool) (s : str) :
  exists a, s = a ++ ltrim sp s /\ Forall (fun c => sp c = true) a.
Proof.
  induction s as [| c s (a & E & F)]; simpl.
  - exists []. auto.
  - destruct (sp c) eqn:C.
    + exists (c :: a). simpl. split; [now f_equal | now constructor].
    + exists []. auto.
Qed.

Lemma trim_split (sp : char -> bool) (s : str) :
  exists a b, s = a ++ trim sp s ++ b
              /\ Forall (fun c => sp c = true) a
              /\ Forall (fun c => sp c = true) b.
Proof.
  unfold trim, rtrim.
  destruct (ltrim_split sp s) as (a & E & Fa).
  destruct (ltrim_split sp (rev (ltrim sp s))) as (b & E' & Fb).
  exists a, (rev b). split; [| split; [exact Fa | now apply Forall_rev]].
  rewrite E at 1. f_equal.
  rewrite <- (rev_involutive (ltrim sp s)) at 1. rewrite E' at 1.
  now rewrite rev_app_distr.
Qed.

Lemma drop_underscores_keeps (s : str) :
  forall prev u c,
    drop_underscores prev s = Some u -> In c s ->
    c = 95%N \/ In c u.
Proof.
  induction s as [| x s IH]; intros prev u c; simpl; [tauto |].
  destruct (char_eqb x 95%N) eqn:X.
  - destruct (isdigit prev); [| discriminate].
    intros D [-> | H].
    + left. now apply N.eqb_eq in X.
    + eauto.
  - destruct (char_eqb prev 95%N && negb (isdigit x))%bool; [discriminate |].
    destruct (drop_underscores x s) as [v |] eqn:D; [| discriminate].
    simpl. intros E [-> | H]; inversion E; subst u.
    + right. now left.
    + destruct (IH x v c D H); [now left | right; now right].
Qed.

Lemma span_split (p : char -> bool) (s a b : str) :
  span p s = (a, b) -> s = a ++ b /\ forallb p a = true.
Proof.
  revert a b. induction s as [| c s IH]; intros a b; simpl.
  - intros E; inversion E. auto.
  - destruct (p c) eqn:C.
    + destruct (span p s) as [a' b'] eqn:S. intros E; inversion E; subst.
      destruct (IH a' b eq_refl) as [-> F]. simpl. now rewrite C, F.
    + intros E; inversion E. auto.
Qed.

Lemma str_eqb_eq (a b : str) : str_eqb a b = true -> a = b.
Proof.
  revert b. induction a as [| x a IH]; destruct b as [| y b]; simpl;
    try discriminate; auto.
  intros H. apply andb_prop in H. destruct H as [H1 H2].
  apply N.eqb_eq in H1. subst. f_equal. now apply IH.
Qed.

Lemma read_sign_split (s : str) :
  snd (read_sign s) = s
  \/ exists c, s = c :: snd (read_sign s) /\ (c = 45%N \/ c = 43%N).
Proof.
  destruct s as [| c s]; simpl; [now left |].
  destruct (char_eqb c 45%N) eqn:M.
  - right. exists c. apply N.eqb_eq in M. auto.
  - destruct (char_eqb c 43%N) eqn:P.
    + right. exists c. apply N.eqb_eq in P. auto.
    + now left.
Qed.

Lemma digit_numeric (c : char) : isdigit c = true -> numeric_char c = true.
Proof. unfold numeric_char. intros ->. now rewrite orb_true_r. Qed.

Lemma digits_numeric (s : str) :
  forallb isdigit s = true -> Forall (fun c => numeric_char c = true) s.
Proof.
  rewrite forallb_forall, Forall_forall. intros H c Hc.
  apply digit_numeric, H, Hc.
Qed.

Lemma sign_numeric (c : char) : c = 45%N \/ c = 43%N -> numeric_char c = true.
Proof. intros [-> | ->]; reflexivity. Qed.

Lemma word_numeric (t : str) (w : string) :
  lower t = pystr w ->
  forallb (fun c => existsb (char_eqb c) (pystr "einfatyn")) (pystr w) = true ->
  Forall (fun c => numeric_char c = true) t.
Proof.
  intros E W. rewrite forallb_forall in W. apply Forall_forall. intros c Hc.
  assert (In (lower_char c) (pystr w)).
  { rewrite <- E. unfold lower. now apply in_map. }
  unfold numeric_char. rewrite (W _ H). apply orb_true_r.
Qed.

Lemma read_exponent_numeric (s : str) (ex : Z) :
  read_exponent s = Some ex -> Forall (fun c => numeric_char c = true) s.
Proof.
  destruct s as [| c s]; simpl; [constructor |].
  destruct (is_e c) eqn:E; [| discriminate].
  destruct (read_sign s) as [neg t] eqn:S.
  destruct (span isdigit t) as [ds rest] eqn:D.
  destruct ds as [| d ds]; [discriminate |].
  destruct rest; [| discriminate]. intros _.
  apply span_split in D. destruct D as [-> F]. rewrite app_nil_r in S.
  constructor.
  - unfold numeric_char. unfold is_e in E. apply N.eqb_eq in E. rewrite E.
    apply orb_true_r.
  - pose proof (read_sign_split s) as R. rewrite S in R. simpl in R.
    destruct R as [<- | (x & -> & X)].
    + now apply digits_numeric.
    + constructor; [now apply sign_numeric | now apply digits_numeric].
Qed.

Lemma read_float_numeric (u : str) (f : float) :
  read_float u = Some f -> Forall (fun c => numeric_char c = true) u.
Proof.
  unfold read_float. destruct (read_sign u) as [neg t] eqn:S.
  pose proof (read_sign_split u) as R. rewrite S in R. simpl in R.
  assert (G : Forall (fun c => numeric_char c = true) t ->
              Forall (fun c => numeric_char c = true) u).
  { intros H. destruct R as [<- | (x & -> & X)]; [exact H |].
    constructor; [now apply sign_numeric | exact H]. }
  destruct (str_eqb (lower t) (pystr "inf")) eqn:I1.
  { intros _. apply G. apply str_eqb_eq in I1.
    now apply (word_numeric t "inf"). }
  destruct (str_eqb (lower t) (pystr "infinity")) eqn:I2.
  { intros _. apply G. apply str_eqb_eq in I2.
    now apply (word_numeric t "infinity"). }
  destruct (str_eqb (lower t) (pystr "nan")) eqn:I3.
  { intros _. apply G. apply str_eqb_eq in I3.
    now apply (word_numeric t "nan"). }
  cbn [orb].
  destruct (span isdigit t) as [ip r1] eqn:S1.
  apply span_split in S1. destruct S1 as [-> Fi].
  destruct (match r1 with
            | [] => ([], [])
            | c :: r1' => if is_dot c then span isdigit r1' else ([], r1)
            end) as [fp r2] eqn:S2.
  destruct (ip ++ fp) as [| y0 l0]; [discriminate |].
  destruct (read_exponent r2) as [ex |] eqn:X; [| discriminate]. intros _.
  apply read_exponent_numeric in X.
  apply G, Forall_app. split; [now apply digits_numeric |].
  destruct r1 as [| c r1']; [constructor |].
  destruct (is_dot c) eqn:D.
  - apply span_split in S2. destruct S2 as [-> Ff].
    constructor.
    + unfold is_dot in D. apply N.eqb_eq in D. now subst c.
    + apply Forall_app. split; [now apply digits_numeric | exact X].
  - inversion S2; subst. exact X.
Qed.

(** A text [float] accepts holds numeric characters only. *)
Lemma float_of_str_numeric (s : str) (f : float) :
  float_of_str s = Ret f -> Forall (fun c => numeric_char c = true) s.
Proof.
  unfold float_of_str.
  destruct (drop_underscores 0%N (trim isspace_numeric s)) as [u |] eqn:D;
    [| discriminate].
  destruct (read_float u) as [g |] eqn:R; [| discriminate]. intros _.
  apply read_float_numeric in R. rewrite Forall_forall in R.
  destruct (trim_split isspace_numeric s) as (a & b & E & Fa & Fb).
  rewrite Forall_forall in Fa, Fb. apply Forall_forall. intros c Hc.
  rewrite E in Hc. apply in_app_or in Hc. destruct Hc as [Hc | Hc].
  - unfold numeric_char. now rewrite (Fa c Hc).
  - apply in_app_or in Hc. destruct Hc as [Hc | Hc].
    + destruct (drop_underscores_keeps _ _ _ _ D Hc) as [-> | Hu];
        [reflexivity | now apply R].
    + unfold numeric_char. now rewrite (Fb c Hc).
Qed.

(** [float] rejects a text that holds a character of another kind. *)
Lemma float_of_str_rejects (s : str) (c : char) :
  In c s -> numeric_char c = false -> float_of_str s = Raise ValueError.
Proof.
  intros Hc N. destruct (float_of_str_cases s) as [[f E] | E]; [| exact E].
  apply float_of_str_numeric in E. rewrite Forall_forall in E.
  specialize (E c Hc). congruence.
Qed.

(** ** Captures, and what [re.sub] keeps *)

Section MatcherCaptures.

Variable ic : bool.
Variable subject : str.
Variable A : Type.

Lemma rep_loop_keeps
    (body : str -> captures -> (str -> captures -> option A) -> option A)
    (P : str -> Prop) (k : str -> captures -> option A) :
  keeps_captures body P ->
  forall fuel lo hi s caps a,
    rep_loop body k fuel lo hi s caps = Some a ->
    exists ps s',
      s = concat ps ++ s' /\ Forall P ps /\ lo <= length ps
      /\ within hi (length ps) /\ k s' caps = Some a.
Proof.
  intros SB. induction fuel as [| fuel IH]; intros lo hi s caps a; simpl;
    [discriminate |].
  set (round := body s caps _).
  assert (Z : forall x, match lo with O => k s caps | S _ => None end = Some x ->
              exists ps s',
                s = concat ps ++ s' /\ Forall P ps /\ lo <= length ps
                /\ within hi (length ps) /\ k s' caps = Some x).
  { intros x E. destruct lo; [| discriminate].
    exists [], s. simpl. repeat split; [constructor | lia | | exact E].
    destruct hi; simpl; [lia | exact I]. }
  assert (R : hi <> Some 0 -> forall x, round = Some x ->
              exists ps s',
                s = concat ps ++ s' /\ Forall P ps /\ lo <= length ps
                /\ within hi (length ps) /\ k s' caps = Some x).
  { intros NZ x E. apply SB in E. destruct E as (p & s1 & -> & Pp & E).
    destruct (Nat.ltb (length s1) (length (p ++ s1))); [| discriminate].
    apply IH in E. destruct E as (ps & s' & -> & F & L & W & K).
    exists (p :: ps), s'. simpl. rewrite <- app_assoc.
    repeat split; [now constructor | lia | | exact K].
    destruct hi as [[| h] |]; simpl in *; [congruence | lia | exact I]. }
  destruct hi as [[| h] |].
  - apply Z.
  - destruct round as [x |] eqn:E; [| apply Z].
    intros H. inversion H; subst x. apply R; [discriminate | reflexivity].
  - destruct round as [x |] eqn:E; [| apply Z].
    intros H. inversion H; subst x. apply R; [discriminate | reflexivity].
Qed.

Lemma run_keeps (r : regex) :
  group_free r = true ->
  keeps_captures (A:=A) (run ic subject r) (lang ic r).
Proof.
  induction r as [| cs | r1 IH1 r2 IH2 | r IH lo hi | n r IH | |];
    intros G s caps k a; cbn [run]; simpl in G; try discriminate.
  - intros H. exists [], s. simpl. auto.
  - destruct s as [| c s']; [discriminate |].
    destruct (cset_match ic cs c) eqn:E; [| discriminate].
    intros H. exists [c], s'. simpl. eauto.
  - apply andb_prop in G. destruct G as [G1 G2].
    intros H. apply (IH1 G1) in H. destruct H as (p1 & s1 & -> & C1 & H).
    apply (IH2 G2) in H. destruct H as (p2 & s2 & -> & C2 & H).
    exists (p1 ++ p2), s2. rewrite <- app_assoc. simpl. eauto 8.
  - intros H.
    apply (rep_loop_keeps (run ic subject r) (lang ic r) k (IH G)) in H.
    destruct H as (ps & s' & -> & F & L & W & K).
    exists (concat ps), s'. simpl. eauto 10.
  - destruct (Nat.eqb (length s) (length subject)); [| discriminate].
    intros H. exists [], s. simpl. auto.
  - destruct s as [| c [| c' s']].
    + intros H. exists [], []. simpl. auto.
    + destruct (char_eqb c 10%N); [| discriminate].
      intros H. exists [], [c]. simpl. auto.
    + discriminate.
Qed.

End MatcherCaptures.

Lemma firstn_app_exact (p s : str) :
  firstn (length (p ++ s) - length s) (p ++ s) = p.
Proof.
  rewrite length_app, Nat.add_sub.
  rewrite firstn_app, Nat.sub_diag, firstn_all. simpl. apply app_nil_r.
Qed.

(** A match object splits the text it was found in. *)
Lemma match_at_split ic r subject s m :
  match_at ic r subject s = Some m ->
  s = m_text m ++ m_rest m /\ lang ic r (m_text m).
Proof.
  unfold match_at. intros H. apply run_exact in H.
  destruct H as (p & s' & caps' & -> & L & E). inversion E; subst m. simpl.
  rewrite firstn_app_exact. auto.
Qed.

(** The two groups of a pattern [(a)c(b)]. *)
Lemma match_at_two_groups ic (a b : regex) (cs : cset) subject s m :
  group_free a = true -> group_free b = true ->
  match_at ic (Seq (Group 1 a) (Seq (Chr cs) (Group 2 b))) subject s = Some m ->
  exists c,
    m_text m = group m 1 ++ c :: group m 2
    /\ cset_match ic cs c = true
    /\ lang ic a (group m 1) /\ lang ic b (group m 2)
    /\ s = m_text m ++ m_rest m.
Proof.
  intros Ga Gb. unfold match_at. cbn [run]. intros H.
  apply (run_keeps ic subject match_obj a Ga) in H.
  destruct H as (p1 & s1 & -> & L1 & H).
  rewrite firstn_app_exact in H.
  destruct s1 as [| c s2]; [discriminate |].
  destruct (cset_match ic cs c) eqn:C; [| discriminate].
  apply (run_keeps ic subject match_obj b Gb) in H.
  destruct H as (p2 & s3 & -> & L2 & H).
  rewrite firstn_app_exact in H. inversion H; subst m. clear H.
  exists c. unfold group. simpl.
  replace (p1 ++ c :: p2 ++ s3) with ((p1 ++ c :: p2) ++ s3)
    by (rewrite <- app_assoc; reflexivity).
  rewrite firstn_app_exact. auto.
Qed.

(** [re.sub] keeps the characters [keep] selects when every replacement
    does. *)
Lemma sub_keeps (keep : char -> bool) ic r tpl s :
  (forall t m, match_at ic r s t = Some m ->
               filter keep (expand tpl m) = filter keep (m_text m)) ->
  filter keep (sub ic r tpl s) = filter keep s.
Proof.
  intros H. unfold sub. generalize (S (length s)) as fuel.
  assert (G : forall fuel t, filter keep (sub_loop ic r tpl s fuel t) = filter keep t).
  { induction fuel as [| fuel IH]; intros t; simpl; [reflexivity |].
    assert (St : filter keep
                   match t with
                   | [] => []
                   | c :: s' => c :: sub_loop ic r tpl s fuel s'
                   end = filter keep t).
    { destruct t as [| c t]; [reflexivity |]. simpl. rewrite IH. reflexivity. }
    destruct (match_at ic r s t) as [m |] eqn:M; [| exact St].
    pose proof (H t m M) as K.
    apply match_at_split in M. destruct M as [E _].
    destruct (m_text m) as [| x tx] eqn:T.
    - rewrite filter_app, K. exact St.
    - rewrite filter_app, K, IH. rewrite E. now rewrite filter_app. }
  intros fuel. apply G.
Qed.

Lemma replace_char_keeps (s : str) :
  without_separators (replace_char (chr ",") (pystr ".") s) = without_separators s.
Proof.
  unfold without_separators, replace_char.
  induction s as [| c s IH]; [reflexivity |].
  cbn [flat_map]. rewrite filter_app, IH.
  destruct (char_eqb c (chr ",")) eqn:C.
  - apply N.eqb_eq in C. subst c. reflexivity.
  - cbn [filter app]. destruct (negb (is_separator c)); reflexivity.
Qed.

Lemma separated_groups_keep (a b : regex) (sep : char) (subject : str) :
  group_free a = true -> group_free b = true -> is_separator sep = true ->
  forall t m,
    match_at false (Seq (Group 1 a) (Seq (Chr (CChar sep)) (Group 2 b))) subject t
    = Some m ->
    filter (fun c => negb (is_separator c)) (expand tpl_1_2 m)
    = filter (fun c => negb (is_separator c)) (m_text m).
Proof.
  intros Ga Gb Sp t m M.
  apply match_at_two_groups in M; [| assumption | assumption].
  destruct M as (c & E & C & _).
  rewrite cset_match_exact in C. cbn [cset_mem] in C.
  unfold char_eqb in C. apply N.eqb_eq in C. subst c.
  rewrite E. unfold expand, tpl_1_2. simpl. rewrite app_nil_r, !filter_app.
  simpl. now rewrite Sp.
Qed.

(** [normalize_currency] touches commas and points only: the rest of the
    text stays, character by character. *)
Lemma normalize_currency_keeps (value : str) :
  without_separators (normalize_currency value) = without_separators value.
Proof.
  unfold normalize_currency, without_separators.
  assert (T : forall s,
             filter (fun c => negb (is_separator c)) (sub false re_thousands tpl_1_2 s)
             = filter (fun c => negb (is_separator c)) s).
  { intros s. apply sub_keeps.
    apply (separated_groups_keep digit (times 3 digit) (chr ",") s);
      reflexivity. }
  destruct (search false re_european value).
  - rewrite T. fold (without_separators
                       (replace_char (chr ",") (pystr ".")
                          (sub false re_grouping_dot tpl_1_2 value))).
    rewrite replace_char_keeps. unfold without_separators.
    apply sub_keeps.
    apply (separated_groups_keep (plus digit) (times 3 digit) (chr ".") value);
      reflexivity.
  - apply T.
Qed.

(** ** X1: [normalize_currency] touches separators only *)

(** X1.  [normalize_currency] removes or rewrites commas and points and
    nothing else: with the commas and points taken out, the text it returns
    is the text it was given. *)
Theorem normalize_currency_touches_separators_only (value : str) :
  without_separators (normalize_currency value) = without_separators value.
Proof. apply normalize_currency_keeps. Qed.

(** ** X2: a currency symbol inside a special format *)

Lemma normalize_currency_keeps_char (value : str) (c : char) :
  In c value -> is_separator c = false -> In c (normalize_currency value).
Proof.
  intros Hc Sc.
  assert (In c (without_separators value)).
  { unfold without_separators. apply filter_In. now rewrite Sc. }
  rewrite <- normalize_currency_keeps in H.
  unfold without_separators in H. now apply filter_In in H.
Qed.

Lemma currency_symbol_cases (c : char) :
  is_currency_symbol c = true ->
  c = DOLLAR \/ c = EURO \/ c = RUPEE \/ c = POUND \/ c = YEN.
Proof.
  unfold is_currency_symbol, currency_symbols. cbn [existsb fst].
  unfold char_eqb. rewrite !orb_true_iff, !N.eqb_eq.
  intuition (try discriminate; auto).
Qed.

(** Case analysis on a currency symbol. *)
Ltac each_symbol H :=
  apply currency_symbol_cases in H;
  destruct H as [H | [H | [H | [H | H]]]]; subst.

Lemma currency_symbol_not_numeric (c : char) :
  is_currency_symbol c = true ->
  numeric_char c = false /\ is_separator c = false /\ upper_char c = c.
Proof. intros H. each_symbol H; repeat split; reflexivity. Qed.

Lemma nonempty_last (s : str) :
  s <> [] -> exists t x, s = t ++ [x].
Proof.
  intros H. exists (removelast s), (last s 0%N). now apply app_removelast_last.
Qed.

Lemma abbreviated_loop_skips (items : list (char * Z)) (value : str) :
  (forall kv, In kv items -> endswith (upper value) [fst kv] = true ->
     float_of_str (if Nat.ltb 1 (length value) then drop_last value else value)
     = Raise ValueError) ->
  abbreviated_loop items value = Ret None.
Proof.
  induction items as [| [abbrev mult] items IH]; intros H; simpl; [reflexivity |].
  destruct (endswith (upper value) [abbrev]) eqn:E.
  - rewrite (H (abbrev, mult) (or_introl eq_refl) E). simpl.
    apply IH. intros kv Hkv. apply H. now right.
  - apply IH. intros kv Hkv. apply H. now right.
Qed.

Lemma in_app_last_ne (t : str) (x c : char) :
  In c (t ++ [x]) -> c <> x -> In c t.
Proof.
  intros H N. apply in_app_or in H. destruct H as [H | [H | []]]; congruence.
Qed.

Lemma symbol_fails_abbreviation (value : str) (c : char) :
  In c value -> is_currency_symbol c = true ->
  abbreviated_loop abbreviation_multipliers value = Ret None.
Proof.
  intros Hc Sc. apply abbreviated_loop_skips. intros kv Hkv E.
  destruct (currency_symbol_not_numeric c Sc) as (N & _ & U).
  destruct value as [| v0 value]; [contradiction |].
  destruct (nonempty_last (v0 :: value)) as (t & x & Ex); [discriminate |].
  rewrite Ex in *. rewrite upper_app_last, endswith_app_last in E.
  assert (NX : c <> x).
  { intros ->. rewrite U in E.
    simpl in Hkv.
    destruct Hkv as [<- | [<- | [<- | [<- | []]]]]; simpl in E;
      each_symbol Sc; discriminate E. }
  pose proof (in_app_last_ne t x c Hc NX) as Ht.
  replace (Nat.ltb 1 (length (t ++ [x]))) with true.
  - unfold drop_last. rewrite removelast_last.
    now apply (float_of_str_rejects t c).
  - symmetry. apply Nat.ltb_lt. rewrite length_app. simpl.
    destruct t; [contradiction | simpl; lia].
Qed.

Lemma symbol_fails_parentheses (value : str) (c : char) :
  In c value -> is_currency_symbol c = true ->
  parentheses_attempt value = Ret None.
Proof.
  intros Hc Sc. unfold parentheses_attempt, wrapped_in_parentheses.
  destruct (startswith value (pystr "(") && endswith value (pystr ")"))%bool
    eqn:W; [| reflexivity].
  apply andb_prop in W. destruct W as [W1 W2].
  destruct (currency_symbol_not_numeric c Sc) as (N & Sp & _).
  rewrite (float_of_str_rejects (normalize_currency (strip_ends value)) c);
    [reflexivity | | exact N].
  apply normalize_currency_keeps_char; [| exact Sp].
  destruct value as [| v0 value]; [discriminate |].
  change (pystr "(") with [chr "("] in W1. cbn [startswith] in W1.
  apply andb_prop in W1. destruct W1 as [W1 _].
  apply N.eqb_eq in W1. subst v0. unfold strip_ends. cbn [tl].
  destruct Hc as [<- | Hc]; [each_symbol Sc; discriminate |].
  destruct (nonempty_last value) as (t & x & ->).
  { intros ->. discriminate W2. }
  rewrite removelast_last.
  apply (in_app_last_ne t x c Hc).
  change (pystr ")") with [chr ")"] in W2.
  change (chr "(" :: t ++ [x]) with ((chr "(" :: t) ++ [x]) in W2.
  rewrite endswith_app_last in W2. apply N.eqb_eq in W2. subst x.
  intros ->. each_symbol Sc; discriminate.
Qed.

Lemma symbol_fails_trailing (value : str) (c : char) :
  In c value -> is_currency_symbol c = true ->
  trailing_attempt value = Ret None.
Proof.
  intros Hc Sc. unfold trailing_attempt.
  destruct (endswith value (pystr "-")) eqn:W; [| reflexivity].
  destruct (currency_symbol_not_numeric c Sc) as (N & Sp & _).
  rewrite (float_of_str_rejects (normalize_currency (drop_last value)) c);
    [reflexivity | | exact N].
  apply normalize_currency_keeps_char; [| exact Sp].
  destruct (nonempty_last value) as (t & x & ->).
  { intros ->. discriminate W. }
  unfold drop_last. rewrite removelast_last.
  apply (in_app_last_ne t x c Hc).
  change (pystr "-") with [chr "-"] in W.
  rewrite endswith_app_last in W. apply N.eqb_eq in W. subst x.
  intros ->. each_symbol Sc; discriminate.
Qed.

(** X2.  A text that [parse_amount] takes for a special format (it ends in
    K, M, B or T, or is wrapped in parentheses, or ends in a minus sign)
    and that holds one of the five currency symbols is never parsed: the
    outcome is the error [Unrecognized special format].  So [($500)] and
    [$2K] are rejected although [$500] is accepted. *)
Theorem currency_symbol_in_special_format_is_rejected (value : str) (c : char) :
  _is_special_format (strip value) = true ->
  In c (strip value) -> is_currency_symbol c = true ->
  parse_amount (Some value)
  = Ret (amount_error (Unrecognized_special_format (strip value)) None).
Proof.
  intros S Hc Sc. unfold parse_amount.
  replace (str_eqb value []) with false
    by (destruct value; [discriminate S | reflexivity]).
  rewrite S. unfold _handle_special_formats, handle_special_formats, or_else.
  rewrite (symbol_fails_abbreviation _ c Hc Sc),
          (symbol_fails_parentheses _ c Hc Sc),
          (symbol_fails_trailing _ c Hc Sc).
  reflexivity.
Qed.

(** X2 at the text [($500)]. *)
Lemma currency_symbol_in_special_format_is_rejected_witness :
  _is_special_format (strip (pystr "($500)")) = true
  /\ In DOLLAR (strip (pystr "($500)"))
  /\ is_currency_symbol DOLLAR = true
  /\ parse_amount (Some (pystr "($500)"))
     = Ret (amount_error (Unrecognized_special_format (strip (pystr "($500)")))
              None).
Proof.
  split; [reflexivity |]. split; [right; left; reflexivity |].
  split; [reflexivity |].
  exact (currency_symbol_in_special_format_is_rejected (pystr "($500)") DOLLAR
           eq_refl (or_intror (or_introl eq_refl)) eq_refl).
Defined.

(** ** X3: numeric text is read as an Excel serial date first *)

Lemma parse_excel_serial_date_returns (value : str) :
  exists d, _parse_excel_serial_date value = Ret d
            /\ plain_origin "excel_serial" d.
Proof.
  unfold _parse_excel_serial_date. apply try_except_Exception_inv.
  - intros d H. bind_inv H. injection H as <-. split; reflexivity.
  - intros e. split; reflexivity.
Qed.

Lemma excel_serial_first (du : str -> option datetime) (v : str) (f : float) :
  v <> [] ->
  float_of_str (strip v) = Ret f ->
  (fleb (float_of_int 1) f && fleb f (float_of_int 100000))%bool = true ->
  parse_date du (Some v) = _parse_excel_serial_date (strip v).
Proof.
  intros NE F R. unfold parse_date.
  replace (str_eqb v []) with false by (destruct v; [contradiction | reflexivity]).
  unfold _is_excel_serial_date. rewrite F. cbn [bind try_except]. rewrite R.
  destruct (parse_excel_serial_date_returns (strip v)) as (d & -> & _).
  reflexivity.
Qed.

(** X3.  A text that [float] reads as a number between 1 and 100000 is
    always handled as an Excel serial date by [parse_date]: the result is
    the one of [_parse_excel_serial_date], tagged [excel_serial], and
    neither the free-form parser nor the date patterns are consulted.  A
    year such as [2024] or an amount such as [1500] is so read as a day of
    the 1900s. *)
Theorem numeric_text_is_read_as_excel_serial
    (du : str -> option datetime) (v : str) (f : float) :
  v <> [] ->
  float_of_str (strip v) = Ret f ->
  (fleb (float_of_int 1) f && fleb f (float_of_int 100000))%bool = true ->
  parse_date du (Some v) = _parse_excel_serial_date (strip v)
  /\ exists d, parse_date du (Some v) = Ret d
               /\ d_format d = Some "excel_serial".
Proof.
  intros NE F R. split; [now apply (excel_serial_first du v f) |].
  rewrite (excel_serial_first du v f NE F R).
  destruct (parse_excel_serial_date_returns (strip v)) as (d & E & Fm & _).
  now exists d.
Qed.

(** X3 at the text [2024], with a free-form parser that would read it as
    the first day of that year. *)
Lemma numeric_text_is_read_as_excel_serial_witness :
  let du := fun _ : str => Some (mk_datetime 2024 1 1) in
  parse_date du (Some (pystr "2024")) = _parse_excel_serial_date (strip (pystr "2024"))
  /\ exists d, parse_date du (Some (pystr "2024")) = Ret d
               /\ d_format d = Some "excel_serial".
Proof.
  intros du.
  refine (numeric_text_is_read_as_excel_serial du (pystr "2024")
            (float_of_int 2024) _ _ _).
  - discriminate.
  - vm_compute. reflexivity.
  - vm_compute. reflexivity.
Defined.

(** ** X4: the tags [parse_date] can give *)

Lemma first_pattern_none (patterns : list (string * regex)) (text : str) :
  first_pattern patterns text = None ->
  forall name r, In (name, r) patterns -> rmatch true r text = None.
Proof.
  induction patterns as [| [n r] patterns IH]; simpl; [contradiction |].
  destruct (rmatch true r text) eqn:E; [discriminate |].
  intros H name r' [I | I]; [injection I as _ <-; exact E | eauto].
Qed.

Lemma parse_date_pattern_origin (name : string) (m : match_obj) (v : str) :
  exists d, _parse_date_pattern name m v = Ret d /\ plain_origin name d.
Proof.
  unfold _parse_date_pattern. apply try_except_Exception_inv.
  - intros d H.
    repeat match type of H with
           | (if ?c then _ else _) = _ => destruct c
           end;
      bind_inv H; injection H as <-; split; reflexivity.
  - intros e. split; reflexivity.
Qed.

Lemma plain_origin_live (fmt : string) (d : date) :
  fmt <> "month_year" -> fmt <> "DD/MM/YYYY" -> plain_origin fmt d ->
  live_tags d.
Proof.
  intros N1 N2 [F Q]. repeat split.
  - rewrite F. congruence.
  - rewrite F. congruence.
  - rewrite Q. congruence.
Qed.

Lemma parse_quarter_format_origin (value : str) :
  rmatch true re_quarter value = None ->
  exists d, _parse_quarter_format value = Ret d /\ live_tags d.
Proof.
  intros N. unfold _parse_quarter_format. rewrite N.
  apply try_except_Exception_inv.
  - intros d H. destruct (rmatch true re_quarter_short value).
    + bind_inv H. injection H as <-. repeat split; simpl; congruence.
    + injection H as <-. repeat split; simpl; congruence.
  - intros e. repeat split; simpl; congruence.
Qed.

Lemma word_year_is_month_year (text : str) :
  rmatch true re_month_year text = None ->
  rmatch true re_word_year text = None.
Proof.
  intros N.
  pose proof (matches_erase_groups true re_month_year text eq_refl) as M.
  change (erase_groups re_month_year) with re_word_year in M.
  unfold matches in M. rewrite N in M.
  destruct (rmatch true re_word_year text); [discriminate | reflexivity].
Qed.

(** The name the loop over the pattern table stops at is never
    [DD/MM/YYYY]: the entry [MM/DD/YYYY] before it has the same pattern. *)
Lemma first_pattern_live (text : str) (name : string) (m : match_obj) :
  first_pattern FormatParser.date_patterns text = Some (name, m) ->
  In name ["MM/DD/YYYY"; "YYYY-MM-DD"; "DD-MON-YYYY"; "Quarter"; "Month-Year"].
Proof.
  unfold FormatParser.date_patterns. cbn [first_pattern].
  destruct (rmatch true re_slash_date text);
    [intros H; injection H as <- _; simpl; tauto |].
  destruct (rmatch true re_iso_date text);
    [intros H; injection H as <- _; simpl; tauto |].
  destruct (rmatch true re_dd_mon_yyyy text);
    [intros H; injection H as <- _; simpl; tauto |].
  destruct (rmatch true re_quarter text);
    [intros H; injection H as <- _; simpl; tauto |].
  destruct (rmatch true re_month_year text);
    [intros H; injection H as <- _; simpl; tauto |].
  discriminate.
Qed.

(** X4.  Whatever the input and the free-form parser, the dictionary
    [parse_date] returns is never tagged [month_year] or [DD/MM/YYYY], and
    it holds a quarter only when it is tagged [quarter_short]: the rule
    for a month name followed by a year, the day-first reading of a date
    with slashes and the rule for [Q1 2024] are never the ones that
    produce the result, since an earlier entry of the pattern table
    catches their texts. *)
Theorem parse_date_dead_rules
    (du : str -> option datetime) (value : option str) :
  exists d, parse_date du value = Ret d
            /\ d_format d <> Some "month_year"
            /\ d_format d <> Some "DD/MM/YYYY"
            /\ (d_quarter d <> None -> d_format d = Some "quarter_short").
Proof.
  change (exists d, parse_date du value = Ret d /\ live_tags d).
  unfold parse_date. destruct value as [v |].
  2: { eexists. split; [reflexivity |]. repeat split; simpl; congruence. }
  destruct (str_eqb v []).
  { eexists. split; [reflexivity |]. repeat split; simpl; congruence. }
  apply try_except_Exception_inv.
  2: { intros e. repeat split; simpl; congruence. }
  intros d H. apply bind_Ret_inv in H. destruct H as (excel & _ & H).
  destruct excel.
  { destruct (parse_excel_serial_date_returns (strip v)) as (d' & E & O).
    rewrite E in H. injection H as <-.
    apply (plain_origin_live "excel_serial"); [discriminate | discriminate | exact O]. }
  destruct (du (strip v)).
  { injection H as <-. repeat split; simpl; congruence. }
  destruct (first_pattern FormatParser.date_patterns (strip v))
    as [[name m] |] eqn:FP.
  { destruct (parse_date_pattern_origin name m (strip v)) as (d' & E & O).
    rewrite E in H. injection H as <-.
    apply first_pattern_live in FP.
    apply (plain_origin_live name); [| | exact O];
      intros ->; simpl in FP;
      repeat (destruct FP as [FP | FP]; [discriminate FP |]); contradiction. }
  pose proof (first_pattern_none _ _ FP) as NP.
  destruct (contains_char (chr "Q") (upper (strip v))).
  { destruct (parse_quarter_format_origin (strip v)) as (d' & E & O).
    - apply (NP "Quarter"). simpl. tauto.
    - rewrite E in H. now injection H as <-. }
  rewrite word_year_is_month_year in H.
  - injection H as <-. repeat split; simpl; congruence.
  - apply (NP "Month-Year"). simpl. tauto.
Qed.

(** ** Scores: the two ends of the scale *)

Lemma div_eucl_exact (a b : Z) :
  (0 < b)%Z -> Z.div_eucl (a * b) b = (a, 0%Z).
Proof.
  intros B.
  pose proof (Z.div_mul a b ltac:(lia)) as D.
  pose proof (Z.mod_mul a b ltac:(lia)) as M.
  unfold Z.div, Z.modulo in D, M.
  destruct (Z.div_eucl (a * b) b) as [q r]. simpl in D, M. now subst.
Qed.

(** [n / n] is 1.0. *)
Lemma float_of_ratio_all (n : Z) : (0 < n)%Z -> float_of_ratio n n = f1.
Proof.
  intros N. destruct n as [| p | p]; try lia.
  unfold float_of_ratio, SFdiv_core_binary.
  cbn [Z.abs]. rewrite !Z.add_0_r, !Z.sub_diag.
  change (Z.min (fexp prec emax 0) 0)%Z with (-53)%Z.
  change (0 - -53)%Z with 53%Z. cbv iota beta.
  rewrite Z.shiftl_mul_pow2 by lia.
  rewrite (Z.mul_comm (Z.pos p)), div_eucl_exact by lia.
  replace (new_location (Z.pos p) 0) with loc_Exact.
  - vm_compute. reflexivity.
  - unfold new_location, new_location_even, new_location_odd.
    destruct (Z.even (Z.pos p)); reflexivity.
Qed.

Lemma score_all (n : Z) : (0 < n)%Z -> score n n = f1.
Proof.
  intros N. unfold score. replace (Z.ltb 0 n) with true by (symmetry; now apply Z.ltb_lt).
  now apply float_of_ratio_all.
Qed.

Lemma score_none (n : Z) : score 0 n = f0.
Proof. unfold score. destruct (Z.ltb 0 n); reflexivity. Qed.

(** ** The two loops count *)

Lemma count_if_cons (f : str -> bool) (v : str) (vs : list str) :
  count_if f (v :: vs) = ((if f v then 1 else 0) + count_if f vs)%Z.
Proof.
  unfold count_if. cbn [filter]. destruct (f v); cbn [length]; lia.
Qed.

Lemma date_loop_counts (values : list str) :
  forallb (fun v => negb (reads_as_infinity v)) values = true ->
  forall acc, date_loop values acc = Ret (acc + count_if counts_as_date values)%Z.
Proof.
  induction values as [| v vs IH]; intros H acc.
  - cbn [date_loop]. unfold count_if. simpl. f_equal. lia.
  - cbn [forallb] in H. apply andb_prop in H. destruct H as [Hv H].
    apply negb_true_iff in Hv.
    destruct (is_serial_date_returns v Hv) as [b E].
    assert (C : counts_as_date v
                = if b then true else matches_date_pattern (strip v)).
    { unfold counts_as_date. rewrite E. now destruct b. }
    cbn [date_loop]. rewrite count_if_cons, C, E. cbn [bind].
    destruct b; [| destruct (matches_date_pattern (strip v))];
      rewrite (IH H); apply f_equal; lia.
Qed.

Lemma number_loop_counts (values : list str) :
  forall acc,
    number_loop values acc = Ret (acc + count_if counts_as_number values)%Z.
Proof.
  induction values as [| v vs IH]; intros acc.
  - cbn [number_loop]. unfold count_if. simpl. f_equal. lia.
  - destruct (parses_as_number_returns (strip v)) as [b E].
    assert (C : counts_as_number v
                = (negb (matches_date_pattern (strip v))
                   && (if b then true
                       else match rmatch true re_abbreviated (strip v) with
                            | Some _ => true
                            | None => false
                            end))%bool).
    { unfold counts_as_number, matches. rewrite E. now destruct b. }
    cbn [number_loop]. rewrite count_if_cons, C, E.
    destruct (matches_date_pattern (strip v)); cbn [negb andb bind].
    + rewrite IH. apply f_equal. lia.
    + destruct b; [| destruct (rmatch true re_abbreviated (strip v))];
        rewrite IH; apply f_equal; lia.
Qed.

(** [analyze_column] in terms of the two counts. *)
Lemma analyze_column_by_counts (data : list (option str)) :
  dropna data <> [] ->
  forallb (fun v => negb (reads_as_infinity v)) (dropna data) = true ->
  analyze_column data
  = Ret (verdict (dropna data)
           (label_of (count_if counts_as_date (dropna data))
                     (count_if counts_as_number (dropna data))
                     (Z.of_nat (length (dropna data))))).
Proof.
  intros NE H. unfold analyze_column, _detect_date_format, _detect_number_format.
  rewrite (date_loop_counts _ H), number_loop_counts.
  destruct (dropna data) as [| v vs] eqn:E; [congruence |].
  cbn [length Nat.eqb bind]. rewrite !Z.add_0_l. unfold label_of.
  destruct (fltb f05 (score (count_if counts_as_date (v :: vs)) _));
    [reflexivity |].
  destruct (fltb f05 (score (count_if counts_as_number (v :: vs)) _));
    reflexivity.
Qed.

Lemma count_if_all (f : str -> bool) (values : list str) :
  forallb f values = true -> count_if f values = Z.of_nat (length values).
Proof.
  intros H. unfold count_if. f_equal.
  induction values as [| v vs IH]; [reflexivity |].
  cbn [forallb] in H. apply andb_prop in H. destruct H as [Hv H].
  cbn [filter]. rewrite Hv. cbn [length]. now rewrite IH.
Qed.

Lemma count_if_none (f : str -> bool) (values : list str) :
  forallb (fun v => negb (f v)) values = true -> count_if f values = 0%Z.
Proof.
  intros H. unfold count_if.
  induction values as [| v vs IH]; [reflexivity |].
  cbn [forallb] in H. apply andb_prop in H. destruct H as [Hv H].
  apply negb_true_iff in Hv. cbn [filter]. rewrite Hv. now apply IH.
Qed.

Lemma counted_date_is_finite (v : str) :
  counts_as_date v = true -> reads_as_infinity v = false.
Proof.
  unfold counts_as_date, reads_as_infinity, is_serial_date.
  destruct (float_of_str (strip v)) as [f | e]; [| reflexivity].
  destruct f; try reflexivity. cbn. discriminate.
Qed.

Lemma length_pos (A : Type) (l : list A) : l <> [] -> (0 < Z.of_nat (length l))%Z.
Proof. destruct l; [congruence | simpl; lia]. Qed.

Lemma counted_dates_verdict (data : list (option str)) :
  dropna data <> [] ->
  forallb counts_as_date (dropna data) = true ->
  analyze_column data = Ret (verdict (dropna data) "date").
Proof.
  intros NE H.
  rewrite analyze_column_by_counts; [| exact NE |].
  - rewrite (count_if_all _ _ H). unfold label_of.
    rewrite score_all by now apply length_pos. reflexivity.
  - apply forallb_forall. intros v Hv.
    apply negb_true_iff, counted_date_is_finite.
    now apply (proj1 (forallb_forall _ _) H).
Qed.

(** X5.  When every value of a sample is one the date score counts (an
    integer between 1000 and 73050, or a text that begins like a date), the
    column is classified [date] with confidence 1.0, whatever the number
    score: a column of amounts such as 1500, 2500, 73000 is a date
    column. *)
Theorem unanimous_dates_give_date (data : list (option str)) :
  dropna data <> [] ->
  forallb counts_as_date (dropna data) = true ->
  analyze_column data = Ret (verdict (dropna data) "date").
Proof. apply counted_dates_verdict. Qed.

(** X5 at a column of three amounts. *)
Lemma unanimous_dates_give_date_witness :
  let data := [Some (pystr "1500"); None; Some (pystr "2500"); Some (pystr "73000")] in
  dropna data <> []
  /\ forallb counts_as_date (dropna data) = true
  /\ analyze_column data = Ret (verdict (dropna data) "date").
Proof.
  intros data.
  assert (NE : dropna data <> []) by discriminate.
  assert (H : forallb counts_as_date (dropna data) = true)
    by (vm_compute; reflexivity).
  exact (conj NE (conj H (unanimous_dates_give_date data NE H))).
Defined.

(** X6.  When no value of a sample is counted by the date score, none reads
    as an infinity and every value is counted by the number score, the
    column is classified [number] with confidence 1.0. *)
Theorem unanimous_numbers_give_number (data : list (option str)) :
  dropna data <> [] ->
  forallb (fun v => negb (reads_as_infinity v)) (dropna data) = true ->
  forallb (fun v => negb (counts_as_date v)) (dropna data) = true ->
  forallb counts_as_number (dropna data) = true ->
  analyze_column data = Ret (verdict (dropna data) "number").
Proof.
  intros NE F D N.
  rewrite (analyze_column_by_counts data NE F).
  rewrite (count_if_none _ _ D), (count_if_all _ _ N). unfold label_of.
  rewrite score_none, score_all by now apply length_pos. reflexivity.
Qed.

(** X6 at a column of three amounts. *)
Lemma unanimous_numbers_give_number_witness :
  let data := [Some (pystr "$150.50"); Some (pystr "(250)"); Some (pystr "2.5M")] in
  dropna data <> []
  /\ forallb (fun v => negb (reads_as_infinity v)) (dropna data) = true
  /\ forallb (fun v => negb (counts_as_date v)) (dropna data) = true
  /\ forallb counts_as_number (dropna data) = true
  /\ analyze_column data = Ret (verdict (dropna data) "number").
Proof.
  intros data.
  assert (NE : dropna data <> []) by discriminate.
  assert (F : forallb (fun v => negb (reads_as_infinity v)) (dropna data) = true)
    by (vm_compute; reflexivity).
  assert (D : forallb (fun v => negb (counts_as_date v)) (dropna data) = true)
    by (vm_compute; reflexivity).
  assert (N : forallb counts_as_number (dropna data) = true)
    by (vm_compute; reflexivity).
  exact (conj NE (conj F (conj D (conj N
           (unanimous_numbers_give_number data NE F D N))))).
Defined.

(** X7.  When the values of a sample are texts of the Basic Latin block,
    none of them is counted by the date score or by the number score, and
    none reads as an infinity, the column is classified [string] with
    confidence 1.0. *)
Theorem uncounted_values_give_string (data : list (option str)) :
  dropna data <> [] ->
  forallb basic_latin (dropna data) = true ->
  forallb (fun v => negb (reads_as_infinity v)) (dropna data) = true ->
  forallb (fun v => negb (counts_as_date v)) (dropna data) = true ->
  forallb (fun v => negb (counts_as_number v)) (dropna data) = true ->
  analyze_column data = Ret (verdict (dropna data) "string").
Proof.
  intros NE _ F D N.
  rewrite (analyze_column_by_counts data NE F).
  rewrite (count_if_none _ _ D), (count_if_none _ _ N). unfold label_of.
  rewrite score_none. reflexivity.
Qed.

(** X7 at a column of two names. *)
Lemma uncounted_values_give_string_witness :
  let data := [Some (pystr "Acme Corp"); Some (pystr "Globex")] in
  dropna data <> []
  /\ forallb basic_latin (dropna data) = true
  /\ forallb (fun v => negb (reads_as_infinity v)) (dropna data) = true
  /\ forallb (fun v => negb (counts_as_date v)) (dropna data) = true
  /\ forallb (fun v => negb (counts_as_number v)) (dropna data) = true
  /\ analyze_column data = Ret (verdict (dropna data) "string").
Proof.
  intros data.
  assert (NE : dropna data <> []) by discriminate.
  assert (B : forallb basic_latin (dropna data) = true)
    by (vm_compute; reflexivity).
  assert (F : forallb (fun v => negb (reads_as_infinity v)) (dropna data) = true)
    by (vm_compute; reflexivity).
  assert (D : forallb (fun v => negb (counts_as_date v)) (dropna data) = true)
    by (vm_compute; reflexivity).
  assert (N : forallb (fun v => negb (counts_as_number v)) (dropna data) = true)
    by (vm_compute; reflexivity).
  exact (conj NE (conj B (conj F (conj D (conj N
           (uncounted_values_give_string data NE B F D N)))))).
Defined.

(** ** The date patterns of the detector need a separator *)

Lemma separator_not_letter (c : char) :
  date_separator c = true -> (c < 65 \/ 122 < c)%N.
Proof.
  unfold date_separator, isspace, in_range, char_eqb, chr. simpl N_of_ascii.
  rewrite !orb_true_iff, !andb_true_iff, !N.eqb_eq, !N.leb_le. lia.
Qed.

Lemma case_of_separator (c : char) :
  date_separator (lower_char c) = true \/ date_separator (upper_char c) = true ->
  date_separator c = true.
Proof.
  unfold lower_char, upper_char, isupper, islower, in_range.
  destruct (N.leb_spec 65 c), (N.leb_spec c 90), (N.leb_spec 97 c),
    (N.leb_spec c 122); cbn [andb]; try tauto;
    intros [S | S]; try exact S;
    apply separator_not_letter in S; lia.
Qed.

Lemma separator_set_mem (cs : cset) (c : char) :
  separator_set cs = true -> cset_mem cs c = true -> date_separator c = true.
Proof.
  induction cs as [x | lo hi | | | | a IHa b IHb]; cbn [separator_set cset_mem];
    try discriminate.
  - unfold date_separator, char_eqb. rewrite !orb_true_iff, !N.eqb_eq.
    intros [-> | ->] <-; auto.
  - intros _ H. unfold date_separator. rewrite H. apply orb_true_r.
  - intros S M. apply andb_prop in S. destruct S as [Sa Sb].
    apply orb_prop in M. destruct M; auto.
Qed.

Lemma separator_set_match (ic : bool) (cs : cset) (c : char) :
  separator_set cs = true -> cset_match ic cs c = true ->
  date_separator c = true.
Proof.
  intros S M. unfold cset_match in M.
  apply orb_prop in M. destruct M as [M | M].
  - now apply (separator_set_mem cs).
  - apply andb_prop in M. destruct M as [_ M]. apply orb_prop in M.
    apply case_of_separator.
    destruct M as [M | M]; [left | right]; now apply (separator_set_mem cs).
Qed.

Lemma needs_separator_lang (ic : bool) (r : regex) :
  needs_separator r = true ->
  forall p, lang ic r p -> exists c, In c p /\ date_separator c = true.
Proof.
  induction r as [| cs | r1 IH1 r2 IH2 | r IH lo hi | n r IH | |];
    cbn [needs_separator lang]; try discriminate.
  - intros S p (c & -> & M). exists c. split; [now left |].
    now apply (separator_set_match ic cs).
  - intros S p (p1 & p2 & -> & L1 & L2). apply orb_prop in S.
    destruct S as [S | S].
    + destruct (IH1 S p1 L1) as (c & I & D). exists c. split; [| exact D].
      apply in_or_app. now left.
    + destruct (IH2 S p2 L2) as (c & I & D). exists c. split; [| exact D].
      apply in_or_app. now right.
  - intros S p (ps & -> & F & Lo & _). apply andb_prop in S.
    destruct S as [S1 S2]. apply negb_true_iff, Nat.eqb_neq in S1.
    destruct ps as [| q ps]; [simpl in Lo; lia |].
    apply Forall_inv in F. destruct (IH S2 q F) as (c & I & D).
    exists c. split; [| exact D]. cbn [concat]. apply in_or_app. now left.
  - intros S p L. now apply IH.
Qed.

Lemma date_pattern_holds_separator (s : str) :
  matches_date_pattern s = true ->
  exists c, In c s /\ date_separator c = true.
Proof.
  unfold matches_date_pattern. intros H. apply existsb_exists in H.
  destruct H as (r & I & M).
  change (matches true r s = true) in M.
  assert (P : simple r = true /\ needs_separator r = true).
  { simpl in I.
    repeat (destruct I as [<- | I]; [split; reflexivity |]). contradiction. }
  destruct P as [S N].
  apply (matches_iff true r s S) in M. destruct M as (p & s' & -> & L).
  destruct (needs_separator_lang true r N p L) as (c & I' & D).
  exists c. split; [| exact D]. apply in_or_app. now left.
Qed.

(** X8.  A text the detector takes for a date by its form holds a slash, a
    hyphen or a white space: a text without any of them, such as
    [20240115] or [Jan2024], matches none of the seven date patterns. *)
Theorem date_like_text_holds_a_separator (value_str : str) :
  matches_date_pattern value_str = true ->
  exists c, In c value_str /\ date_separator c = true.
Proof. apply date_pattern_holds_separator. Qed.

(** X8 at the text [Q1-24]. *)
Lemma date_like_text_holds_a_separator_witness :
  matches_date_pattern (pystr "Q1-24") = true
  /\ exists c, In c (pystr "Q1-24") /\ date_separator c = true.
Proof.
  split; [vm_compute; reflexivity |].
  apply (date_like_text_holds_a_separator (pystr "Q1-24")).
  vm_compute. reflexivity.
Defined.

(** X9.  The detector's test of the date patterns looks at the beginning
    of a text only: a text that begins with a date-like text is
    date-like, whatever follows.  So [2024-01-15 payment received] is
    counted as a date and left out of the number score. *)
Theorem date_likeness_ignores_what_follows (value_str rest : str) :
  matches_date_pattern value_str = true ->
  matches_date_pattern (value_str ++ rest) = true.
Proof.
  unfold matches_date_pattern. intros H. apply existsb_exists in H.
  destruct H as (r & I & M). apply existsb_exists. exists r. split; [exact I |].
  change (matches true r value_str = true) in M.
  change (matches true r (value_str ++ rest) = true).
  apply matches_extend; [| exact M].
  simpl in I. repeat (destruct I as [<- | I]; [reflexivity |]). contradiction.
Qed.

(** X9 at [2024-01-15] followed by a remark. *)
Lemma date_likeness_ignores_what_follows_witness :
  matches_date_pattern (pystr "2024-01-15") = true
  /\ matches_date_pattern (pystr "2024-01-15" ++ pystr " payment received") = true.
Proof.
  split; [vm_compute; reflexivity |].
  apply (date_likeness_ignores_what_follows (pystr "2024-01-15")).
  vm_compute. reflexivity.
Defined.

(** ** [re.sub], one step at a time *)

Lemma sub_loop_skip ic r tpl subject fuel (c : char) (s : str) :
  match_at ic r subject (c :: s) = None ->
  sub_loop ic r tpl subject (S fuel) (c :: s)
  = c :: sub_loop ic r tpl subject fuel s.
Proof. intros H. cbn [sub_loop]. now rewrite H. Qed.

Lemma sub_loop_replace ic r tpl subject fuel (s : str) (m : match_obj) :
  match_at ic r subject s = Some m -> m_text m <> [] ->
  sub_loop ic r tpl subject (S fuel) s
  = expand tpl m ++ sub_loop ic r tpl subject fuel (m_rest m).
Proof.
  intros H N. cbn [sub_loop]. rewrite H.
  destruct (m_text m); [congruence | reflexivity].
Qed.

Lemma sub_loop_id ic r tpl subject (s : str) :
  (forall u t, s = u ++ t -> match_at ic r subject t = None) ->
  forall fuel, sub_loop ic r tpl subject fuel s = s.
Proof.
  intros H fuel. revert s H.
  induction fuel as [| fuel IH]; intros s H; [reflexivity |].
  destruct s as [| c s].
  - cbn [sub_loop]. now rewrite (H [] []).
  - rewrite sub_loop_skip by apply (H [] (c :: s) eq_refl).
    f_equal. apply IH. intros u t E. apply (H (c :: u) t). now rewrite E.
Qed.

(** ** The pattern of a thousands group *)

Lemma lang_digit (p : str) :
  lang false digit p -> exists c, p = [c] /\ isdigit c = true.
Proof.
  intros (c & -> & M). rewrite cset_match_exact in M. now exists c.
Qed.

Lemma lang_three_digits (p : str) :
  lang false (times 3 digit) p ->
  exists x y z, p = [x; y; z]
                /\ isdigit x = true /\ isdigit y = true /\ isdigit z = true.
Proof.
  intros (ps & -> & F & Lo & Hi). cbn [within] in Hi.
  destruct ps as [| p1 [| p2 [| p3 [| p4 ps]]]]; simpl in Lo, Hi; try lia.
  inversion F as [| ? ? L1 F1]; subst.
  inversion F1 as [| ? ? L2 F2]; subst.
  inversion F2 as [| ? ? L3 _]; subst.
  apply lang_digit in L1, L2, L3.
  destruct L1 as (x & -> & X), L2 as (y & -> & Y), L3 as (z & -> & Z).
  exists x, y, z. auto.
Qed.

Lemma thousands_match_shape (subject s : str) (m : match_obj) :
  match_at false re_thousands subject s = Some m ->
  exists d x y z,
    isdigit d = true /\ isdigit x = true /\ isdigit y = true /\ isdigit z = true
    /\ m_text m = [d; chr ","; x; y; z]
    /\ expand tpl_1_2 m = [d; x; y; z]
    /\ s = m_text m ++ m_rest m.
Proof.
  intros M. apply match_at_two_groups in M; [| reflexivity | reflexivity].
  destruct M as (c & E & C & L1 & L2 & S).
  rewrite cset_match_exact in C. cbn [cset_mem] in C.
  unfold char_eqb in C. apply N.eqb_eq in C. subst c.
  apply lang_digit in L1. destruct L1 as (d & G1 & D).
  apply lang_three_digits in L2. destruct L2 as (x & y & z & G2 & X & Y & Z).
  exists d, x, y, z. repeat split; try assumption.
  - now rewrite E, G1, G2.
  - unfold expand, tpl_1_2. cbn [flat_map]. now rewrite G1, G2.
Qed.

Lemma thousands_match (subject tail : str) (d x y z : char) :
  isdigit d = true -> isdigit x = true -> isdigit y = true -> isdigit z = true ->
  exists m,
    match_at false re_thousands subject (d :: chr "," :: x :: y :: z :: tail)
    = Some m
    /\ m_text m = [d; chr ","; x; y; z]
    /\ expand tpl_1_2 m = [d; x; y; z]
    /\ m_rest m = tail.
Proof.
  intros D X Y Z.
  destruct (match_at false re_thousands subject
              (d :: chr "," :: x :: y :: z :: tail)) as [m |] eqn:M.
  - exists m. split; [reflexivity |].
    destruct (thousands_match_shape _ _ _ M)
      as (d' & x' & y' & z' & _ & _ & _ & _ & T & E & S).
    rewrite T in S. injection S as -> -> -> -> ->. auto.
  - exfalso. revert M. unfold match_at.
    apply (run_complete false subject match_obj re_thousands eq_refl
             _ [d; chr ","; x; y; z] tail); [reflexivity | | discriminate].
    exists [d], [chr ","; x; y; z]. split; [reflexivity |]. split.
    + exists d. now rewrite cset_match_exact.
    + exists [chr ","], [x; y; z]. split; [reflexivity |]. split.
      * exists (chr ","). split; reflexivity.
      * exists [[x]; [y]; [z]]. split; [reflexivity |]. split.
        -- repeat constructor; eexists; rewrite cset_match_exact; eauto.
        -- simpl. lia.
Qed.

(** No thousands group starts where a digit is not followed by a comma. *)
Lemma thousands_no_match (subject s : str) :
  match s with
  | d :: c :: _ => (isdigit d && char_eqb c (chr ","))%bool = false
  | _ => True
  end ->
  match_at false re_thousands subject s = None.
Proof.
  intros H. destruct (match_at false re_thousands subject s) as [m |] eqn:M;
    [| reflexivity].
  destruct (thousands_match_shape _ _ _ M)
    as (d & x & y & z & D & _ & _ & _ & T & _ & S).
  rewrite T in S. subst s. cbn [app] in H. rewrite D in H. discriminate H.
Qed.

Lemma digit_not_comma (c : char) :
  isdigit c = true -> char_eqb c (chr ",") = false.
Proof.
  intros D. unfold char_eqb. apply N.eqb_neq. intros ->. discriminate D.
Qed.

(** [re.sub] on a text that holds one group, or a first group followed by
    a comma. *)
Lemma sub_loop_first_group (subject pre a tail : str) (d x y z : char) :
  Forall (fun c => isdigit c = false) pre ->
  all_digits a = true ->
  isdigit d = true -> isdigit x = true -> isdigit y = true -> isdigit z = true ->
  forall fuel, length (pre ++ a) < fuel ->
    sub_loop false re_thousands tpl_1_2 subject fuel
      (pre ++ a ++ d :: chr "," :: x :: y :: z :: tail)
    = pre ++ a ++ d :: x :: y :: z
      :: sub_loop false re_thousands tpl_1_2 subject
           (fuel - S (length (pre ++ a))) tail.
Proof.
  intros P A D X Y Z.
  induction P as [| c pre Pc P IH].
  - cbn [app]. induction a as [| c a IH]; intros fuel F.
    + destruct fuel as [| fuel]; [simpl in F; lia |].
      destruct (thousands_match subject tail d x y z D X Y Z)
        as (m & M & T & E & R).
      cbn [app]. rewrite (sub_loop_replace _ _ _ _ _ _ m M) by (rewrite T; discriminate).
      rewrite E, R. cbn [length Nat.sub]. now rewrite Nat.sub_0_r.
    + destruct fuel as [| fuel]; [simpl in F; lia |].
      cbn [all_digits forallb] in A. apply andb_prop in A. destruct A as [Ac A].
      cbn [app]. rewrite sub_loop_skip.
      * rewrite (IH A fuel) by (simpl in F; lia). reflexivity.
      * apply thousands_no_match.
        destruct a as [| c' a]; cbn [app].
        -- rewrite (digit_not_comma d D). apply andb_false_r.
        -- simpl in A. apply andb_prop in A. destruct A as [Ac' _].
           rewrite (digit_not_comma c' Ac'). apply andb_false_r.
  - intros fuel F. destruct fuel as [| fuel]; [simpl in F; lia |].
    cbn [app]. rewrite sub_loop_skip.
    + rewrite (IH fuel) by (simpl in F; lia). reflexivity.
    + apply thousands_no_match.
      destruct (pre ++ a ++ d :: chr "," :: x :: y :: z :: tail); [exact I |].
      now rewrite Pc.
Qed.

(** ** Amounts with thousands separators *)

Lemma amount_char_cases (c : char) :
  amount_char c = true ->
  ((48 <= c <= 57) \/ c = 46 \/ c = 44
   \/ c = 36 \/ c = 8364 \/ c = 8377 \/ c = 163 \/ c = 165)%N.
Proof.
  unfold amount_char. rewrite !orb_true_iff. intros [[P | C] | S].
  - apply plain_cases in P. tauto.
  - unfold char_eqb in C. apply N.eqb_eq in C. subst c. compute. tauto.
  - apply currency_symbol_cases in S. unfold DOLLAR, EURO, RUPEE, POUND, YEN in S.
    tauto.
Qed.

Lemma amount_char_not_space (c : char) : amount_char c = true -> isspace c = false.
Proof.
  intros H. apply amount_char_cases in H. unfold isspace, in_range.
  rewrite !orb_false_iff, !andb_false_iff, !N.leb_gt, !N.eqb_neq. lia.
Qed.

Lemma amount_char_upper (c : char) : amount_char c = true -> upper_char c = c.
Proof.
  intros H. apply amount_char_cases in H. unfold upper_char, islower, in_range.
  replace ((97 <=? c)%N && (c <=? 122)%N)%bool with false; [reflexivity |].
  symmetry. rewrite andb_false_iff, !N.leb_gt. lia.
Qed.

Lemma trim_id (sp : char -> bool) (s : str) :
  Forall (fun c => sp c = false) s -> trim sp s = s.
Proof.
  intros H. unfold trim, rtrim.
  rewrite (ltrim_head sp s).
  - rewrite (ltrim_head sp (rev s)); [apply rev_involutive |].
    apply Forall_rev in H. destruct (rev s) as [| c t]; [exact I |].
    now inversion H.
  - destruct s as [| c t]; [exact I |]. now inversion H.
Qed.

Lemma endswith_none (s : str) (d : char) :
  Forall (fun c => char_eqb d c = false) s -> endswith s [d] = false.
Proof.
  intros H. unfold endswith. apply Forall_rev in H. simpl.
  destruct (rev s) as [| c t]; [reflexivity |]. simpl.
  inversion H as [| ? ? Hc _]. now rewrite Hc.
Qed.

Lemma amount_char_not (d : char) (s : str) :
  amount_char d = false ->
  Forall (fun c => amount_char c = true) s ->
  Forall (fun c => char_eqb d c = false) s.
Proof.
  intros D H. eapply Forall_impl; [| exact H]. intros c Hc.
  unfold char_eqb. apply N.eqb_neq. intros ->. congruence.
Qed.

Lemma is_special_format_amount (s : str) :
  Forall (fun c => amount_char c = true) s -> _is_special_format s = false.
Proof.
  intros H. unfold _is_special_format, wrapped_in_parentheses.
  assert (U : upper s = s).
  { unfold upper. induction H as [| c s Hc _ IH]; simpl; [reflexivity |].
    now rewrite (amount_char_upper c Hc), IH. }
  rewrite U. cbn [existsb abbreviation_multipliers fst].
  change (pystr ")") with [chr ")"]. change (pystr "-") with [chr "-"].
  assert (E : forall d, amount_char d = false -> endswith s [d] = false)
    by (intros d Hd; now apply endswith_none, amount_char_not).
  rewrite !E by reflexivity.
  rewrite andb_false_r. reflexivity.
Qed.

Lemma strip_amount (s : str) :
  Forall (fun c => amount_char c = true) s -> strip s = s.
Proof.
  intros H. apply trim_id. eapply Forall_impl; [| exact H].
  apply amount_char_not_space.
Qed.

Lemma digits_amount (s : str) :
  all_digits s = true -> Forall (fun c => amount_char c = true) s.
Proof.
  intros H. apply all_digits_Forall in H. eapply Forall_impl; [| exact H].
  intros c D. unfold amount_char, is_plain. now rewrite D.
Qed.

Lemma symbol_text_amount (symbol : option char) :
  is_symbol symbol -> Forall (fun c => amount_char c = true) (symbol_text symbol).
Proof.
  destruct symbol as [c |]; simpl; intros H; constructor; [| constructor].
  unfold amount_char. rewrite H. apply orb_true_r.
Qed.

Lemma fraction_text_amount (fp : option str) :
  all_digits (fraction_digits fp) = true ->
  Forall (fun c => amount_char c = true) (fraction_text fp).
Proof.
  destruct fp as [d |]; simpl; intros H; constructor; [reflexivity |].
  now apply digits_amount.
Qed.

Lemma symbol_text_no_digit (symbol : option char) :
  is_symbol symbol -> Forall (fun c => isdigit c = false) (symbol_text symbol).
Proof.
  destruct symbol as [c |]; simpl; intros H; constructor; [| constructor].
  each_symbol H; reflexivity.
Qed.

Lemma digits_no_comma (s : str) : all_digits s = true -> ~ In (chr ",") s.
Proof.
  intros H F. apply all_digits_Forall in H. rewrite Forall_forall in H.
  specialize (H _ F). discriminate H.
Qed.

Lemma symbol_text_no_point (symbol : option char) :
  is_symbol symbol -> ~ In (chr ".") (symbol_text symbol).
Proof.
  destruct symbol as [c |]; simpl; [| tauto].
  intros H [E | []]. subst c. discriminate H.
Qed.

Lemma fraction_text_no_comma (fp : option str) :
  all_digits (fraction_digits fp) = true -> ~ In (chr ",") (fraction_text fp).
Proof.
  destruct fp as [d |]; simpl; [| tauto].
  intros H [E | F]; [discriminate E | exact (digits_no_comma d H F)].
Qed.

(** No [[\d,]+\.\d{3}] in a text whose only point is followed by fewer than
    three digits. *)
Lemma no_european_before_short_fraction (body : str) (fp : option str) :
  ~ In (chr ".") body ->
  all_digits (fraction_digits fp) = true -> length (fraction_digits fp) < 3 ->
  search false re_european (body ++ fraction_text fp) = None.
Proof.
  intros B F L. apply search_none. intros u p s' E C.
  apply european_covers in C. destruct C as (q & d & -> & Ld).
  destruct fp as [f |]; cbn [fraction_text fraction_digits] in *.
  - rewrite <- app_assoc in E. cbn [app] in E. rewrite app_assoc in E.
    apply split_at_unique in E; [| exact B | now apply digits_no_point].
    rewrite E, length_app in L. lia.
  - rewrite app_nil_r in E. apply B. rewrite E.
    apply in_or_app. right. apply in_or_app. left. apply in_or_app. right.
    now left.
Qed.

Lemma thousands_none_without_comma (subject tail : str) :
  ~ In (chr ",") tail ->
  forall u t, tail = u ++ t -> match_at false re_thousands subject t = None.
Proof.
  intros N u t E. destruct (match_at false re_thousands subject t) eqn:M;
    [| reflexivity].
  apply match_at_covers in M. destruct M as (p & s' & -> & C).
  apply thousands_covers in C. exfalso. apply N. rewrite E.
  apply in_or_app. right. apply in_or_app. now left.
Qed.

(** What [normalize_currency] does to one thousands separator. *)
Lemma normalize_grouped (symbol : option char) (a b : str) (fp : option str) :
  is_symbol symbol ->
  all_digits a = true -> a <> [] -> all_digits b = true -> length b = 3 ->
  all_digits (fraction_digits fp) = true -> length (fraction_digits fp) < 3 ->
  normalize_currency (grouped_text symbol a b fp)
  = symbol_text symbol ++ (a ++ b) ++ fraction_text fp.
Proof.
  intros S A NE B LB F LF. unfold normalize_currency, grouped_text.
  replace (symbol_text symbol ++ a ++ chr "," :: b ++ fraction_text fp)
    with ((symbol_text symbol ++ a ++ chr "," :: b) ++ fraction_text fp)
    by (rewrite <- !app_assoc; reflexivity).
  rewrite no_european_before_short_fraction; [| | exact F | exact LF].
  2:{ intros I. apply in_app_or in I. destruct I as [I | I].
      - exact (symbol_text_no_point symbol S I).
      - apply in_app_or in I. destruct I as [I | [I | I]].
        + exact (digits_no_point a A I).
        + discriminate I.
        + exact (digits_no_point b B I). }
  destruct (nonempty_last a NE) as (a0 & d & ->).
  destruct b as [| x [| y [| z [| w b]]]]; try discriminate LB.
  unfold sub.
  replace ((symbol_text symbol ++ (a0 ++ [d]) ++ chr "," :: [x; y; z])
           ++ fraction_text fp)
    with (symbol_text symbol ++ a0 ++ d :: chr "," :: x :: y :: z
            :: fraction_text fp)
    by (rewrite <- !app_assoc; reflexivity).
  unfold all_digits in A. rewrite forallb_app in A. apply andb_prop in A.
  destruct A as [A0 D]. cbn [forallb] in D, B.
  rewrite andb_true_r in D.
  apply andb_prop in B. destruct B as [X B].
  apply andb_prop in B. destruct B as [Y B].
  apply andb_prop in B. destruct B as [Z _].
  rewrite sub_loop_first_group;
    try assumption; [| now apply symbol_text_no_digit | ].
  - rewrite sub_loop_id.
    + rewrite <- !app_assoc. reflexivity.
    + apply thousands_none_without_comma. now apply fraction_text_no_comma.
  - rewrite !length_app. simpl. lia.
Qed.

(** ** The standard path on a text of digits behind a symbol *)

Lemma read_float_digits (ds : str) :
  all_digits ds = true -> ds <> [] ->
  read_float ds = Some (decimal_value ds []).
Proof.
  intros D NE. unfold read_float.
  destruct ds as [| c t] eqn:E; [congruence |]. rewrite <- E in *.
  assert (Pc : is_plain c = true).
  { rewrite E in D. simpl in D. apply andb_prop in D. destruct D as [D _].
    now apply digit_is_plain. }
  assert (S : read_sign ds = (false, ds)).
  { rewrite E. apply plain_cases in Pc. simpl. unfold char_eqb.
    replace (c =? 45)%N with false by (symmetry; apply N.eqb_neq; lia).
    replace (c =? 43)%N with false by (symmetry; apply N.eqb_neq; lia).
    reflexivity. }
  rewrite S.
  assert (W : forall w, match w with [] => False | x :: _ => is_plain x = false end ->
              str_eqb (lower ds) w = false).
  { intros w Hw. rewrite E. destruct w as [| x w]; [contradiction |]. simpl.
    rewrite (plain_lower c Pc).
    unfold char_eqb. replace (c =? x)%N with false; [reflexivity |].
    symmetry. apply N.eqb_neq. intros ->. congruence. }
  rewrite !W by reflexivity. cbn [orb].
  rewrite (span_all isdigit ds D). cbn iota. rewrite app_nil_r.
  rewrite E at 1. cbn [read_exponent]. unfold decimal_value.
  rewrite app_nil_r. reflexivity.
Qed.

Lemma digits_plain (ds : str) :
  all_digits ds = true -> Forall (fun c => is_plain c = true) ds.
Proof.
  intros D. apply all_digits_Forall in D. eapply Forall_impl; [| exact D].
  apply digit_is_plain.
Qed.

Lemma number_text_plain (ip : str) (fp : option str) :
  all_digits ip = true -> all_digits (fraction_digits fp) = true ->
  Forall (fun c => is_plain c = true) (ip ++ fraction_text fp).
Proof.
  intros I F. destruct fp as [f |]; cbn [fraction_text fraction_digits] in *.
  - now apply decimal_text_plain.
  - rewrite app_nil_r. now apply digits_plain.
Qed.

Lemma float_of_str_number (ip : str) (fp : option str) :
  all_digits ip = true -> ip <> [] ->
  all_digits (fraction_digits fp) = true ->
  float_of_str (ip ++ fraction_text fp)
  = Ret (decimal_value ip (fraction_digits fp)).
Proof.
  intros I NE F. destruct fp as [f |]; cbn [fraction_text fraction_digits] in *.
  - apply float_of_str_decimal; try assumption.
    destruct ip; [congruence | discriminate].
  - rewrite app_nil_r. unfold float_of_str.
    pose proof (digits_plain ip I) as P.
    rewrite (trim_plain isspace_numeric _ plain_not_space_numeric P).
    rewrite (drop_underscores_plain _ P 0%N eq_refl).
    now rewrite (read_float_digits ip I NE).
Qed.

Lemma contains_char_head (k c : char) (s : str) :
  Forall (fun x => is_plain x = true) s -> is_plain k = false ->
  contains_char k (c :: s) = contains_char k [c].
Proof.
  intros P K. unfold contains_char. cbn [existsb].
  change (existsb (char_eqb k) s) with (contains_char k s).
  now rewrite (contains_char_plain s k P K).
Qed.

Lemma find_currency_head (symbol : option char) (s : str) :
  Forall (fun x => is_plain x = true) s ->
  find_currency currency_symbols (symbol_text symbol ++ s) = symbol_code symbol.
Proof.
  intros P. destruct symbol as [c |]; cbn [symbol_text symbol_code app].
  - unfold currency_symbols. cbn [find_currency].
    rewrite !(contains_char_head _ c s P) by reflexivity. reflexivity.
  - apply (no_currency_in_plain s P).
Qed.

Lemma currency_symbol_match (subject s : str) (c : char) :
  is_currency_symbol c = true ->
  match_at false re_currency_symbol subject (c :: s)
  = Some (mk_match [c] [] s).
Proof.
  intros S. unfold match_at, re_currency_symbol. cbn [run].
  replace (cset_match false _ c) with true
    by (symmetry; each_symbol S; reflexivity).
  change (c :: s) with ([c] ++ s). now rewrite firstn_app_exact.
Qed.

Lemma no_symbol_in_plain (subject s : str) :
  Forall (fun x => is_plain x = true) s ->
  forall u t, s = u ++ t -> match_at false re_currency_symbol subject t = None.
Proof.
  intros P u t E. destruct (match_at false re_currency_symbol subject t) eqn:M;
    [| reflexivity].
  apply match_at_covers in M. destruct M as (p & s' & -> & C).
  apply currency_symbol_covers in C. destruct C as (c & I & N).
  rewrite Forall_forall in P. rewrite P in N; [discriminate |].
  rewrite E. apply in_or_app. right. apply in_or_app. now left.
Qed.

Lemma symbol_removed (symbol : option char) (s : str) :
  is_symbol symbol -> Forall (fun x => is_plain x = true) s ->
  sub false re_currency_symbol [] (symbol_text symbol ++ s) = s.
Proof.
  intros S P. destruct symbol as [c |]; cbn [symbol_text app].
  - unfold sub.
    rewrite (sub_loop_replace _ _ _ _ _ _ _ (currency_symbol_match _ s c S))
      by discriminate.
    cbn [expand flat_map m_rest app]. apply sub_loop_id.
    now apply no_symbol_in_plain.
  - apply (no_currency_in_plain s P).
Qed.

Lemma parse_normalized_number (symbol : option char) (ip : str) (fp : option str) :
  is_symbol symbol ->
  all_digits ip = true -> ip <> [] ->
  all_digits (fraction_digits fp) = true ->
  _parse_normalized_amount (symbol_text symbol ++ ip ++ fraction_text fp)
  = Ret (amount_plain (decimal_value ip (fraction_digits fp))
           (symbol_code symbol) false "standard").
Proof.
  intros S I NE F. unfold _parse_normalized_amount.
  pose proof (number_text_plain ip fp I F) as P.
  rewrite (find_currency_head symbol _ P), (symbol_removed symbol _ S P).
  rewrite (float_of_str_number ip fp I NE F). cbn [bind try_except].
  pose proof (decimal_value_sign ip (fraction_digits fp) I F) as G.
  now rewrite (sign_clear_abs _ G), (sign_clear_not_negative _ G).
Qed.

Lemma grouped_text_amount (symbol : option char) (a b : str) (fp : option str) :
  is_symbol symbol -> all_digits a = true -> all_digits b = true ->
  all_digits (fraction_digits fp) = true ->
  Forall (fun c => amount_char c = true) (grouped_text symbol a b fp).
Proof.
  intros S A B F. unfold grouped_text.
  apply Forall_app. split; [now apply symbol_text_amount |].
  apply Forall_app. split; [now apply digits_amount |].
  constructor; [reflexivity |].
  apply Forall_app. split; [now apply digits_amount |].
  now apply fraction_text_amount.
Qed.

(** X10.  An amount written with one thousands separator, with or without
    a currency symbol in front and a fraction of at most two digits behind
    ([1,234], [$1,234.56], [€12,500.5]), is parsed on the standard path:
    the comma is dropped, the value is the one of the digits read as a
    decimal, the currency is the one of the symbol, and the amount is not
    negative. *)
Theorem one_thousands_separator_is_read
    (symbol : option char) (a b : str) (fp : option str) :
  is_symbol symbol ->
  all_digits a = true -> a <> [] -> all_digits b = true -> length b = 3 ->
  all_digits (fraction_digits fp) = true -> length (fraction_digits fp) < 3 ->
  parse_amount (Some (grouped_text symbol a b fp))
  = Ret (amount_plain (decimal_value (a ++ b) (fraction_digits fp))
           (symbol_code symbol) false "standard").
Proof.
  intros S A NE B LB F LF.
  pose proof (grouped_text_amount symbol a b fp S A B F) as T.
  unfold parse_amount.
  replace (str_eqb (grouped_text symbol a b fp) []) with false
    by (unfold grouped_text; destruct symbol, a; try reflexivity; congruence).
  rewrite (strip_amount _ T), (is_special_format_amount _ T).
  rewrite (normalize_grouped symbol a b fp S A NE B LB F LF).
  rewrite parse_normalized_number; try assumption.
  - reflexivity.
  - now apply all_digits_app.
  - destruct a; [congruence | discriminate].
Qed.

(** X10 at the text [$1,234.56]. *)
Lemma one_thousands_separator_is_read_witness :
  parse_amount (Some (pystr "$1,234.56"))
  = Ret (amount_plain (float_of_decimal false 123456 (-2)) (Some "USD") false
           "standard").
Proof.
  refine (one_thousands_separator_is_read (Some DOLLAR) (pystr "1") (pystr "234")
            (Some (pystr "56")) _ _ _ _ _ _ _);
    try reflexivity; [discriminate | simpl; lia].
Defined.

Lemma sub_currency_keeps_comma (s : str) :
  In (chr ",") s -> In (chr ",") (sub false re_currency_symbol [] s).
Proof.
  intros H.
  assert (K : filter (char_eqb (chr ",")) (sub false re_currency_symbol [] s)
              = filter (char_eqb (chr ",")) s).
  { apply sub_keeps. intros t m M.
    apply match_at_covers in M as C. destruct C as (p & s' & E & C).
    apply match_at_split in M. destruct M as (E' & L).
    destruct L as (c & T & Mc). rewrite T. cbn [expand flat_map filter].
    rewrite cset_match_exact in Mc. cbn [cset_mem class re_currency_symbol] in Mc.
    unfold char_eqb in *. rewrite !orb_true_iff, !N.eqb_eq in Mc.
    destruct Mc as [<- | [<- | [<- | [<- | <-]]]]; reflexivity. }
  assert (I : In (chr ",") (filter (char_eqb (chr ",")) s))
    by (apply filter_In; split; [exact H | reflexivity]).
  rewrite <- K in I. now apply filter_In in I.
Qed.

(** What [normalize_currency] does to two thousands separators: the second
    one stays. *)
Lemma normalize_twice_grouped
    (symbol : option char) (a b c : str) (fp : option str) :
  is_symbol symbol ->
  all_digits a = true -> a <> [] -> all_digits b = true -> length b = 3 ->
  all_digits c = true ->
  all_digits (fraction_digits fp) = true -> length (fraction_digits fp) < 3 ->
  In (chr ",") (normalize_currency (twice_grouped_text symbol a b c fp)).
Proof.
  intros S A NE B LB C F LF. unfold normalize_currency, twice_grouped_text.
  replace (symbol_text symbol ++ a ++ chr "," :: b ++ chr "," :: c
           ++ fraction_text fp)
    with ((symbol_text symbol ++ a ++ chr "," :: b ++ chr "," :: c)
          ++ fraction_text fp)
    by (repeat first [rewrite <- app_assoc | progress cbn [app]]; reflexivity).
  rewrite no_european_before_short_fraction; [| | exact F | exact LF].
  2:{ intros I. apply in_app_or in I. destruct I as [I | I].
      - exact (symbol_text_no_point symbol S I).
      - apply in_app_or in I. destruct I as [I | [I | I]].
        + exact (digits_no_point a A I).
        + discriminate I.
        + apply in_app_or in I. destruct I as [I | [I | I]].
          * exact (digits_no_point b B I).
          * discriminate I.
          * exact (digits_no_point c C I). }
  destruct (nonempty_last a NE) as (a0 & d & ->).
  destruct b as [| x [| y [| z [| w b]]]]; try discriminate LB.
  unfold sub.
  replace ((symbol_text symbol ++ (a0 ++ [d]) ++ chr "," :: [x; y; z]
            ++ chr "," :: c) ++ fraction_text fp)
    with (symbol_text symbol ++ a0 ++ d :: chr "," :: x :: y :: z
            :: (chr "," :: c ++ fraction_text fp))
    by (repeat first [rewrite <- app_assoc | progress cbn [app]]; reflexivity).
  unfold all_digits in A. rewrite forallb_app in A. apply andb_prop in A.
  destruct A as [A0 D]. cbn [forallb] in D, B.
  rewrite andb_true_r in D.
  apply andb_prop in B. destruct B as [X B].
  apply andb_prop in B. destruct B as [Y B].
  apply andb_prop in B. destruct B as [Z _].
  rewrite sub_loop_first_group;
    try assumption; [| now apply symbol_text_no_digit | ].
  2:{ rewrite !length_app. simpl. lia. }
  match goal with
  | |- context [sub_loop _ _ _ _ ?fuel (chr "," :: ?rest)] =>
      destruct fuel as [| fuel'] eqn:Fu
  end.
  { exfalso. revert Fu. rewrite !length_app. cbn [length]. lia. }
  rewrite sub_loop_skip.
  - apply in_or_app. right. apply in_or_app. right.
    right. right. right. right. now left.
  - apply thousands_no_match. destruct (c ++ fraction_text fp); reflexivity.
Qed.

Lemma twice_grouped_text_amount
    (symbol : option char) (a b c : str) (fp : option str) :
  is_symbol symbol -> all_digits a = true -> all_digits b = true ->
  all_digits c = true -> all_digits (fraction_digits fp) = true ->
  Forall (fun x => amount_char x = true) (twice_grouped_text symbol a b c fp).
Proof.
  intros S A B C F. unfold twice_grouped_text.
  apply Forall_app. split; [now apply symbol_text_amount |].
  apply Forall_app. split; [now apply digits_amount |].
  constructor; [reflexivity |].
  apply Forall_app. split; [now apply digits_amount |].
  constructor; [reflexivity |].
  apply Forall_app. split; [now apply digits_amount |].
  now apply fraction_text_amount.
Qed.

(** X11.  An amount written with two thousands separators, such as
    [1,234,567] or [$1,234,567.89], is not parsed: [re.sub] resumes after
    the first group it rewrote, the second comma stays in the text, and
    the outcome is the error [Invalid numeric format]. *)
Theorem two_thousands_separators_are_rejected
    (symbol : option char) (a b c : str) (fp : option str) :
  is_symbol symbol ->
  all_digits a = true -> a <> [] -> all_digits b = true -> length b = 3 ->
  all_digits c = true ->
  all_digits (fraction_digits fp) = true -> length (fraction_digits fp) < 3 ->
  parse_amount (Some (twice_grouped_text symbol a b c fp))
  = Ret (amount_error (Invalid_numeric_format ValueError) None).
Proof.
  intros S A NE B LB C F LF.
  pose proof (twice_grouped_text_amount symbol a b c fp S A B C F) as T.
  unfold parse_amount.
  replace (str_eqb (twice_grouped_text symbol a b c fp) []) with false
    by (unfold twice_grouped_text; destruct symbol, a; try reflexivity; congruence).
  rewrite (strip_amount _ T), (is_special_format_amount _ T).
  unfold _parse_normalized_amount.
  rewrite (float_of_str_rejects _ (chr ","));
    [reflexivity | | reflexivity].
  apply sub_currency_keeps_comma.
  now apply normalize_twice_grouped.
Qed.

(** X11 at the text [1,234,567.89]. *)
Lemma two_thousands_separators_are_rejected_witness :
  parse_amount (Some (pystr "1,234,567.89"))
  = Ret (amount_error (Invalid_numeric_format ValueError) None).
Proof.
  refine (two_thousands_separators_are_rejected None (pystr "1") (pystr "234")
            (pystr "567") (Some (pystr "89")) _ _ _ _ _ _ _ _);
    try reflexivity; [discriminate | simpl; lia].
Defined.

(** ** X12: the value of an abbreviated amount *)

Lemma abbreviated_loop_hit (value x : str) (c : char) (base : float)
    (abbrev : char) (mult : Z) :
  value = x ++ [c] ->
  multiplier_of c = Some (abbrev, mult) ->
  float_of_str x = Ret base ->
  abbreviated_loop abbreviation_multipliers value
  = Ret (Some (amount_abbreviated (fmul base (float_of_int mult)) abbrev mult base)).
Proof.
  intros -> M F.
  assert (NE : x <> []) by (intros ->; vm_compute in F; discriminate F).
  assert (P : (if Nat.ltb 1 (length (x ++ [c])) then drop_last (x ++ [c])
               else x ++ [c]) = x).
  { replace (Nat.ltb 1 (length (x ++ [c]))) with true.
    - unfold drop_last. apply removelast_last.
    - symmetry. apply Nat.ltb_lt. rewrite length_app. simpl.
      destruct x; [congruence | simpl; lia]. }
  unfold abbreviation_multipliers. cbn [abbreviated_loop].
  rewrite P, F, upper_app_last, !endswith_app_last.
  unfold multiplier_of, abbreviation_multipliers in M. cbn [find fst] in M.
  cbn [bind try_except].
  repeat match type of M with
         | (if ?b then _ else _) = _ =>
             destruct b; [injection M as <- <-; reflexivity |]
         end.
  discriminate M.
Qed.

Lemma abbreviated_loop_value
    (value x : str) (c : char) (base : float) (abbrev : char) (mult : Z) :
  strip value = x ++ [c] ->
  multiplier_of c = Some (abbrev, mult) ->
  float_of_str x = Ret base ->
  parse_amount (Some value)
  = Ret (amount_abbreviated (fmul base (float_of_int mult)) abbrev mult base).
Proof.
  intros E M F. unfold parse_amount.
  replace (str_eqb value []) with false
    by (destruct value; [destruct x; discriminate E | reflexivity]).
  assert (S : _is_special_format (strip value) = true).
  { rewrite E. unfold _is_special_format.
    replace (existsb (fun kv => endswith (upper (x ++ [c])) [fst kv])
               abbreviation_multipliers) with true; [reflexivity |].
    symmetry. apply existsb_exists.
    unfold multiplier_of in M. apply find_some in M. destruct M as [I Eq].
    exists (abbrev, mult). split; [exact I |].
    now rewrite upper_app_last, endswith_app_last. }
  rewrite S. unfold _handle_special_formats, handle_special_formats, or_else.
  rewrite (abbreviated_loop_hit (strip value) x c base abbrev mult E M F).
  reflexivity.
Qed.

(** X12.  When the text of a cell, once trimmed, is a text [x] that
    [float] reads followed by one of K, M, B, T (in either case),
    [parse_amount] returns the abbreviated amount: the value is the float
    of [x] times the multiplier of the letter, the letter is reported in
    upper case, and no currency and no [is_negative] are set, whatever the
    sign of [x]. *)
Theorem abbreviated_amount_value
    (value x : str) (c : char) (base : float) (abbrev : char) (mult : Z) :
  strip value = x ++ [c] ->
  multiplier_of c = Some (abbrev, mult) ->
  float_of_str x = Ret base ->
  parse_amount (Some value)
  = Ret (amount_abbreviated (fmul base (float_of_int mult)) abbrev mult base).
Proof. apply abbreviated_loop_value. Qed.

(** X12 at the text [2.5m] between spaces. *)
Lemma abbreviated_amount_value_witness :
  parse_amount (Some (pystr " 2.5m "))
  = Ret (amount_abbreviated (fmul (float_of_decimal false 25 (-1))
                               (float_of_int 1000000))
           (chr "M") 1000000 (float_of_decimal false 25 (-1))).
Proof.
  refine (abbreviated_amount_value (pystr " 2.5m ") (pystr "2.5") (chr "m")
            (float_of_decimal false 25 (-1)) (chr "M") 1000000 _ _ _);
    vm_compute; reflexivity.
Defined.

(** ** X13: amounts in trillions and the detector *)

Lemma letter_T_cases (c : char) : upper_char c = chr "T" -> c = 84%N \/ c = 116%N.
Proof.
  unfold upper_char, islower, in_range.
  destruct (N.leb_spec 97 c), (N.leb_spec c 122); cbn [andb];
    change (chr "T") with 84%N; lia.
Qed.

Lemma drop_underscores_none (s : str) :
  Forall (fun c => char_eqb c 95%N = false) s ->
  forall prev, char_eqb prev 95%N = false -> drop_underscores prev s = Some s.
Proof.
  induction 1 as [| c s Hc _ IH]; intros prev P; simpl.
  - now rewrite P.
  - rewrite Hc, P. simpl. now rewrite (IH c Hc).
Qed.

Lemma replace_char_none (old : char) (new s : str) :
  Forall (fun x => char_eqb x old = false) s -> replace_char old new s = s.
Proof.
  unfold replace_char. induction 1 as [| x s Hx _ IH]; [reflexivity |].
  cbn [flat_map]. rewrite Hx, IH. reflexivity.
Qed.

Lemma trillions_all (P : char -> Prop) (value : str) :
  is_trillions value ->
  (forall x, is_plain x = true -> P x) -> P 84%N -> P 116%N ->
  Forall P value.
Proof.
  intros (ip & fp & c & I & _ & F & T & ->) Hp H1 H2.
  apply Forall_app. split.
  - eapply Forall_impl; [| exact (number_text_plain ip fp I F)]. exact Hp.
  - constructor; [| constructor].
    destruct (letter_T_cases c T) as [-> | ->]; assumption.
Qed.

Lemma trillions_strip (value : str) : is_trillions value -> strip value = value.
Proof.
  intros H. apply trim_id, (trillions_all _ value H);
    [apply plain_not_space | reflexivity | reflexivity].
Qed.

Lemma read_float_trillions (ip : str) (fp : option str) (c : char) :
  all_digits ip = true -> ip <> [] -> all_digits (fraction_digits fp) = true ->
  upper_char c = chr "T" ->
  read_float ((ip ++ fraction_text fp) ++ [c]) = None.
Proof.
  intros I NE F T. unfold read_float.
  destruct ip as [| d t] eqn:E; [congruence |]. rewrite <- E in *. clear NE.
  assert (Pd : is_plain d = true).
  { rewrite E in I. simpl in I. apply andb_prop in I. now apply digit_is_plain. }
  assert (Hd : exists rest, (ip ++ fraction_text fp) ++ [c] = d :: rest).
  { rewrite E. eexists. reflexivity. }
  destruct Hd as (rest & Hd).
  assert (S : read_sign ((ip ++ fraction_text fp) ++ [c])
              = (false, (ip ++ fraction_text fp) ++ [c])).
  { rewrite Hd. apply plain_cases in Pd. simpl. unfold char_eqb.
    replace (d =? 45)%N with false by (symmetry; apply N.eqb_neq; lia).
    replace (d =? 43)%N with false by (symmetry; apply N.eqb_neq; lia).
    reflexivity. }
  rewrite S.
  assert (W : forall w, match w with [] => False | x :: _ => is_plain x = false end ->
              str_eqb (lower ((ip ++ fraction_text fp) ++ [c])) w = false).
  { intros w Hw. rewrite Hd. destruct w as [| x w]; [contradiction |]. simpl.
    rewrite (plain_lower d Pd).
    unfold char_eqb. replace (d =? x)%N with false; [reflexivity |].
    symmetry. apply N.eqb_neq. intros ->. congruence. }
  rewrite !W by reflexivity. cbn [orb].
  assert (Nd : isdigit c = false)
    by (destruct (letter_T_cases c T) as [-> | ->]; reflexivity).
  assert (Ne : is_e c = false)
    by (destruct (letter_T_cases c T) as [-> | ->]; reflexivity).
  assert (Np : is_dot c = false)
    by (destruct (letter_T_cases c T) as [-> | ->]; reflexivity).
  destruct fp as [f |]; cbn [fraction_text fraction_digits] in *.
  - rewrite <- app_assoc. cbn [app].
    rewrite (span_until isdigit ip (chr ".") (f ++ [c]) I eq_refl).
    change (is_dot (chr ".")) with true. cbn iota.
    rewrite (span_until isdigit f c [] F Nd).
    destruct (ip ++ f); cbn [read_exponent]; rewrite ?Ne; reflexivity.
  - rewrite app_nil_r.
    rewrite (span_until isdigit ip c [] I Nd). rewrite Np.
    destruct (ip ++ []); cbn [read_exponent]; rewrite ?Ne; reflexivity.
Qed.

Lemma trillions_not_float (value : str) :
  is_trillions value -> float_of_str value = Raise ValueError.
Proof.
  intros H. unfold float_of_str.
  rewrite trim_id
    by (apply (trillions_all _ value H);
        [apply plain_not_space_numeric | reflexivity | reflexivity]).
  rewrite drop_underscores_none; [| | reflexivity].
  2:{ apply (trillions_all _ value H); [| reflexivity | reflexivity].
      intros x Hx. apply plain_cases in Hx. unfold char_eqb.
      apply N.eqb_neq. lia. }
  destruct H as (ip & fp & c & I & NE & F & T & ->).
  now rewrite read_float_trillions.
Qed.

Lemma trillions_not_date_like (value : str) :
  is_trillions value -> matches_date_pattern value = false.
Proof.
  intros H. destruct (matches_date_pattern value) eqn:M; [| reflexivity].
  apply date_pattern_holds_separator in M. destruct M as (x & I & D).
  pose proof (trillions_all (fun x => date_separator x = false) value H) as A.
  rewrite Forall_forall in A. rewrite A in D; [discriminate | | | | exact I];
    try reflexivity.
  intros y Hy. unfold date_separator. rewrite (plain_not_space y Hy).
  apply plain_cases in Hy. unfold char_eqb.
  change (chr "/") with 47%N. change (chr "-") with 45%N.
  rewrite !orb_false_iff, !N.eqb_neq. lia.
Qed.

Lemma symbols_and_separators_covers (p : str) :
  covers false re_symbols_and_separators p ->
  exists x, p = [x] /\ is_plain x = false /\ x <> 84%N /\ x <> 116%N.
Proof.
  intros (x & -> & M). exists x. split; [reflexivity |].
  rewrite cset_match_exact in M.
  cbn [cset_mem class re_symbols_and_separators] in M.
  unfold char_eqb in M. rewrite !orb_true_iff, !N.eqb_eq in M.
  repeat (destruct M as [<- | M]; [repeat split; discriminate |]).
  subst x. repeat split; discriminate.
Qed.

Lemma abbreviated_covers (p : str) :
  covers true re_abbreviated p ->
  exists x, In x p /\ is_plain x = false /\ x <> 84%N /\ x <> 116%N.
Proof.
  intros (p1 & p2 & -> & _ & (p3 & p4 & -> & _ & (p5 & p6 & -> & (x & -> & M) & _))).
  exists x. split.
  { apply in_or_app. right. apply in_or_app. right. now left. }
  unfold cset_match in M. cbn [cset_mem class andb] in M.
  unfold lower_char, upper_char, isupper, islower, in_range, char_eqb in M.
  change (chr "K") with 75%N in M. change (chr "M") with 77%N in M.
  change (chr "B") with 66%N in M.
  destruct (N.leb_spec 65 x), (N.leb_spec x 90), (N.leb_spec 97 x),
    (N.leb_spec x 122); cbn [andb] in M;
    rewrite !orb_true_iff, !N.eqb_eq in M;
    (assert (X : (x = 75 \/ x = 77 \/ x = 66 \/ x = 107 \/ x = 109 \/ x = 98)%N)
       by lia);
    clear M; repeat (destruct X as [-> | X]; [repeat split; discriminate |]);
    subst x; repeat split; discriminate.
Qed.

Lemma trillions_part (value u p s' : str) (x : char) :
  is_trillions value -> value = u ++ p ++ s' -> In x p ->
  is_plain x = true \/ x = 84%N \/ x = 116%N.
Proof.
  intros H E I.
  pose proof (trillions_all (fun x => is_plain x = true \/ x = 84%N \/ x = 116%N)
                value H) as A.
  rewrite Forall_forall in A. apply A; auto.
  rewrite E. apply in_or_app. right. apply in_or_app. now left.
Qed.

Lemma trillions_uncounted (value : str) :
  is_trillions value ->
  reads_as_infinity value = false
  /\ counts_as_date value = false /\ counts_as_number value = false.
Proof.
  intros H.
  pose proof (trillions_strip value H) as S.
  pose proof (trillions_not_float value H) as F.
  pose proof (trillions_not_date_like value H) as D.
  split; [| split].
  - unfold reads_as_infinity. now rewrite S, F.
  - unfold counts_as_date, is_serial_date. rewrite S, F. exact D.
  - unfold counts_as_number, parses_as_number. rewrite S, D. cbn [negb andb].
    rewrite sub_unchanged.
    2:{ intros u p s' E C. apply symbols_and_separators_covers in C.
        destruct C as (x & -> & C).
        destruct (trillions_part value u [x] s' x H E (or_introl eq_refl))
          as [P | [P | P]]; destruct C as (C1 & C2 & C3); congruence. }
    replace (replace_char (chr "-") [] value) with value.
    2:{ symmetry. apply replace_char_none.
        apply (trillions_all _ value H); try reflexivity.
        intros x Hx. apply plain_cases in Hx.
        unfold char_eqb. apply N.eqb_neq. change (chr "-") with 45%N. lia. }
    rewrite F. cbn [bind try_except is_ValueError exn_eqb].
    unfold matches. destruct (rmatch true re_abbreviated value) eqn:M; [| reflexivity].
    apply match_at_covers in M. destruct M as (p & s' & E & C).
    apply abbreviated_covers in C. destruct C as (x & I & C1 & C2 & C3).
    destruct (trillions_part value [] p s' x H E I) as [P | [P | P]]; congruence.
Qed.

(** X13.  An unsigned decimal followed by T, in either case, is an amount
    in trillions for [parse_amount], which returns its value times
    1000000000000; the detector counts it neither as a number (its
    patterns know K, M and B only) nor as a date, so that a column of
    such amounts is classified [string]. *)
Theorem trillions_parse_but_column_is_string (data : list (option str)) :
  dropna data <> [] ->
  Forall is_trillions (dropna data) ->
  Forall (fun v => exists base,
            parse_amount (Some v)
            = Ret (amount_abbreviated (fmul base (float_of_int 1000000000000))
                     (chr "T") 1000000000000 base)) (dropna data)
  /\ analyze_column data = Ret (verdict (dropna data) "string").
Proof.
  intros NE H. split.
  - eapply Forall_impl; [| exact H]. intros v Hv.
    pose proof (trillions_strip v Hv) as S.
    destruct Hv as (ip & fp & c & I & N & F & T & ->).
    exists (decimal_value ip (fraction_digits fp)).
    apply (abbreviated_loop_value _ (ip ++ fraction_text fp) c); [exact S | |].
    + unfold multiplier_of. rewrite T. reflexivity.
    + now apply float_of_str_number.
  - rewrite analyze_column_by_counts; [| exact NE |].
    + rewrite !count_if_none; [unfold label_of; now rewrite score_none | |];
        apply forallb_forall; intros v Hv; rewrite Forall_forall in H;
        apply negb_true_iff; now apply (trillions_uncounted v (H v Hv)).
    + apply forallb_forall. intros v Hv. rewrite Forall_forall in H.
      apply negb_true_iff. now apply (trillions_uncounted v (H v Hv)).
Qed.

(** X13 at a column of two amounts. *)
Lemma trillions_parse_but_column_is_string_witness :
  let data := [Some (pystr "1.5T"); Some (pystr "20t")] in
  analyze_column data = Ret (verdict (dropna data) "string").
Proof.
  intros data.
  refine (proj2 (trillions_parse_but_column_is_string data _ _)).
  - discriminate.
  - repeat constructor.
    + exists (pystr "1"), (Some (pystr "5")), (chr "T").
      repeat split; try reflexivity. discriminate.
    + exists (pystr "20"), None, (chr "t").
      repeat split; try reflexivity. discriminate.
Defined.

(** ** Dates the pattern table reads *)

Lemma alnum_cases (c : char) :
  isalnum c = true -> (48 <= c <= 57 \/ 65 <= c <= 90 \/ 97 <= c <= 122)%N.
Proof.
  unfold isalnum, isdigit, isupper, islower, in_range.
  rewrite !orb_true_iff, !andb_true_iff, !N.leb_le. tauto.
Qed.

Lemma date_char_cases (c : char) :
  date_char c = true ->
  (48 <= c <= 57 \/ 65 <= c <= 90 \/ 97 <= c <= 122 \/ c = 45)%N.
Proof.
  unfold date_char. rewrite orb_true_iff. intros [H | H].
  - apply alnum_cases in H. tauto.
  - unfold char_eqb in H. apply N.eqb_eq in H. subst c. compute. tauto.
Qed.

Lemma date_char_not_space (c : char) : date_char c = true -> isspace c = false.
Proof.
  intros H. apply date_char_cases in H. unfold isspace, in_range.
  rewrite !orb_false_iff, !andb_false_iff, !N.leb_gt, !N.eqb_neq. lia.
Qed.

Lemma date_char_not_space_numeric (c : char) :
  date_char c = true -> isspace_numeric c = false.
Proof.
  intros H. unfold isspace_numeric. now rewrite (date_char_not_space c H).
Qed.

Lemma date_char_not_underscore (c : char) :
  date_char c = true -> char_eqb c 95%N = false.
Proof.
  intros H. apply date_char_cases in H. unfold char_eqb. apply N.eqb_neq. lia.
Qed.

Lemma digits_date_chars (s : str) :
  all_digits s = true -> Forall (fun c => date_char c = true) s.
Proof.
  intros H. apply all_digits_Forall in H. eapply Forall_impl; [| exact H].
  intros c D. unfold date_char, isalnum. now rewrite D.
Qed.

(** [float] refuses a text in which digits are followed by a hyphen. *)
Lemma float_of_str_dashed (ip rest : str) :
  all_digits ip = true -> ip <> [] ->
  Forall (fun c => date_char c = true) rest ->
  float_of_str (ip ++ chr "-" :: rest) = Raise ValueError.
Proof.
  intros I NE R.
  assert (T : Forall (fun c => date_char c = true) (ip ++ chr "-" :: rest)).
  { apply Forall_app. split; [now apply digits_date_chars |].
    constructor; [reflexivity | exact R]. }
  unfold float_of_str.
  rewrite trim_id
    by (eapply Forall_impl; [| exact T]; apply date_char_not_space_numeric).
  rewrite drop_underscores_none;
    [| eapply Forall_impl; [| exact T]; apply date_char_not_underscore
     | reflexivity].
  replace (read_float (ip ++ chr "-" :: rest)) with (@None float);
    [reflexivity |].
  symmetry. unfold read_float.
  destruct ip as [| d t] eqn:E; [congruence |]. rewrite <- E in *. clear NE.
  assert (Pd : is_plain d = true).
  { rewrite E in I. simpl in I. apply andb_prop in I. now apply digit_is_plain. }
  assert (Hd : exists tail, ip ++ chr "-" :: rest = d :: tail).
  { rewrite E. eexists. reflexivity. }
  destruct Hd as (tail & Hd).
  assert (S : read_sign (ip ++ chr "-" :: rest) = (false, ip ++ chr "-" :: rest)).
  { rewrite Hd. apply plain_cases in Pd. simpl. unfold char_eqb.
    replace (d =? 45)%N with false by (symmetry; apply N.eqb_neq; lia).
    replace (d =? 43)%N with false by (symmetry; apply N.eqb_neq; lia).
    reflexivity. }
  rewrite S.
  assert (W : forall w, match w with [] => False | x :: _ => is_plain x = false end ->
              str_eqb (lower (ip ++ chr "-" :: rest)) w = false).
  { intros w Hw. rewrite Hd. destruct w as [| x w]; [contradiction |]. simpl.
    rewrite (plain_lower d Pd).
    unfold char_eqb. replace (d =? x)%N with false; [reflexivity |].
    symmetry. apply N.eqb_neq. intros ->. congruence. }
  rewrite !W by reflexivity. cbn [orb].
  rewrite (span_until isdigit ip (chr "-") rest I eq_refl).
  change (is_dot (chr "-")) with false. cbn iota. rewrite app_nil_r.
  rewrite E at 1. reflexivity.
Qed.

Lemma int_of_str_digits (ds : str) :
  all_digits ds = true -> ds <> [] -> int_of_str ds = Ret (digits_val ds).
Proof.
  intros D NE. unfold int_of_str.
  pose proof (digits_plain ds D) as P.
  rewrite (trim_plain isspace_numeric _ plain_not_space_numeric P).
  destruct ds as [| c t] eqn:E; [congruence |]. rewrite <- E in *.
  assert (S : read_sign ds = (false, ds)).
  { rewrite E. inversion P as [| ? ? Pc _]; [congruence |].
    rewrite E in H. injection H as -> ->.
    apply plain_cases in Pc. simpl. unfold char_eqb.
    replace (c =? 45)%N with false by (symmetry; apply N.eqb_neq; lia).
    replace (c =? 43)%N with false by (symmetry; apply N.eqb_neq; lia).
    reflexivity. }
  rewrite S, (drop_underscores_plain _ P 0%N eq_refl).
  rewrite E at 1. rewrite <- E. unfold all_digits in D. now rewrite D.
Qed.

Lemma parse_date_without_dateutil (du : str -> option datetime) (v : str) :
  du (strip v) = None ->
  parse_date du (Some v) = parse_date dateutil_rejects (Some v).
Proof. intros H. unfold parse_date, dateutil_rejects. now rewrite H. Qed.

(** The characters a pattern meets. *)
Lemma cset_digit_ic (c : char) : isdigit c = true -> cset_match true CDigit c = true.
Proof. intros H. unfold cset_match. cbn [cset_mem]. now rewrite H. Qed.

Lemma alnum_case (c : char) :
  isalnum c = true ->
  isalnum (lower_char c) = true /\ isalnum (upper_char c) = true.
Proof.
  intros H. apply alnum_cases in H.
  unfold lower_char, upper_char, isalnum, isdigit, isupper, islower, in_range.
  destruct (N.leb_spec 65 c), (N.leb_spec c 90), (N.leb_spec 97 c),
    (N.leb_spec c 122); cbn [andb];
    rewrite !orb_true_iff, !andb_true_iff, !N.leb_le; lia.
Qed.

Lemma cset_word_ic (c : char) : isalnum c = true -> cset_match true CWord c = true.
Proof. intros H. unfold cset_match. cbn [cset_mem]. now rewrite H. Qed.

Lemma cset_lit_alnum (x c : char) :
  isalnum x = false -> isalnum c = true -> cset_match true (CChar x) c = false.
Proof.
  intros X C. destruct (alnum_case c C) as [L U].
  unfold cset_match. cbn [cset_mem andb]. unfold char_eqb.
  rewrite !orb_false_iff, !N.eqb_neq. repeat split; intros ->; congruence.
Qed.

Lemma cset_space_alnum (c : char) :
  isalnum c = true -> cset_match true CSpace c = false.
Proof.
  intros C. destruct (alnum_case c C) as [L U].
  assert (S : forall x, isalnum x = true -> isspace x = false).
  { intros x Hx. apply date_char_not_space. unfold date_char. now rewrite Hx. }
  unfold cset_match. cbn [cset_mem andb]. now rewrite !S.
Qed.

Lemma digit_alnum (c : char) : isdigit c = true -> isalnum c = true.
Proof. intros H. unfold isalnum. now rewrite H. Qed.

(** One step of the matcher on a text of known length whose characters are
    known by their classes. *)
Ltac match_step :=
  cbn [run rep_loop length pred option_map Nat.ltb Nat.leb Nat.eqb firstn
       Nat.sub];
  repeat match goal with
    | D : isdigit ?c = true |- context [cset_match true CDigit ?c] =>
        rewrite (cset_digit_ic c D)
    | D : isalnum ?c = true |- context [cset_match true CWord ?c] =>
        rewrite (cset_word_ic c D)
    | D : isalnum ?c = true |- context [cset_match true CSpace ?c] =>
        rewrite (cset_space_alnum c D)
    | D : isalnum ?c = true |- context [cset_match true (CChar (chr ?a)) ?c] =>
        rewrite (cset_lit_alnum (chr a) c eq_refl D)
    | D : isdigit ?c = true |- context [cset_match true (CChar (chr ?a)) ?c] =>
        rewrite (cset_lit_alnum (chr a) c eq_refl (digit_alnum c D))
    | D : isdigit ?c = true |- context [cset_match true CSpace ?c] =>
        rewrite (cset_space_alnum c (digit_alnum c D))
    | |- context [cset_match true ?cs (chr ?a)] =>
        let v := eval vm_compute in (cset_match true cs (chr a)) in
        change (cset_match true cs (chr a)) with v
    end.

Ltac run_matcher :=
  unfold rmatch, match_at, times, between, plus, digit, word, space, lit;
  repeat (progress match_step).

Ltac digits_in H :=
  repeat match type of H with
         | Forall _ (_ :: _) =>
             let D := fresh "D" in
             apply Forall_cons_iff in H; destruct H as [D H]
         end.

(** X14.  An ISO date [YYYY-MM-DD] (four, two and two digits) that the
    free-form parser refuses is read by the pattern table: when the three
    numbers are a date of the calendar the result is that date, tagged
    [YYYY-MM-DD]; when they are not (month 13, 30 February), the result is
    a [Parse error] with the same tag and the text as [original_value]. *)
Theorem iso_date_is_checked_against_the_calendar
    (du : str -> option datetime) (y1 y2 y3 y4 m1 m2 d1 d2 : char) :
  Forall (fun c => isdigit c = true) [y1; y2; y3; y4; m1; m2; d1; d2] ->
  let text := iso_text [y1; y2; y3; y4] [m1; m2] [d1; d2] in
  du text = None ->
  parse_date du (Some text)
  = Ret (pattern_result "YYYY-MM-DD" text
           (digits_val [y1; y2; y3; y4]) (digits_val [m1; m2])
           (digits_val [d1; d2])).
Proof.
  intros H text U. digits_in H. clear H.
  assert (Y : all_digits [y1; y2; y3; y4] = true)
    by (cbn [all_digits forallb]; now rewrite D, D0, D1, D2).
  assert (M : all_digits [m1; m2] = true)
    by (cbn [all_digits forallb]; now rewrite D3, D4).
  assert (Dd : all_digits [d1; d2] = true)
    by (cbn [all_digits forallb]; now rewrite D5, D6).
  assert (T : Forall (fun c => date_char c = true) text).
  { unfold text, iso_text. apply Forall_app. split; [now apply digits_date_chars |].
    constructor; [reflexivity |].
    apply Forall_app. split; [now apply digits_date_chars |].
    constructor; [reflexivity | now apply digits_date_chars]. }
  assert (S : strip text = text)
    by (apply trim_id; eapply Forall_impl; [| exact T]; apply date_char_not_space).
  rewrite parse_date_without_dateutil by (now rewrite S).
  unfold parse_date, dateutil_rejects. rewrite S.
  replace (str_eqb text []) with false by reflexivity.
  unfold _is_excel_serial_date.
  replace (float_of_str text) with (@Raise float ValueError).
  2:{ symmetry. apply (float_of_str_dashed [y1; y2; y3; y4]);
        [exact Y | discriminate |].
      unfold text, iso_text in T. apply Forall_app in T. destruct T as [_ T].
      now inversion T. }
  cbn [bind try_except is_ValueError exn_eqb].
  assert (F : first_pattern FormatParser.date_patterns text
              = Some ("YYYY-MM-DD",
                      mk_match text
                        [(3, [d1; d2]); (2, [m1; m2]); (1, [y1; y2; y3; y4])]
                        [])).
  { unfold FormatParser.date_patterns, text, iso_text. cbn [first_pattern app].
    replace (rmatch true re_slash_date _) with (@None match_obj)
      by (symmetry; unfold re_slash_date; run_matcher; reflexivity).
    replace (rmatch true re_iso_date _)
      with (Some (mk_match [y1; y2; y3; y4; chr "-"; m1; m2; chr "-"; d1; d2]
                    [(3, [d1; d2]); (2, [m1; m2]); (1, [y1; y2; y3; y4])] []))
      by (symmetry; unfold re_iso_date; run_matcher; reflexivity).
    reflexivity. }
  rewrite F. unfold _parse_date_pattern.
  cbn [String.eqb Ascii.eqb Bool.eqb group lookup m_caps Nat.eqb].
  rewrite !int_of_str_digits by (assumption || discriminate).
  cbn [bind]. unfold date_of_fields, pattern_result, new_datetime.
  repeat match goal with
         | |- context [if ?c then Raise ValueError else _] => destruct c
         end; reflexivity.
Qed.

(** X14 at the text [2023-02-30]. *)
Lemma iso_date_is_checked_against_the_calendar_witness :
  parse_date dateutil_rejects (Some (pystr "2023-02-30"))
  = Ret (date_error (Some "YYYY-MM-DD") (Parse_error ValueError)
           (Some (pystr "2023-02-30"))).
Proof.
  refine (iso_date_is_checked_against_the_calendar dateutil_rejects
            (chr "2") (chr "0") (chr "2") (chr "3") (chr "0") (chr "2")
            (chr "3") (chr "0") _ _).
  - repeat constructor.
  - reflexivity.
Defined.

Lemma month_default (mon : str) :
  is_month_abbreviation mon = false -> _month_abbrev_to_num mon = 1%Z.
Proof.
  unfold is_month_abbreviation, month_abbreviations, _month_abbrev_to_num.
  cbn [existsb dict_get]. rewrite !orb_false_iff.
  intros H.
  repeat match type of H with
         | _ /\ _ => let E := fresh "E" in destruct H as [E H]; rewrite E
         end.
  reflexivity.
Qed.

(** X15.  A text [DD-xxx-YYYY] (two digits, three letters or digits, four
    digits) that the free-form parser refuses is read by the pattern
    [DD-MON-YYYY] with the month looked up in the table of abbreviations,
    in any case; when [xxx] is not in the table, the month is January: the
    text [15-XYZ-2024] is read as 15 January 2024, without an error. *)
Theorem unknown_month_is_read_as_january
    (du : str -> option datetime) (d1 d2 w1 w2 w3 y1 y2 y3 y4 : char) :
  Forall (fun c => isdigit c = true) [d1; d2; y1; y2; y3; y4] ->
  Forall (fun c => isalnum c = true) [w1; w2; w3] ->
  let text := iso_text [d1; d2] [w1; w2; w3] [y1; y2; y3; y4] in
  du text = None ->
  parse_date du (Some text)
  = Ret (pattern_result "DD-MON-YYYY" text
           (digits_val [y1; y2; y3; y4]) (_month_abbrev_to_num [w1; w2; w3])
           (digits_val [d1; d2]))
  /\ (is_month_abbreviation [w1; w2; w3] = false ->
      parse_date du (Some text)
      = Ret (pattern_result "DD-MON-YYYY" text
               (digits_val [y1; y2; y3; y4]) 1 (digits_val [d1; d2]))).
Proof.
  intros H Hw text U. digits_in H. clear H. digits_in Hw. clear Hw.
  assert (Y : all_digits [y1; y2; y3; y4] = true)
    by (cbn [all_digits forallb]; now rewrite D1, D2, D3, D4).
  assert (Dd : all_digits [d1; d2] = true)
    by (cbn [all_digits forallb]; now rewrite D, D0).
  assert (Tw : Forall (fun c => date_char c = true) [w1; w2; w3]).
  { repeat constructor; unfold date_char;
      rewrite ?D5, ?D6, ?D7; reflexivity. }
  assert (T : Forall (fun c => date_char c = true) text).
  { unfold text, iso_text. apply Forall_app. split; [now apply digits_date_chars |].
    constructor; [reflexivity |].
    apply Forall_app. split; [exact Tw |].
    constructor; [reflexivity | now apply digits_date_chars]. }
  assert (S : strip text = text)
    by (apply trim_id; eapply Forall_impl; [| exact T]; apply date_char_not_space).
  assert (G : parse_date du (Some text)
              = Ret (pattern_result "DD-MON-YYYY" text
                       (digits_val [y1; y2; y3; y4])
                       (_month_abbrev_to_num [w1; w2; w3])
                       (digits_val [d1; d2]))).
  { rewrite parse_date_without_dateutil by (now rewrite S).
    unfold parse_date, dateutil_rejects. rewrite S.
    replace (str_eqb text []) with false by reflexivity.
    unfold _is_excel_serial_date.
    replace (float_of_str text) with (@Raise float ValueError).
    2:{ symmetry. apply (float_of_str_dashed [d1; d2]);
          [exact Dd | discriminate |].
        unfold text, iso_text in T. apply Forall_app in T. destruct T as [_ T].
        now inversion T. }
    cbn [bind try_except is_ValueError exn_eqb].
    assert (F : first_pattern FormatParser.date_patterns text
                = Some ("DD-MON-YYYY",
                        mk_match text
                          [(3, [y1; y2; y3; y4]); (2, [w1; w2; w3]); (1, [d1; d2])]
                          [])).
    { unfold FormatParser.date_patterns, text, iso_text. cbn [first_pattern app].
      replace (rmatch true re_slash_date _) with (@None match_obj)
        by (symmetry; unfold re_slash_date; run_matcher; reflexivity).
      replace (rmatch true re_iso_date _) with (@None match_obj)
        by (symmetry; unfold re_iso_date; run_matcher; reflexivity).
      replace (rmatch true re_dd_mon_yyyy _)
        with (Some (mk_match
                      [d1; d2; chr "-"; w1; w2; w3; chr "-"; y1; y2; y3; y4]
                      [(3, [y1; y2; y3; y4]); (2, [w1; w2; w3]); (1, [d1; d2])]
                      []))
        by (symmetry; unfold re_dd_mon_yyyy; run_matcher; reflexivity).
      reflexivity. }
    rewrite F. unfold _parse_date_pattern.
    cbn [String.eqb Ascii.eqb Bool.eqb group lookup m_caps Nat.eqb].
    rewrite !int_of_str_digits by (assumption || discriminate).
    cbn [bind]. unfold date_of_fields, pattern_result, new_datetime.
    repeat match goal with
           | |- context [if ?c then Raise ValueError else _] => destruct c
           end; reflexivity. }
  split; [exact G |].
  intros N. rewrite G. now rewrite (month_default _ N).
Qed.

(** X15 at the text [15-XYZ-2024]. *)
Lemma unknown_month_is_read_as_january_witness :
  parse_date dateutil_rejects (Some (pystr "15-XYZ-2024"))
  = Ret (date_ok (mk_datetime 2024 1 15) "DD-MON-YYYY" 2024 1 15 None None None).
Proof.
  refine (proj2 (unknown_month_is_read_as_january dateutil_rejects
                   (chr "1") (chr "5") (chr "X") (chr "Y") (chr "Z")
                   (chr "2") (chr "0") (chr "2") (chr "4") _ _ _) _).
  - repeat constructor.
  - repeat constructor.
  - reflexivity.
  - reflexivity.
Defined.

Lemma letter_Q_cases (c : char) : upper_char c = chr "Q" -> c = 81%N \/ c = 113%N.
Proof.
  unfold upper_char, islower, in_range.
  destruct (N.leb_spec 97 c), (N.leb_spec c 122); cbn [andb];
    change (chr "Q") with 81%N; lia.
Qed.

Lemma quarter_digit_cases (q : char) :
  in_range (chr "1") (chr "4") q = true ->
  q = 49%N \/ q = 50%N \/ q = 51%N \/ q = 52%N.
Proof.
  unfold in_range. change (chr "1") with 49%N. change (chr "4") with 52%N.
  rewrite andb_true_iff, !N.leb_le. lia.
Qed.

Lemma two_digits_val (y1 y2 : char) :
  isdigit y1 = true -> isdigit y2 = true ->
  (0 <= digits_val [y1; y2] <= 99)%Z.
Proof.
  unfold isdigit, in_range. rewrite !andb_true_iff, !N.leb_le.
  unfold digits_val, digit_val. cbn [fold_left]. lia.
Qed.

(** The matcher on a text whose characters are constants. *)
Ltac match_closed :=
  repeat match goal with
    | |- context [cset_match true ?cs ?x] =>
        let v := eval vm_compute in (cset_match true cs x) in
        match v with
        | true => change (cset_match true cs x) with true
        | false => change (cset_match true cs x) with false
        end
    end.

Ltac run_matcher_closed :=
  unfold rmatch, match_at, times, between, plus, digit, word, space, lit;
  repeat (progress (match_step; match_closed)).

(** X16.  A text [Qn-YY] (Q in either case, n from 1 to 4, two digits)
    that the free-form parser refuses is read as the first day of quarter
    n of the year 20YY, tagged [quarter_short]: no pattern of the table
    matches it, and [_parse_quarter_format] always succeeds on it. *)
Theorem short_quarter_is_first_day_of_quarter
    (du : str -> option datetime) (c q y1 y2 : char) :
  upper_char c = chr "Q" ->
  in_range (chr "1") (chr "4") q = true ->
  isdigit y1 = true -> isdigit y2 = true ->
  let text := [c; q; chr "-"; y1; y2] in
  let quarter := digit_val q in
  let y := (2000 + digits_val [y1; y2])%Z in
  let mo := ((quarter - 1) * 3 + 1)%Z in
  du text = None ->
  parse_date du (Some text)
  = Ret (date_ok (mk_datetime y mo 1) "quarter_short" y mo 1 (Some quarter)
           None None).
Proof.
  intros C Q D1 D2 text quarter y mo U.
  pose proof (two_digits_val y1 y2 D1 D2) as B.
  assert (T : Forall (fun x => date_char x = true) text).
  { unfold text. repeat constructor.
    - destruct (letter_Q_cases c C) as [-> | ->]; reflexivity.
    - destruct (quarter_digit_cases q Q) as [-> | [-> | [-> | ->]]]; reflexivity.
    - unfold date_char, isalnum. now rewrite D1.
    - unfold date_char, isalnum. now rewrite D2. }
  assert (S : strip text = text)
    by (apply trim_id; eapply Forall_impl; [| exact T]; apply date_char_not_space).
  rewrite parse_date_without_dateutil by (now rewrite S).
  unfold parse_date, dateutil_rejects. rewrite S.
  replace (str_eqb text []) with false by reflexivity.
  unfold _is_excel_serial_date.
  rewrite (float_of_str_rejects text c);
    [| now left
     | destruct (letter_Q_cases c C) as [-> | ->]; reflexivity].
  cbn [bind try_except is_ValueError exn_eqb].
  assert (Y : all_digits [y1; y2] = true)
    by (cbn [all_digits forallb]; now rewrite D1, D2).
  assert (Up : contains_char (chr "Q") (upper text) = true).
  { unfold text, upper, contains_char. cbn [map existsb]. rewrite C.
    reflexivity. }
  assert (N1 : rmatch true re_slash_date text = None).
  { unfold text, re_slash_date.
    destruct (letter_Q_cases c C) as [-> | ->]; run_matcher_closed; reflexivity. }
  assert (N2 : rmatch true re_iso_date text = None).
  { unfold text, re_iso_date.
    destruct (letter_Q_cases c C) as [-> | ->]; run_matcher_closed; reflexivity. }
  assert (N3 : rmatch true re_dd_mon_yyyy text = None).
  { unfold text, re_dd_mon_yyyy.
    destruct (letter_Q_cases c C) as [-> | ->]; run_matcher_closed; reflexivity. }
  assert (N4 : rmatch true re_quarter text = None).
  { unfold text, re_quarter.
    destruct (letter_Q_cases c C) as [-> | ->];
      destruct (quarter_digit_cases q Q) as [-> | [-> | [-> | ->]]];
      run_matcher_closed; reflexivity. }
  assert (N5 : rmatch true re_month_year text = None).
  { unfold text, re_month_year.
    destruct (letter_Q_cases c C) as [-> | ->];
      destruct (quarter_digit_cases q Q) as [-> | [-> | [-> | ->]]];
      run_matcher_closed; reflexivity. }
  assert (M : rmatch true re_quarter_short text
              = Some (mk_match text [(2, [y1; y2]); (1, [q])] [])).
  { unfold text, re_quarter_short.
    destruct (letter_Q_cases c C) as [-> | ->];
      destruct (quarter_digit_cases q Q) as [-> | [-> | [-> | ->]]];
      run_matcher_closed; reflexivity. }
  unfold FormatParser.date_patterns. cbn [first_pattern].
  rewrite N1, N2, N3, N4, N5, Up.
  unfold _parse_quarter_format. rewrite N4, M.
  cbn [group lookup m_caps Nat.eqb].
  rewrite (int_of_str_digits [y1; y2] Y) by discriminate.
  replace (int_of_str [q]) with (Ret (digit_val q))
    by (destruct (quarter_digit_cases q Q) as [-> | [-> | [-> | ->]]];
        reflexivity).
  cbn [bind]. fold quarter. fold y. fold mo.
  replace (new_datetime y mo 1) with (Ret (mk_datetime y mo 1));
    [reflexivity |].
  unfold new_datetime, MINYEAR, MAXYEAR.
  replace (Z.leb 1 y && Z.leb y 9999)%bool with true
    by (symmetry; rewrite andb_true_iff, !Z.leb_le; unfold y; lia).
  unfold mo, quarter.
  destruct (quarter_digit_cases q Q) as [-> | [-> | [-> | ->]]]; reflexivity.
Qed.

(** X16 at the text [q3-24]. *)
Lemma short_quarter_is_first_day_of_quarter_witness :
  parse_date dateutil_rejects (Some (pystr "q3-24"))
  = Ret (date_ok (mk_datetime 2024 7 1) "quarter_short" 2024 7 1 (Some 3%Z)
           None None).
Proof.
  refine (short_quarter_is_first_day_of_quarter dateutil_rejects
            (chr "q") (chr "3") (chr "2") (chr "4") _ _ _ _ _);
    reflexivity.
Defined.

(** ** The describing routines *)

Lemma startswith_app (w v : str) : startswith (w ++ v) w = true.
Proof.
  induction w as [| x w IH]; simpl; [now destruct v |].
  unfold char_eqb. now rewrite N.eqb_refl, IH.
Qed.

Lemma contains_intro (u w v : str) : FormatInfo.contains w (u ++ w ++ v) = true.
Proof.
  induction u as [| x u IH].
  - cbn [app]. destruct (w ++ v) eqn:E; cbn [FormatInfo.contains];
      rewrite <- E, startswith_app; reflexivity.
  - cbn [app FormatInfo.contains]. rewrite IH. apply orb_true_r.
Qed.

Lemma startswith_elim (s w : str) :
  startswith s w = true -> exists v, s = w ++ v.
Proof.
  revert s. induction w as [| x w IH]; intros s; simpl.
  - intros _. now exists s.
  - destruct s as [| y s]; [discriminate |].
    intros H. apply andb_prop in H. destruct H as [E H].
    apply N.eqb_eq in E. subst y. destruct (IH s H) as (v & ->). now exists v.
Qed.

Lemma contains_elim (w s : str) :
  FormatInfo.contains w s = true -> exists u v, s = u ++ w ++ v.
Proof.
  induction s as [| x s IH]; cbn [FormatInfo.contains]; intros H;
    apply orb_prop in H; destruct H as [H | H]; try discriminate.
  - apply startswith_elim in H. destruct H as (v & E). now exists [], v.
  - apply startswith_elim in H. destruct H as (v & E). now exists [], v.
  - destruct (IH H) as (u & v & ->). now exists (x :: u), v.
Qed.

(** A word is found wherever a word that holds it is found. *)
Lemma contains_part (a b c w s : str) :
  w = a ++ b ++ c ->
  FormatInfo.contains w s = true -> FormatInfo.contains b s = true.
Proof.
  intros -> H. apply contains_elim in H. destruct H as (u & v & ->).
  replace (u ++ (a ++ b ++ c) ++ v) with ((u ++ a) ++ b ++ (c ++ v))
    by (now rewrite <- !app_assoc).
  apply contains_intro.
Qed.

Lemma filter_length_le (A : Type) (f g : A -> bool) (l : list A) :
  (forall x, f x = true -> g x = true) ->
  length (filter f l) <= length (filter g l).
Proof.
  intros H. induction l as [| x l IH]; [reflexivity |]. cbn [filter].
  destruct (f x) eqn:F.
  - rewrite (H x F). simpl. lia.
  - destruct (g x); simpl; lia.
Qed.

(** X17.  [classify_string_type] looks for its key words as substrings of
    the value in lower case, and [co] is a part of [account]: every value
    that mentions an account, in any case, is counted as account-related
    and as company-related as well. *)
Theorem account_values_are_company_values (sample_values : list str) :
  let mentions :=
    filter (fun value =>
              FormatInfo.contains (pystr "account") (lower value))
      sample_values in
  let i := FormatInfo.classify_string_type sample_values in
  (Z.of_nat (length mentions) <= FormatInfo.account_related i)%Z
  /\ (Z.of_nat (length mentions) <= FormatInfo.company_related i)%Z.
Proof.
  intros mentions i. unfold i, mentions, FormatInfo.classify_string_type.
  cbn [FormatInfo.account_related FormatInfo.company_related].
  unfold FormatInfo.account_patterns, FormatInfo.company_patterns.
  split; apply inj_le, filter_length_le; intros value H;
    unfold FormatInfo.any_word; cbn [existsb].
  - now rewrite H.
  - rewrite (contains_part (pystr "ac") (pystr "co") (pystr "unt")
               (pystr "account") (lower value) eq_refl H).
    now rewrite !orb_true_r.
Qed.

(** ** The separator [detect_number_format] reports *)

Lemma search_from_first (ic : bool) (cs : cset) (subject a b : str) (c : char) :
  Forall (fun x => cset_match ic cs x = false) a ->
  cset_match ic cs c = true ->
  search_from ic (Chr cs) subject (a ++ c :: b) = Some (mk_match [c] [] b).
Proof.
  intros A C. induction A as [| x a Hx _ IH]; cbn [app search_from].
  - unfold match_at. cbn [run]. rewrite C.
    change (c :: b) with ([c] ++ b). now rewrite firstn_app_exact.
  - unfold match_at at 1. cbn [run]. rewrite Hx. exact IH.
Qed.

Lemma point_or_comma_match (x : char) :
  cset_match false (class [CChar (chr "."); CChar (chr ",")]) x = is_separator x.
Proof.
  rewrite cset_match_exact. cbn [class cset_mem]. unfold is_separator, char_eqb.
  rewrite (N.eqb_sym (chr ".")), (N.eqb_sym (chr ",")). apply orb_comm.
Qed.

Lemma comma_first_split (value : str) :
  comma_first value = true ->
  exists a b, value = a ++ chr "," :: b
              /\ Forall (fun x => is_separator x = false) a.
Proof.
  unfold comma_first.
  destruct (span (fun x => negb (is_separator x)) value) as [a r] eqn:S.
  apply span_split in S. destruct S as [E F]. cbn [snd].
  destruct r as [| c b]; [discriminate |]. intros C.
  apply N.eqb_eq in C. subst c. exists a, b. split; [exact E |].
  apply Forall_forall. intros x Hx. rewrite forallb_forall in F.
  apply negb_true_iff. now apply F.
Qed.

Lemma found_comma_first (value : str) :
  comma_first value = true ->
  FormatInfo.found FormatInfo.re_point_or_comma value = [pystr ","].
Proof.
  intros H. destruct (comma_first_split value H) as (a & b & -> & F).
  unfold FormatInfo.found, FormatInfo.re_point_or_comma, search.
  rewrite (search_from_first false _ _ a b (chr ",")); [reflexivity | | reflexivity].
  eapply Forall_impl; [| exact F]. intros x Hx. now rewrite point_or_comma_match.
Qed.

Lemma as_set_repeat (x : str) (n : nat) :
  FormatInfo.as_set (repeat x (S n)) = [x].
Proof.
  unfold FormatInfo.as_set. induction n as [| n IH].
  - reflexivity.
  - change (repeat x (S (S n))) with (x :: repeat x (S n)).
    cbn [nodup]. rewrite IH.
    destruct (in_dec FormatInfo.str_eq_dec x (repeat x (S n))) as [_ | N];
      [reflexivity |].
    exfalso. apply N. now left.
Qed.

(** X18.  The decimal separator [detect_number_format] reports for a
    value is the first point or comma of its text.  When the first
    separator of every value of a sample is a comma, as in [1,234.56] or
    [$12,500.00], the only decimal separator reported is the comma: the
    point of these amounts is not reported. *)
Theorem thousands_comma_is_reported_as_decimal_separator
    (sample_values : list str) :
  sample_values <> [] ->
  forallb comma_first sample_values = true ->
  FormatInfo.n_decimal_separators (FormatInfo.detect_number_format sample_values)
  = [pystr ","].
Proof.
  intros NE H. unfold FormatInfo.detect_number_format.
  cbn [FormatInfo.n_decimal_separators].
  assert (R : flat_map (FormatInfo.found FormatInfo.re_point_or_comma)
                sample_values
              = repeat (pystr ",") (length sample_values)).
  { clear NE. induction sample_values as [| v vs IH]; [reflexivity |].
    cbn [forallb] in H. apply andb_prop in H. destruct H as [Hv H].
    cbn [flat_map length repeat]. now rewrite (found_comma_first v Hv), (IH H). }
  rewrite R. destruct sample_values as [| v vs]; [congruence |].
  apply as_set_repeat.
Qed.

(** X18 at a sample of two amounts. *)
Lemma thousands_comma_is_reported_as_decimal_separator_witness :
  FormatInfo.n_decimal_separators
    (FormatInfo.detect_number_format [pystr "$1,234.56"; pystr "12,500.00"])
  = [pystr ","].
Proof.
  refine (thousands_comma_is_reported_as_decimal_separator
            [pystr "$1,234.56"; pystr "12,500.00"] _ _).
  - discriminate.
  - reflexivity.
Defined.

(** ** A column of serial numbers and its description *)

Lemma compare_cont_le (m a b : positive) :
  (a <= b)%positive ->
  Pos.compare_cont Eq m a <> Gt -> Pos.compare_cont Eq m b <> Gt.
Proof.
  intros AB. change (Pos.compare_cont Eq m a) with (Pos.compare m a).
  change (Pos.compare_cont Eq m b) with (Pos.compare m b).
  intros H. change ((m <= a)%positive) in H.
  change ((m <= b)%positive). now apply Pos.le_trans with a.
Qed.

(** Evaluate a closed float. *)
Ltac evaluate_in t H :=
  let v := eval vm_compute in t in change t with v in H.
Ltac evaluate t :=
  let v := eval vm_compute in t in change t with v.

(** Between 1000 and 73050 is between 1 and 100000. *)
Lemma serial_range_is_excel_range (f : float) :
  (fleb (float_of_int 1000) f && fleb f (float_of_int 73050))%bool = true ->
  (fleb (float_of_int 1) f && fleb f (float_of_int 100000))%bool = true.
Proof.
  intros H. apply andb_prop in H. destruct H as [L U].
  destruct f as [s | s | | s m e]; try discriminate; try (destruct s; discriminate).
  destruct s; [discriminate |].
  unfold fleb, SFleb in *.
  evaluate_in (float_of_int 1000) L. evaluate_in (float_of_int 73050) U.
  evaluate (float_of_int 1). evaluate (float_of_int 100000).
  cbn [SFcompare] in *.
  destruct (Z.compare_spec (-43) e) as [E1 | E1 | E1]; try discriminate;
    destruct (Z.compare_spec e (-36)) as [E2 | E2 | E2]; try discriminate;
    destruct (Z.compare_spec (-52) e) as [E3 | E3 | E3]; try lia;
    cbn [andb]; try reflexivity.
  match type of U with
  | match ?c with _ => _ end = true =>
      assert (C : c <> Gt) by (destruct c; [discriminate | discriminate | discriminate U])
  end.
  apply (compare_cont_le m _ 6871947673600000%positive) in C.
  - destruct (Pos.compare_cont Eq m 6871947673600000%positive);
      [reflexivity | reflexivity | congruence].
  - vm_compute. discriminate.
Qed.

Lemma bare_serial_split (value : str) :
  bare_serial value = true ->
  strip value = value /\ is_serial_date value = Ret true.
Proof.
  unfold bare_serial. intros H. apply andb_prop in H. destruct H as [S D].
  split; [now apply str_eqb_eq |].
  destruct (is_serial_date value) as [[|] | e]; congruence.
Qed.

Lemma serial_date_is_excel_date (value : str) :
  is_serial_date value = Ret true ->
  exists f, FormatInfo.excel_date_of value = Ret [f].
Proof.
  unfold is_serial_date, FormatInfo.excel_date_of.
  destruct (float_of_str value) as [f | e]; cbn [bind try_except].
  2:{ destruct (is_ValueError e); discriminate. }
  destruct (int_of_float f) as [z | e]; cbn [bind try_except].
  2:{ destruct (is_ValueError e); discriminate. }
  destruct (float_eq_int f z); cbn [try_except]; [| discriminate].
  intros H. injection H as H. exists f.
  now rewrite (serial_range_is_excel_range f H).
Qed.

Lemma date_format_loop_serials (values : list str) :
  forallb bare_serial values = true ->
  forall date_formats excel_dates,
    exists formats found,
      FormatInfo.date_format_loop values date_formats excel_dates
      = Ret (formats, excel_dates ++ found)
      /\ length found = length values.
Proof.
  induction values as [| v vs IH]; intros H fs es.
  - exists fs, []. cbn [FormatInfo.date_format_loop]. rewrite app_nil_r. auto.
  - cbn [forallb] in H. apply andb_prop in H. destruct H as [Hv H].
    destruct (bare_serial_split v Hv) as [_ D].
    destruct (serial_date_is_excel_date v D) as (f & E).
    cbn [FormatInfo.date_format_loop]. rewrite E. cbn [bind].
    destruct (IH H (match FormatInfo.first_match DataTypeDetector.date_patterns 0 v with
                    | Some rank => fs ++ [rank]
                    | None => fs
                    end) (es ++ [f])) as (formats & found & R & L).
    exists formats, (f :: found). rewrite R. split.
    + now rewrite <- app_assoc.
    + simpl. now rewrite L.
Qed.

(** X19.  When every value of a sample is an integer between 1000 and
    73050 written without white space around it, [analyze_column]
    classifies the column as [date], the routine that describes the
    sample is [detect_date_format], and its dictionary reports Excel
    serial dates: every value of the sample is counted in
    [excel_date_count]. *)
Theorem serial_column_is_described_as_excel_dates (data : list (option str)) :
  dropna data <> [] ->
  forallb bare_serial (dropna data) = true ->
  exists c routine i,
    analyze_column data = Ret c
    /\ type c = "date"
    /\ format_info_of c = Some routine
    /\ FormatInfo.format_info_dict routine = Ret (FormatInfo.DateInfo i)
    /\ FormatInfo.excel_serial_dates i = true
    /\ FormatInfo.excel_date_count i = Z.of_nat (length (dropna data)).
Proof.
  intros NE H.
  assert (C : forallb counts_as_date (dropna data) = true).
  { apply forallb_forall. intros v Hv.
    destruct (bare_serial_split v (proj1 (forallb_forall _ _) H v Hv)) as [S D].
    unfold counts_as_date. now rewrite S, D. }
  destruct (date_format_loop_serials (dropna data) H [] [])
    as (formats & found & R & L).
  exists (verdict (dropna data) "date"),
         (DataTypeDetector.detect_date_format (dropna data)),
         {| FormatInfo.detected_patterns := nodup Nat.eq_dec formats;
            FormatInfo.excel_serial_dates := Nat.ltb 0 (length found);
            FormatInfo.excel_date_count := Z.of_nat (length found);
            FormatInfo.sample_excel_dates := firstn 5 found |}.
  split; [now apply counted_dates_verdict |].
  split; [reflexivity |]. split; [reflexivity |].
  split.
  { cbn [FormatInfo.format_info_dict]. unfold FormatInfo.detect_date_format.
    rewrite R. reflexivity. }
  cbn [FormatInfo.excel_serial_dates FormatInfo.excel_date_count].
  rewrite L. split; [| reflexivity].
  apply Nat.ltb_lt. destruct (dropna data); [congruence | simpl; lia].
Qed.

(** X19 at a column of three serial numbers. *)
Lemma serial_column_is_described_as_excel_dates_witness :
  let data := [Some (pystr "44927"); Some (pystr "45000"); None;
               Some (pystr "1500")] in
  exists c routine i,
    analyze_column data = Ret c
    /\ type c = "date"
    /\ format_info_of c = Some routine
    /\ FormatInfo.format_info_dict routine = Ret (FormatInfo.DateInfo i)
    /\ FormatInfo.excel_serial_dates i = true
    /\ FormatInfo.excel_date_count i = Z.of_nat (length (dropna data)).
Proof.
  intros data.
  refine (serial_column_is_described_as_excel_dates data _ _).
  - discriminate.
  - vm_compute. reflexivity.
Defined.

(** ** The sign of the value [parse_amount] returns *)

(** X20.  Whenever [parse_amount] returns a value by another rule than the
    abbreviated suffix (the standard path, parentheses, a trailing minus
    sign), the value has its sign bit clear and is not below zero: the
    sign of the amount is carried by [is_negative]. *)
Theorem unabbreviated_value_is_not_negative
    (value : option str) (a : amount) (v : float) :
  parse_amount value = Ret a -> abbreviation a = None ->
  parsed_value a = Some v ->
  sign_clear v /\ fltb v (float_of_int 0) = false.
Proof.
  intros P A V.
  pose proof (unabbreviated_amount_sign value a v P A V) as S.
  split; [exact S | now apply sign_clear_not_negative].
Qed.

(** X20 at the text [(2,500.00)]. *)
Lemma unabbreviated_value_is_not_negative_witness :
  parse_amount (Some (pystr "(2,500.00)"))
  = Ret (amount_plain (float_of_int 2500) None true "parentheses_negative")
  /\ sign_clear (float_of_int 2500)
  /\ fltb (float_of_int 2500) (float_of_int 0) = false.
Proof.
  assert (P : parse_amount (Some (pystr "(2,500.00)"))
              = Ret (amount_plain (float_of_int 2500) None true
                       "parentheses_negative"))
    by (vm_compute; reflexivity).
  split; [exact P |].
  exact (unabbreviated_value_is_not_negative (Some (pystr "(2,500.00)")) _
           (float_of_int 2500) P eq_refl eq_refl).
Defined.
